(** * code-to-pipeline: repository decomposition and semantic chunking

    A shallow embedding of the scanning pipeline of code-to-pipeline
    ([project_detector.py], [ast_analyzer.py], [file_scanner.py], [main.py])
    and the properties its specification states about it.

    Conventions of the embedding.
    - A Python [str] is the [string] of its UTF-8 bytes, and [bytes] are a
      [string] as well, so that [content.encode("utf8")] and
      [.decode("utf8")] are the identity. White space is the white space of
      Unicode, recognised on the encoded form ([lstrip], [rstrip],
      [is_blank]). [lower] cases the letters A to Z; the casing of letters
      outside ASCII is not modelled.
    - A Python exception is a value of [pyexn]; code that can raise returns
      [exc A], and [try ... except Exception] is [try_except]. Limits of the
      interpreter (recursion depth, memory) are not modelled.
    - A Python [dict] whose keys are fixed is a record; a [dict] built at run
      time is an association list in insertion order.
    - External capabilities (file system, tokenizer, parser, embedding model,
      clustering, thread pool) are the fields of [World] and [Models]. *)

From Stdlib Require Import Ascii String.
From stdpp Require Import base list strings gmap sorting.
From Stdlib Require Import ZArith Lia.

#[local] Set Warnings "-clear-no-such-hyp".

Local Open Scope Z_scope.
Local Open Scope nat_scope.
Local Open Scope list_scope.

(** ** Exceptions *)

Inductive pyexn : Type :=
  | IndexError
  | TypeError (msg : string)
  | SystemExit (code : nat)
  | Exception (msg : string).

(** [str(e)] *)
Definition str_exn (e : pyexn) : string :=
  match e with
  | IndexError => "list index out of range"
  | TypeError msg => msg
  | SystemExit _ => ""
  | Exception msg => msg
  end.

Inductive exc (A : Type) : Type :=
  | Ok (a : A)
  | Raise (e : pyexn).
Arguments Ok {A} a.
Arguments Raise {A} e.

#[global] Instance exc_ret : MRet exc := fun A a => Ok a.
#[global] Instance exc_bind : MBind exc := fun A B k m =>
  match m with
  | Ok a => k a
  | Raise e => Raise e
  end.

(** [try: m  except Exception as e: h e] *)
Definition try_except {A : Type} (m : exc A) (h : pyexn -> A) : A :=
  match m with
  | Ok a => a
  | Raise e => h e
  end.

Definition raises {A : Type} (m : exc A) : Prop := exists e, m = Raise e.

(** [l[i]] on a Python list or a numpy array, with [0 <= i]. *)
Definition list_get {A : Type} (l : list A) (i : nat) : exc A :=
  match l !! i with
  | Some a => Ok a
  | None => Raise IndexError
  end.

(** [l[i] = x] on a Python list, with [0 <= i]. *)
Definition list_set {A : Type} (l : list A) (i : nat) (x : A) : exc (list A) :=
  if decide (i < length l) then Ok (<[i := x]> l) else Raise IndexError.

(** ** Strings *)

Definition is_upper (c : ascii) : bool :=
  let n := nat_of_ascii c in (65 <=? n) && (n <=? 90).

Definition lower_ascii (c : ascii) : ascii :=
  if is_upper c then ascii_of_nat (nat_of_ascii c + 32) else c.

(** [s.lower()] on the letters A to Z; a letter outside ASCII is left as it
    is. The file extensions and language names the code compares ([".py"],
    [".js"], ["python"], ...) are ASCII, and no character lower-cases to
    one of A to Z or to a dot. *)
Fixpoint lower (s : string) : string :=
  match s with
  | EmptyString => EmptyString
  | String c s' => String (lower_ascii c) (lower s')
  end.

(** [c.isspace()] for a character of one byte: tab, line feed, vertical
    tab, form feed, carriage return, the four separators 28..31 and the
    space. *)
Definition is_space (c : ascii) : bool :=
  let n := nat_of_ascii c in
  ((9 <=? n) && (n <=? 13)) || ((28 <=? n) && (n <=? 32)).

(** [c.isspace()] for a character of two bytes: U+0085 (C2 85) and
    U+00A0 (C2 A0). *)
Definition is_space2 (c1 c2 : ascii) : bool :=
  let n2 := nat_of_ascii c2 in
  (nat_of_ascii c1 =? 194) && ((n2 =? 133) || (n2 =? 160)).

(** [c.isspace()] for a character of three bytes: U+1680 (E1 9A 80),
    U+2000..U+200A (E2 80 80..8A), U+2028, U+2029, U+202F (E2 80 A8, A9, AF),
    U+205F (E2 81 9F) and U+3000 (E3 80 80). No character of four bytes is
    white space. *)
Definition is_space3 (c1 c2 c3 : ascii) : bool :=
  let n1 := nat_of_ascii c1 in
  let n2 := nat_of_ascii c2 in
  let n3 := nat_of_ascii c3 in
  ((n1 =? 225) && (n2 =? 154) && (n3 =? 128))
  || ((n1 =? 226) && (n2 =? 128)
      && (((128 <=? n3) && (n3 <=? 138)) || (n3 =? 168) || (n3 =? 169) || (n3 =? 175)))
  || ((n1 =? 226) && (n2 =? 129) && (n3 =? 159))
  || ((n1 =? 227) && (n2 =? 128) && (n3 =? 128)).

(** [s.lstrip()]: the leading white space characters are dropped. *)
Fixpoint lstrip (s : string) : string :=
  match s with
  | EmptyString => EmptyString
  | String c1 r1 =>
      if is_space c1 then lstrip r1
      else
        match r1 with
        | EmptyString => s
        | String c2 r2 =>
            if is_space2 c1 c2 then lstrip r2
            else
              match r2 with
              | EmptyString => s
              | String c3 r3 => if is_space3 c1 c2 c3 then lstrip r3 else s
              end
        end
  end.

(** [not s.strip()]: the text is empty or white space only. *)
Definition is_blank (s : string) : bool :=
  match lstrip s with
  | EmptyString => true
  | String _ _ => false
  end.

(** [s.rstrip()]: the text is cut where its trailing white space starts. A
    suffix made of white space starts at a character of the text: it starts
    with a byte below 128 or with a leading byte of UTF-8. *)
Fixpoint rstrip (s : string) : string :=
  match s with
  | EmptyString => EmptyString
  | String c s' => if is_blank s then EmptyString else String c (rstrip s')
  end.

(** [s.strip()] *)
Definition strip (s : string) : string := rstrip (lstrip s).

(** Truth value of a string: [bool(s)]. *)
Definition truthy (s : string) : bool :=
  match s with
  | EmptyString => false
  | String _ _ => true
  end.

(** [a or b] on strings *)
Definition str_or (a b : string) : string := if truthy a then a else b.

(** [s[i:j]] for [0 <= i] and [0 <= j]: clamped at the end of [s], empty when
    [j <= i]. *)
Definition slice (s : string) (i j : nat) : string := substring i (j - i) s.

(** [x in xs] for a set or tuple of strings *)
Definition mem (x : string) (xs : list string) : bool :=
  existsb (String.eqb x) xs.

(** ** Paths ([posixpath]) *)

Module PosixPath.

Definition slash : ascii := "/"%char.
Definition dot : ascii := "."%char.

(** [p.rfind(c) + 1]: one past the last occurrence of [c], 0 when absent. *)
Fixpoint rfind1 (c : ascii) (p : string) : nat :=
  match p with
  | EmptyString => 0
  | String a p' =>
      match rfind1 c p' with
      | 0 => if Ascii.eqb a c then 1 else 0
      | S k => S (S k)
      end
  end.

Fixpoint drop (n : nat) (p : string) : string :=
  match n, p with
  | 0, _ => p
  | S n', EmptyString => EmptyString
  | S n', String _ p' => drop n' p'
  end.

Fixpoint take (n : nat) (p : string) : string :=
  match n, p with
  | 0, _ => EmptyString
  | S n', EmptyString => EmptyString
  | S n', String a p' => String a (take n' p')
  end.

(** [os.path.basename(p)]: [i = p.rfind('/') + 1; return p[i:]] *)
Definition basename (p : string) : string := drop (rfind1 slash p) p.

Fixpoint all_char (c : ascii) (p : string) : bool :=
  match p with
  | EmptyString => true
  | String a p' => Ascii.eqb a c && all_char c p'
  end.

(** [head.rstrip('/')] *)
Fixpoint rstrip_slash (p : string) : string :=
  match p with
  | EmptyString => EmptyString
  | String a p' =>
      match rstrip_slash p' with
      | EmptyString => if Ascii.eqb a slash then EmptyString else String a EmptyString
      | r => String a r
      end
  end.

(** [os.path.dirname(p)] *)
Definition dirname (p : string) : string :=
  let head := take (rfind1 slash p) p in
  if truthy head && negb (all_char slash head) then rstrip_slash head else head.

(** [os.path.splitext(p)[1]]: the text from the last dot of the last
    component on, unless only dots precede it in that component. *)
Definition splitext_ext (p : string) : string :=
  let sep := rfind1 slash p in
  let dt := rfind1 dot p in
  if decide (sep < dt) then
    (* dt - 1 is the index of the last dot, sep the start of the component *)
    if all_char dot (slice p sep (dt - 1)) then EmptyString
    else drop (dt - 1) p
  else EmptyString.

(** [os.path.join(a, b)] *)
Definition join (a b : string) : string :=
  match b with
  | String c _ =>
      if Ascii.eqb c slash then b
      else if truthy a && negb (Ascii.eqb (List.last (list_ascii_of_string a) dot) slash)
           then a +:+ "/" +:+ b
           else a +:+ b
  | EmptyString =>
      if truthy a && negb (Ascii.eqb (List.last (list_ascii_of_string a) dot) slash)
      then a +:+ "/" else a
  end.

(** [os.path.isabs(p)] *)
Definition isabs (p : string) : bool :=
  match p with
  | String c _ => Ascii.eqb c slash
  | EmptyString => false
  end.

End PosixPath.

(** ** Syntax trees (the parser capability's result) *)

Definition point : Type := nat * nat.

Local Unset Elimination Schemes.
Inductive Node : Type :=
  mkNode (type : string) (start_byte end_byte : nat)
         (start_point end_point : point) (children : list Node).

Local Set Elimination Schemes.

Definition node_type (n : Node) : string :=
  let '(mkNode t _ _ _ _ _) := n in t.
Definition node_start_byte (n : Node) : nat :=
  let '(mkNode _ s _ _ _ _) := n in s.
Definition node_end_byte (n : Node) : nat :=
  let '(mkNode _ _ e _ _ _) := n in e.
Definition node_start_point (n : Node) : point :=
  let '(mkNode _ _ _ s _ _) := n in s.
Definition node_end_point (n : Node) : point :=
  let '(mkNode _ _ _ _ e _) := n in e.
Definition node_children (n : Node) : list Node :=
  let '(mkNode _ _ _ _ _ cs) := n in cs.


(** A directory as [os.walk] sees it: named sub-directories and file names. *)
Local Unset Elimination Schemes.
Inductive DirTree : Type :=
  Dir (subdirs : list (string * DirTree)) (files : list string).
Local Set Elimination Schemes.

(** ** Data model *)

(** A symbol: [{"name", "start_point", "end_point", "llm_hint"}]. *)
Record Symbol : Type := mkSymbol {
  sym_name : string;
  sym_start_point : point;
  sym_end_point : point;
  sym_llm_hint : string
}.

(** [nx.node_link_data(graph, edges="links")] of a graph without edges: the
    nodes in insertion order, each with its [start] and [end] attributes. *)
Record GraphNode : Type := mkGraphNode {
  gn_id : string;
  gn_start : point;
  gn_end : point
}.

(** The value of ["ast_analysis"]: [{"error": msg}], or
    [{"functions": .., "classes": ..}] with ["dependency_graph"] once
    [analyze_file] has added it. *)
Inductive AstAnalysis : Type :=
  | AstError (error : string)
  | AstSymbols (functions classes : list Symbol)
               (dependency_graph : option (list GraphNode)).

(** The value of ["tokenization"]. *)
Inductive Tokenization : Type :=
  | TokError (error : string)
  | Tokens (tokens : list Z) (token_count : nat) (tokenized_text : string).

(** A file record, the dictionary [file_info] of [get_file_info]. The key
    ["ast_analysis"] is absent when [ast_analysis] is [None]. *)
Record FileRecord : Type := mkFileRecord {
  relative_path : string;
  filename : string;
  extension : string;
  size_bytes : nat;
  full_content : string;
  tokenization : Tokenization;
  llm_hint : string;
  ast_analysis : option AstAnalysis
}.

(** A scan result. [directory_structure] is a dictionary from directory to
    file names, in insertion order. *)
Record ScanResult : Type := mkScanResult {
  repository_path : string;
  total_files : nat;
  total_size_bytes : nat;
  files : list FileRecord;
  directory_structure : list (string * list string)
}.

Inductive ChunkType : Type := TFunction | TClass | TFile.

(** Chunk metadata: [{"file", "path", "type"}] and, for symbols, ["name"]. *)
Record Metadata : Type := mkMetadata {
  meta_file : string;
  meta_path : string;
  meta_type : ChunkType;
  meta_name : option string
}.

Record Chunk : Type := mkChunk {
  source : string;
  metadata : Metadata
}.

(** ** Capabilities *)

(** What the program asks of its environment. A call that can raise returns
    [exc]. *)
Class World : Type := {
  (** [os.path.getsize] *)
  getsize : string -> exc nat;
  (** [open(p, "r", encoding="utf8", errors="replace").read()]: the decoded
      text, and whether the decoder met undecodable bytes and replaced them *)
  open_read : string -> exc (string * bool);
  (** [os.path.relpath(path, start)] and [os.path.abspath] *)
  relpath : string -> string -> string;
  abspath : string -> string;
  isdir : string -> bool;
  isfile : string -> bool;
  (** [os.listdir] *)
  listdir : string -> exc (list string);
  (** the directory tree below a path, for [os.walk] *)
  fs_tree : string -> DirTree;
  (** [tiktoken.get_encoding("cl100k_base")], [encode] and [decode] *)
  get_encoding : exc unit;
  tiktoken_encode : string -> exc (list Z);
  tiktoken_decode : list Z -> exc string;
  (** [parser_py.parse]; [parser_js] is [None] when the JavaScript grammar
      failed to load *)
  parser_py : string -> exc Node;
  parser_js : option (string -> exc Node);
  (** [fnmatch.fnmatch(name, pattern)] *)
  fnmatch : string -> string -> bool;
  (** [as_completed]: the results of the submitted calls in completion order *)
  as_completed : list (exc FileRecord) -> list (exc FileRecord)
}.

(** ** project_detector.py *)

(** [any(f in files for f in (...))] then ["package.json" in files]. *)
Definition classify_listing (files : list string) : string :=
  if existsb (fun f => mem f files) ["requirements.txt"; "setup.py"; "pyproject.toml"]
  then "python_backend"
  else if mem "package.json" files then "frontend"
  else "generic".

Definition detect_project_type `{World} (repo_path : string) : exc string :=
  files ← listdir repo_path;
  mret (classify_listing files).

(** ** ast_analyzer.py *)

(** [for child in node.children: if child.type == "identifier": ...; break] *)
Definition first_identifier (n : Node) : option Node :=
  List.find (fun child => String.eqb (node_type child) "identifier") (node_children n).

(** The dictionary appended for a definition node [n] named by [child]. *)
Definition symbol_of (byte_content : string) (hint : string -> string)
    (llm_hunt : bool) (n child : Node) : Symbol :=
  let name := slice byte_content (node_start_byte child) (node_end_byte child) in
  {| sym_name := name;
     sym_start_point := node_start_point n;
     sym_end_point := node_end_point n;
     sym_llm_hint := if llm_hunt then hint name else "" |}.

(** The two lists [functions] and [classes] that [traverse] appends to. *)
Definition symtab : Type := list Symbol * list Symbol.

(** The grammar rules and hint sentences of one language. *)
Record Grammar : Type := mkGrammar {
  function_rule : string;
  class_rule : string;
  function_hint : string -> string;
  class_hint : string -> string
}.

(** The body of [traverse] before it descends into the children. *)
Definition visit (g : Grammar) (byte_content : string) (llm_hunt : bool)
    (n : Node) (st : symtab) : symtab :=
  if String.eqb (node_type n) (function_rule g) then
    match first_identifier n with
    | Some child =>
        (st.1 ++ [symbol_of byte_content (function_hint g) llm_hunt n child], st.2)
    | None => st
    end
  else if String.eqb (node_type n) (class_rule g) then
    match first_identifier n with
    | Some child =>
        (st.1, st.2 ++ [symbol_of byte_content (class_hint g) llm_hunt n child])
    | None => st
    end
  else st.

(** [traverse(node)]: visit the node, then each child in order. *)
Fixpoint traverse (g : Grammar) (byte_content : string) (llm_hunt : bool)
    (n : Node) (st : symtab) : symtab :=
  let st1 := visit g byte_content llm_hunt n st in
  (fix each (cs : list Node) (st : symtab) : symtab :=
     match cs with
     | [] => st
     | c :: cs' => each cs' (traverse g byte_content llm_hunt c st)
     end) (node_children n) st1.

Definition python_grammar : Grammar :=
  {| function_rule := "function_definition";
     class_rule := "class_definition";
     function_hint := fun name =>
       "Examine the function '" +:+ name +:+ "' to determine its role and business logic.";
     class_hint := fun name =>
       "Analyze the class '" +:+ name +:+ "' to understand its methods and responsibilities." |}.

Definition javascript_grammar : Grammar :=
  {| function_rule := "function_declaration";
     class_rule := "class_declaration";
     function_hint := fun name =>
       "Inspect the JavaScript function '" +:+ name +:+ "' to understand its functionality.";
     class_hint := fun name =>
       "Examine the JavaScript class '" +:+ name +:+ "' for its properties and methods." |}.

Definition analyze_python_file_treesitter `{World} (content : string)
    (llm_hunt : bool) : AstAnalysis :=
  match parser_py content with
  | Raise e => AstError ("Tree-sitter parse error: " +:+ str_exn e)
  | Ok root_node =>
      let st := traverse python_grammar content llm_hunt root_node ([], []) in
      AstSymbols st.1 st.2 None
  end.

Definition analyze_javascript_file_treesitter `{World} (content : string)
    (llm_hunt : bool) : AstAnalysis :=
  match parser_js with
  | None => AstError "JavaScript parser is not available."
  | Some parse =>
      match parse content with
      | Raise e => AstError ("Tree-sitter parse error: " +:+ str_exn e)
      | Ok root_node =>
          let st := traverse javascript_grammar content llm_hunt root_node ([], []) in
          AstSymbols st.1 st.2 None
      end
  end.

(** [graph.add_node(name, start=.., end=..)]: a new node goes last, a known
    one keeps its place and takes the new attributes. *)
Fixpoint add_node (graph : list GraphNode) (n : GraphNode) : list GraphNode :=
  match graph with
  | [] => [n]
  | m :: graph' =>
      if String.eqb (gn_id m) (gn_id n) then n :: graph' else m :: add_node graph' n
  end.

Definition generate_dependency_graph (functions : list Symbol) : list GraphNode :=
  foldl (fun graph func =>
           add_node graph {| gn_id := sym_name func;
                             gn_start := sym_start_point func;
                             gn_end := sym_end_point func |})
        [] functions.

(** [if "functions" in analysis: analysis["dependency_graph"] = ...] *)
Definition with_dependency_graph (analysis : AstAnalysis) : AstAnalysis :=
  match analysis with
  | AstSymbols functions classes _ =>
      AstSymbols functions classes (Some (generate_dependency_graph functions))
  | AstError _ => analysis
  end.

Definition analyze_file `{World} (content : string) (language : string)
    (llm_hunt : bool) : AstAnalysis :=
  if String.eqb (lower language) "python" then
    with_dependency_graph (analyze_python_file_treesitter content llm_hunt)
  else if String.eqb (lower language) "javascript" then
    with_dependency_graph (analyze_javascript_file_treesitter content llm_hunt)
  else
    AstError ("AST analysis for language '" +:+ language +:+ "' is not supported yet.").

(** ** config.py *)

Definition SENSITIVE_FILES : list string := [".env"; ".env.local"; ".env.production"].
Definition DEFAULT_IGNORE_FILES : list string := ["LICENSE.md"; "PRIVACY.md"].
Definition DEFAULT_INCLUDE_EXTENSIONS : list string := [].
Definition DEFAULT_PROJECT_TYPE : string := "generic".

(** ** file_scanner.py *)

Definition get_project_specific_ignore_extensions (project_type : string) : list string :=
  if String.eqb project_type "python_backend" then [".pyc"; ".pyo"; ".pyd"; ".so"]
  else if String.eqb project_type "typescript" then [".d.ts"]
  else if String.eqb project_type "javascript" then []
  else [].

(** The [try] block of [tokenize_content]. *)
Definition tokenize_attempt `{World} (content : string) : exc Tokenization :=
  _ ← get_encoding;
  token_ids ← tiktoken_encode content;
  tokenized_text ← tiktoken_decode token_ids;
  mret (Tokens token_ids (length token_ids) tokenized_text).

Definition tokenize_content `{World} (content : string) : Tokenization :=
  try_except (tokenize_attempt content) (fun e => TokError (str_exn e)).

(** [os.path.splitext(file_path)[1].lower()] *)
Definition ext_of (file_path : string) : string :=
  lower (PosixPath.splitext_ext file_path).

Definition JS_TS_EXTENSIONS : list string := [".js"; ".jsx"; ".ts"; ".tsx"].

(** The test [project_type == "python_backend" and ext == ".py"]. *)
Definition qualifies_python (project_type ext : string) : bool :=
  String.eqb project_type "python_backend" && String.eqb ext ".py".

(** The test [project_type in {"javascript", "typescript"} and ext in {...}]. *)
Definition qualifies_javascript (project_type ext : string) : bool :=
  mem project_type ["javascript"; "typescript"] && mem ext JS_TS_EXTENSIONS.

(** The marker stored as content when the file cannot be read. *)
Definition read_error_marker (e : pyexn) : string :=
  "<<Error reading file: " +:+ str_exn e +:+ ">>".

(** [get_file_info(file_path, base_path, project_type, language, llm_hint)].
    The parameter [language] is never read. *)
Definition get_file_info `{World} (file_path base_path project_type language : string)
    (llm_hint : bool) : FileRecord :=
  let rel_path := relpath file_path base_path in
  let filename := PosixPath.basename file_path in
  let ext := str_or (ext_of file_path) "none" in
  let size := try_except (getsize file_path) (fun _ => 0) in
  let content := try_except (r ← open_read file_path; mret r.1) read_error_marker in
  let tokenized := tokenize_content content in
  let file_hint :=
    "This file '" +:+ filename +:+ "' of type '" +:+ ext +:+ "' contains source code. " in
  let file_hint :=
    if qualifies_python project_type ext then
      file_hint +:+ "Focus on its function and class definitions to extract business logic."
    else if qualifies_javascript project_type ext then
      file_hint +:+ "Analyze JavaScript/TypeScript constructs for behavior and dependencies."
    else file_hint in
  let file_hint := file_hint +:+ " Full content is provided for detailed analysis." in
  {| relative_path := rel_path;
     filename := filename;
     extension := ext;
     size_bytes := size;
     full_content := content;
     tokenization := tokenized;
     llm_hint := if llm_hint then file_hint else "";
     ast_analysis :=
       if qualifies_python project_type ext then
         Some (analyze_file content "python" llm_hint)
       else if qualifies_javascript project_type ext then
         Some (analyze_file content "javascript" llm_hint)
       else None |}.

(** [os.walk(repo_path)] with the pruning [dirs[:] = [d for d in dirs if not
    ignore_spec.match_file(os.path.join(rel_root, d))]]: the files of a
    directory, then the kept sub-directories in order. *)
Fixpoint walk_files `{World} (ignore_spec : string -> bool) (repo_path root : string)
    (t : DirTree) : list string :=
  let '(Dir subdirs fs) := t in
  let rel_root := relpath root repo_path in
  map (PosixPath.join root) fs ++
  (fix each (ds : list (string * DirTree)) : list string :=
     match ds with
     | [] => []
     | (d, t') :: ds' =>
         (if ignore_spec (PosixPath.join rel_root d) then []
          else walk_files ignore_spec repo_path (PosixPath.join root d) t')
         ++ each ds'
     end) subdirs.

(** What the submission loop of [scan_repository] does with one candidate:
    the filter that rejected it (the debug line it logs), or the submission
    to the executor. *)
Inductive Verdict : Type :=
  | IgnoredByGitignore
  | IgnoredByCliPattern (pattern : string)
  | IgnoredSensitive
  | IgnoredProjectExtension (ext : string)
  | ExcludedByIncludeExtensions
  | Submitted.

Definition filter_candidate `{World} (repo_path : string) (ignore_spec : string -> bool)
    (ignore_patterns include_extensions project_ignore_ext : list string)
    (file_path : string) : Verdict :=
  let rel := relpath file_path repo_path in
  if ignore_spec rel then IgnoredByGitignore
  else
    match List.find (fun pattern => fnmatch (PosixPath.basename file_path) pattern)
                    ignore_patterns with
    | Some pattern => IgnoredByCliPattern pattern
    | None =>
        if mem (PosixPath.basename file_path) SENSITIVE_FILES then IgnoredSensitive
        else
          let ext := ext_of file_path in
          if mem ext project_ignore_ext then IgnoredProjectExtension ext
          else if negb (bool_decide (include_extensions = [])) && negb (mem ext include_extensions)
               then ExcludedByIncludeExtensions
               else Submitted
    end.

Definition is_submitted (v : Verdict) : bool :=
  match v with Submitted => true | _ => false end.

(** [directory_structure[key].append(v)] on a [defaultdict(list)]. *)
Fixpoint dict_append (d : list (string * list string)) (key v : string)
    : list (string * list string) :=
  match d with
  | [] => [(key, [v])]
  | (k, vs) :: d' =>
      if String.eqb k key then (k, vs ++ [v]) :: d' else (k, vs) :: dict_append d' key v
  end.

(** The accumulators of the collection loop. *)
Record ScanAcc : Type := mkScanAcc {
  acc_repo_files : list FileRecord;
  acc_directory_structure : list (string * list string);
  acc_total_size : nat;
  acc_total_files : nat
}.

Definition empty_acc : ScanAcc := mkScanAcc [] [] 0 0.

(** One round of [for future in as_completed(...)]: a result is recorded, an
    exception is logged and the file dropped. *)
Definition collect_one (acc : ScanAcc) (result : exc FileRecord) : ScanAcc :=
  match result with
  | Ok file_info =>
      {| acc_repo_files := acc_repo_files acc ++ [file_info];
         acc_total_files := acc_total_files acc + 1;
         acc_total_size := acc_total_size acc + size_bytes file_info;
         acc_directory_structure :=
           dict_append (acc_directory_structure acc)
                       (PosixPath.dirname (relative_path file_info))
                       (filename file_info) |}
  | Raise _ => acc
  end.

Definition collect (completed : list (exc FileRecord)) : ScanAcc :=
  foldl collect_one empty_acc completed.

(** The candidates that pass every filter, in submission order. *)
Definition submitted_files `{World} (repo_path : string) (ignore_spec : string -> bool)
    (ignore_patterns include_extensions : list string) (project_type : string)
    (all_files : list string) : list string :=
  List.filter
    (fun file_path =>
       is_submitted (filter_candidate repo_path ignore_spec ignore_patterns
                       include_extensions
                       (get_project_specific_ignore_extensions project_type) file_path))
    all_files.

(** The scan of a candidate list: submission, then collection in completion
    order. *)
Definition scan_candidates `{World} (repo_path : string) (ignore_spec : string -> bool)
    (ignore_patterns include_extensions : list string) (project_type : string)
    (llm_hunt : bool) (all_files : list string) : ScanResult :=
  let futures :=
    map (fun file_path => Ok (get_file_info file_path repo_path project_type "python" llm_hunt))
        (submitted_files repo_path ignore_spec ignore_patterns include_extensions
                         project_type all_files) in
  let acc := collect (as_completed futures) in
  {| repository_path := abspath repo_path;
     total_files := acc_total_files acc;
     total_size_bytes := acc_total_size acc;
     files := acc_repo_files acc;
     directory_structure := acc_directory_structure acc |}.

Definition scan_repository `{World} (repo_path : string) (ignore_spec : string -> bool)
    (ignore_patterns include_extensions : list string) (project_type : string)
    (llm_hunt : bool) : ScanResult :=
  scan_candidates repo_path ignore_spec ignore_patterns include_extensions project_type
    llm_hunt (walk_files ignore_spec repo_path repo_path (fs_tree repo_path)).

(** The cache file [.repo_scan_cache.pkl]. *)
Inductive CacheFile : Type :=
  | CacheMissing
  | CacheUnreadable
  | CacheHolds (data : ScanResult).

Record Disk : Type := mkDisk {
  cache_file : CacheFile;
  cache_writable : bool
}.

Definition load_cache (d : Disk) : option ScanResult :=
  match cache_file d with
  | CacheHolds data => Some data
  | CacheMissing | CacheUnreadable => None
  end.

(** [save_cache(data)]: a failure to write is logged and otherwise ignored. *)
Definition save_cache (data : ScanResult) (d : Disk) : Disk :=
  if cache_writable d then {| cache_file := CacheHolds data; cache_writable := true |}
  else d.

(** ** tree_generator.py *)

Fixpoint insert_sorted (x : string) (l : list string) : list string :=
  match l with
  | [] => [x]
  | y :: l' => if String.leb x y then x :: l else y :: insert_sorted x l'
  end.

(** [sorted(l)] on strings *)
Definition sorted (l : list string) : list string := foldr insert_sorted [] l.

(** [d[key]] for a key of [d] *)
Definition dict_get (d : list (string * list string)) (key : string) : list string :=
  match List.find (fun kv => String.eqb kv.1 key) d with
  | Some kv => kv.2
  | None => []
  end.

Definition create_tree_structure (directory_structure : list (string * list string))
    (base_path : string) : string :=
  let tree_lines :=
    foldl (fun tree_lines dir_path =>
             let tree_lines :=
               tree_lines ++ [if String.eqb dir_path "." then base_path else dir_path] in
             let tree_lines :=
               foldl (fun tree_lines filename => tree_lines ++ ["├── " +:+ filename])
                     tree_lines (sorted (dict_get directory_structure dir_path)) in
             tree_lines ++ [""])
          [] (sorted (map fst directory_structure)) in
  String.concat (String (ascii_of_nat 10) "") tree_lines.

(** ** main.py *)

(** [ds[key].extend(files)] on a [defaultdict(list)]. *)
Fixpoint dict_extend (d : list (string * list string)) (key : string) (vs : list string)
    : list (string * list string) :=
  match d with
  | [] => [(key, vs)]
  | (k, ws) :: d' =>
      if String.eqb k key then (k, ws ++ vs) :: d' else (k, ws) :: dict_extend d' key vs
  end.

Definition combine_results (results_list : list ScanResult) : ScanResult :=
  foldl (fun combined res =>
           {| repository_path := repository_path combined;
              total_files := total_files combined + total_files res;
              total_size_bytes := total_size_bytes combined + total_size_bytes res;
              files := files combined ++ files res;
              directory_structure :=
                foldl (fun ds kv => dict_extend ds kv.1 kv.2)
                      (directory_structure combined) (directory_structure res) |})
        {| repository_path := "Multiple Sources";
           total_files := 0;
           total_size_bytes := 0;
           files := [];
           directory_structure := [] |}
        results_list.

(** [ast_data.get("functions", [])] and [ast_data.get("classes", [])] of
    [file.get("ast_analysis", {})]. *)
Definition ast_functions (file : FileRecord) : list Symbol :=
  match ast_analysis file with
  | Some (AstSymbols functions _ _) => functions
  | _ => []
  end.

Definition ast_classes (file : FileRecord) : list Symbol :=
  match ast_analysis file with
  | Some (AstSymbols _ classes _) => classes
  | _ => []
  end.

Definition function_chunk (file : FileRecord) (func : Symbol) : Chunk :=
  {| source := str_or (sym_llm_hint func)
                 ("Function " +:+ sym_name func +:+ " in " +:+ filename file);
     metadata := {| meta_file := filename file; meta_path := relative_path file;
                    meta_type := TFunction; meta_name := Some (sym_name func) |} |}.

Definition class_chunk (file : FileRecord) (cls : Symbol) : Chunk :=
  {| source := str_or (sym_llm_hint cls)
                 ("Class " +:+ sym_name cls +:+ " in " +:+ filename file);
     metadata := {| meta_file := filename file; meta_path := relative_path file;
                    meta_type := TClass; meta_name := Some (sym_name cls) |} |}.

Definition file_chunk (file : FileRecord) : Chunk :=
  {| source := str_or (llm_hint file) (full_content file);
     metadata := {| meta_file := filename file; meta_path := relative_path file;
                    meta_type := TFile; meta_name := None |} |}.

(** The body of [for file in files], appending to [chunks]. *)
Definition extract_file (chunks : list Chunk) (file : FileRecord) : list Chunk :=
  let chunks := foldl (fun chunks func => chunks ++ [function_chunk file func])
                      chunks (ast_functions file) in
  let chunks := foldl (fun chunks cls => chunks ++ [class_chunk file cls])
                      chunks (ast_classes file) in
  chunks ++ [file_chunk file].

Definition extract_texts_for_embedding (files : list FileRecord) : list Chunk :=
  foldl extract_file [] files.

(** The embedding model and the clustering, [embedding_generator.py]'s
    collaborators: [model.encode(texts)] (with the model's loading) and
    [KMeans(n_clusters, random_state=42).fit_predict(embeddings)]. *)
Class Models : Type := {
  Vec : Type;
  model_encode : list string -> exc (list Vec);
  kmeans_fit_predict : list Vec -> Z -> exc (list Z)
}.

(** [clusters.setdefault(label, []).append(idx)] *)
Fixpoint setdefault_append (clusters : list (Z * list nat)) (label : Z) (idx : nat)
    : list (Z * list nat) :=
  match clusters with
  | [] => [(label, [idx])]
  | (l, idxs) :: clusters' =>
      if Z.eqb l label then (l, idxs ++ [idx]) :: clusters'
      else (l, idxs) :: setdefault_append clusters' label idx
  end.

Definition cluster_embeddings `{Models} (embeddings : list Vec) (num_clusters : Z)
    : exc (list (Z * list nat)) :=
  cluster_labels ← kmeans_fit_predict embeddings num_clusters;
  mret (foldl (fun clusters il => setdefault_append clusters il.2 il.1)
              [] (imap (fun idx label => (idx, label)) cluster_labels)).

(** One entry of ["granular_embeddings"]. *)
Record Granular `{Models} : Type := mkGranular {
  g_source : string;
  g_metadata : Metadata;
  g_embedding : Vec;
  g_cluster : option Z
}.

(** [for label, indices in clusters.items(): for idx in indices:
    cluster_assignment[idx] = label] *)
Definition assign_clusters (clusters : list (Z * list nat))
    (cluster_assignment : list (option Z)) : exc (list (option Z)) :=
  foldl (fun acc li =>
           foldl (fun acc idx => a ← acc; list_set a idx (Some li.1)) acc li.2)
        (Ok cluster_assignment) clusters.

(** [for i, chunk in enumerate(text_chunks): granular_embeddings.append(...)],
    from index [i] on. *)
Fixpoint build_granular `{Models} (i : nat) (text_chunks : list Chunk)
    (embeddings : list Vec) (cluster_assignment : list (option Z))
    (granular_embeddings : list Granular) : exc (list Granular) :=
  match text_chunks with
  | [] => Ok granular_embeddings
  | chunk :: rest =>
      embedding ← list_get embeddings i;
      cluster ← list_get cluster_assignment i;
      build_granular (S i) rest embeddings cluster_assignment
        (granular_embeddings ++
           [{| g_source := source chunk; g_metadata := metadata chunk;
               g_embedding := embedding; g_cluster := cluster |}])
  end.

(** [[chunk["source"] for chunk in text_chunks if chunk["source"].strip()]] *)
Definition texts_for_embedding (text_chunks : list Chunk) : list string :=
  map source (List.filter (fun chunk => negb (is_blank (source chunk))) text_chunks).

(** The embedding block of [main] on a chunk list: [None] when no text
    survives, else the content written to [embeddings.json]. *)
Definition embed_chunks `{Models} (num_clusters : Z) (text_chunks : list Chunk)
    : exc (option (list Granular)) :=
  let texts := texts_for_embedding text_chunks in
  if bool_decide (texts = []) then Ok None
  else
    embeddings ← model_encode texts;
    clusters ← cluster_embeddings embeddings num_clusters;
    cluster_assignment ← assign_clusters clusters (replicate (length texts) None);
    granular_embeddings ← build_granular 0 text_chunks embeddings cluster_assignment [];
    mret (Some granular_embeddings).

Definition embedding_block `{Models} (num_clusters : Z) (files : list FileRecord)
    : exc (option (list Granular)) :=
  embed_chunks num_clusters (extract_texts_for_embedding files).

(** The parsed command line. *)
Record Args : Type := mkArgs {
  arg_project_type : string;
  arg_ignore_files : list string;
  arg_ignore : list string;
  arg_include_extensions : list string;
  arg_no_cache : bool;
  arg_llm_hint : bool;
  arg_cluster : Z;
  arg_no_embeddings : bool
}.

(** Where the result of a directory source came from. *)
Inductive Origin : Type := FromCache | FromScan.

(** The directory branch of the loop over [source_paths]: the cached result
    when [cache_data and cache_data.get("repository_path") ==
    os.path.abspath(path)], else a scan whose result is saved. *)
Definition scan_directory `{World} (args : Args) (ignore_spec : string -> bool)
    (combined_ignore : list string) (project_type : string) (disk : Disk)
    (path : string) : ScanResult * Disk * Origin :=
  let cache_data := if arg_no_cache args then None else load_cache disk in
  match cache_data with
  | Some data =>
      if String.eqb (repository_path data) (abspath path) then (data, disk, FromCache)
      else
        let res := scan_repository path ignore_spec combined_ignore
                     (arg_include_extensions args) project_type (arg_llm_hint args) in
        (res, save_cache res disk, FromScan)
  | None =>
      let res := scan_repository path ignore_spec combined_ignore
                   (arg_include_extensions args) project_type (arg_llm_hint args) in
      (res, save_cache res disk, FromScan)
  end.

(** The file branch: the dictionary literal evaluates [os.path.getsize(path)]
    and then calls [get_file_info(..., llm_hunt=...)], a keyword
    [get_file_info] does not have. *)
Definition scan_single_file `{World} (path : string) : exc ScanResult :=
  _ ← getsize path;
  Raise (TypeError "get_file_info() got an unexpected keyword argument 'llm_hunt'").

(** [for path in source_paths], threading the results and the cache file. *)
Fixpoint scan_sources `{World} (args : Args) (ignore_spec : string -> bool)
    (combined_ignore : list string) (project_type : string)
    (source_paths : list string) (scan_results : list ScanResult) (disk : Disk)
    : exc (list ScanResult * Disk) :=
  match source_paths with
  | [] => Ok (scan_results, disk)
  | path :: rest =>
      if isdir path then
        let '(res, disk', _) :=
          scan_directory args ignore_spec combined_ignore project_type disk path in
        scan_sources args ignore_spec combined_ignore project_type rest
          (scan_results ++ [res]) disk'
      else if isfile path then
        res ← scan_single_file path;
        scan_sources args ignore_spec combined_ignore project_type rest
          (scan_results ++ [res]) disk
      else
        scan_sources args ignore_spec combined_ignore project_type rest scan_results disk
  end.

Record RepositoryMetadata : Type := mkRepositoryMetadata {
  rm_repository_path : string;
  rm_total_files : nat;
  rm_total_size_bytes : nat
}.

(** The document [main] prints. The key ["pipeline_definition"], copied from
    [pipeline_generator.py], is left out. *)
Record Output : Type := mkOutput {
  out_repository_metadata : RepositoryMetadata;
  out_project_tree : string;
  out_directory_structure : list (string * list string);
  out_files : list FileRecord;
  out_embeddings_file : option string
}.

Definition build_output (combined_result : ScanResult) (project_tree : string)
    (embeddings_output_ref : option string) : Output :=
  {| out_repository_metadata :=
       {| rm_repository_path := repository_path combined_result;
          rm_total_files := total_files combined_result;
          rm_total_size_bytes := total_size_bytes combined_result |};
     out_project_tree := project_tree;
     out_directory_structure := directory_structure combined_result;
     out_files := files combined_result;
     out_embeddings_file := embeddings_output_ref |}.

(** [main] from the expanded source paths on. [load_gitignore] is the
    compiled ignore specification of a directory. *)
Definition main `{World} `{Models} (load_gitignore : string -> string -> bool)
    (args : Args) (source_paths : list string) (disk : Disk) : exc (Output * Disk) :=
  match source_paths with
  | [] => Raise (SystemExit 1)
  | first :: _ =>
      project_type ←
        (if negb (String.eqb (arg_project_type args) DEFAULT_PROJECT_TYPE)
         then Ok (arg_project_type args)
         else match List.find isdir source_paths with
              | Some first_dir => detect_project_type first_dir
              | None => Ok "generic"
              end);
      let first_dir := default (PosixPath.dirname first) (List.find isdir source_paths) in
      let ignore_spec := load_gitignore first_dir in
      let combined_ignore := arg_ignore_files args ++ arg_ignore args in
      scanned ← scan_sources args ignore_spec combined_ignore project_type source_paths [] disk;
      let combined_result := combine_results scanned.1 in
      let project_tree :=
        create_tree_structure (directory_structure combined_result)
                              (repository_path combined_result) in
      embeddings_output_ref ←
        (if arg_no_embeddings args then Ok None
         else
           granular ← embedding_block (arg_cluster args) (files combined_result);
           mret (match granular with Some _ => Some "embeddings.json" | None => None end));
      mret (build_output combined_result project_tree embeddings_output_ref, scanned.2)
  end.

(** ** ignore_patterns.py *)

Definition DEFAULT_IGNORE_PATTERNS : list string :=
  [ "*.pyc"; "*.pyo"; "*.pyd"; "__pycache__"; ".pytest_cache"; ".coverage"; ".tox"; ".nox";
    ".mypy_cache"; ".ruff_cache"; ".hypothesis"; "poetry.lock"; "Pipfile.lock";
    "node_modules"; "bower_components"; "package-lock.json"; "yarn.lock"; ".npm"; ".yarn";
    ".pnpm-store"; "bun.lock"; "bun.lockb";
    "*.class"; "*.jar"; "*.war"; "*.ear"; "*.nar"; ".gradle/"; "build/"; ".settings/";
    ".classpath";
    ".idea"; ".vscode"; "*.swp"; "*.swo";
    ".git"; ".svn"; ".hg"; ".gitignore"; ".gitattributes"; ".gitmodules";
    "venv"; ".venv"; "env"; ".env"; "virtualenv";
    "*.log"; "*.bak"; "*.tmp"; ".DS_Store"; "Thumbs.db"; "desktop.ini";
    "dist"; "target"; "out"; "*.egg-info"; "*.egg" ].

(** ** file_scanner.py: the ignore patterns *)

(** [f.readlines()] on the text of a file: the lines, each with its line
    feed (the text mode has already translated the other line ends). *)
Fixpoint readlines (text : string) : list string :=
  match text with
  | EmptyString => []
  | String c text' =>
      if Ascii.eqb c (ascii_of_nat 10) then String c EmptyString :: readlines text'
      else match readlines text' with
           | [] => [String c EmptyString]
           | line :: lines => String c line :: lines
           end
  end.

(** [[line.strip() for line in lines if line.strip() and not
    line.strip().startswith("#")]] *)
Definition pattern_lines (lines : list string) : list string :=
  map strip
      (List.filter (fun line => truthy (strip line) && negb (String.prefix "#" (strip line)))
                   lines).

(** The list [patterns] of [load_gitignore]: empty when there is no
    [.gitignore] or it cannot be read. *)
Definition gitignore_file_patterns `{World} (repo_path : string) : list string :=
  let gitignore_path := PosixPath.join repo_path ".gitignore" in
  if isfile gitignore_path then
    try_except (r ← open_read gitignore_path; mret (pattern_lines (readlines r.1)))
               (fun _ => [])
  else [].

(** [set(patterns) | DEFAULT_IGNORE_PATTERNS | DEFAULT_IGNORE_FILES] *)
Definition combined_patterns `{World} (repo_path : string) : gset string :=
  list_to_set (gitignore_file_patterns repo_path)
  ∪ list_to_set DEFAULT_IGNORE_PATTERNS ∪ list_to_set DEFAULT_IGNORE_FILES.

(** [load_gitignore(repo_path)]; [from_lines] is
    [pathspec.PathSpec.from_lines("gitwildmatch", _)] followed by
    [match_file]. *)
Definition load_gitignore `{World} (from_lines : gset string -> string -> bool)
    (repo_path : string) : string -> bool :=
  from_lines (combined_patterns repo_path).

(** ** Specification-side definitions *)

(** Pre-order listing of a syntax tree. *)
Fixpoint preorder (n : Node) : list Node :=
  n :: (fix each (cs : list Node) : list Node :=
          match cs with
          | [] => []
          | c :: cs' => preorder c ++ each cs'
          end) (node_children n).

(** What [visit] appends to one of its two lists for a single node, read
    off the code; [traverse] is related to the specification through it. *)
Definition definition_symbols (rule : string) (hint : string -> string)
    (byte_content : string) (llm_hunt : bool) (n : Node) : list Symbol :=
  if String.eqb (node_type n) rule then
    match first_identifier n with
    | Some child =>
        [ {| sym_name := slice byte_content (node_start_byte child) (node_end_byte child);
             sym_start_point := node_start_point n;
             sym_end_point := node_end_point n;
             sym_llm_hint :=
               if llm_hunt
               then hint (slice byte_content (node_start_byte child) (node_end_byte child))
               else "" |} ]
    | None => []
    end
  else [].

(** [child] is the first child of identifier type among [children]: it has
    that type and no child before it has. *)
Inductive first_identifier_child : list Node -> Node -> Prop :=
  | first_identifier_here (child : Node) (rest : list Node) :
      node_type child = "identifier" ->
      first_identifier_child (child :: rest) child
  | first_identifier_later (c : Node) (rest : list Node) (child : Node) :
      node_type c <> "identifier" ->
      first_identifier_child rest child ->
      first_identifier_child (c :: rest) child.

(** The symbol [sym] is the one the specification asks for the node [n] named
    by its child [child]: the name is the text of the child, the positions
    are those of the node. *)
Definition names_node (byte_content : string) (n child : Node) (sym : Symbol) : Prop :=
  sym_name sym = slice byte_content (node_start_byte child) (node_end_byte child)
  /\ sym_start_point sym = node_start_point n
  /\ sym_end_point sym = node_end_point n.

(** The symbols the specification asks for a grammar rule over a list of
    nodes, in the order of the nodes: a node of another type gives none, a
    node of the rule without an identifier child gives none, a node of the
    rule with an identifier child gives one, named by the first such child. *)
Inductive rule_symbols (rule : string) (byte_content : string) :
    list Node -> list Symbol -> Prop :=
  | rule_symbols_nil : rule_symbols rule byte_content [] []
  | rule_symbols_other (n : Node) (nodes : list Node) (syms : list Symbol) :
      node_type n <> rule ->
      rule_symbols rule byte_content nodes syms ->
      rule_symbols rule byte_content (n :: nodes) syms
  | rule_symbols_unnamed (n : Node) (nodes : list Node) (syms : list Symbol) :
      node_type n = rule ->
      Forall (fun c => node_type c <> "identifier") (node_children n) ->
      rule_symbols rule byte_content nodes syms ->
      rule_symbols rule byte_content (n :: nodes) syms
  | rule_symbols_named (n child : Node) (sym : Symbol) (nodes : list Node)
      (syms : list Symbol) :
      node_type n = rule ->
      first_identifier_child (node_children n) child ->
      names_node byte_content n child sym ->
      rule_symbols rule byte_content nodes syms ->
      rule_symbols rule byte_content (n :: nodes) (sym :: syms).

(** The list [syms] is what the specification asks for a grammar rule on the
    syntax tree [root]: it lists the symbols of the rule over the nodes in
    pre-order; every node of the rule with an identifier child has its
    symbol in the list, and every symbol of the list is the symbol of such a
    node. *)
Definition extracted_as_specified (rule : string) (byte_content : string) (root : Node)
    (syms : list Symbol) : Prop :=
  rule_symbols rule byte_content (preorder root) syms
  /\ (forall n child,
        In n (preorder root) -> node_type n = rule ->
        first_identifier_child (node_children n) child ->
        exists sym, In sym syms /\ names_node byte_content n child sym)
  /\ (forall sym,
        In sym syms ->
        exists n child,
          In n (preorder root) /\ node_type n = rule
          /\ first_identifier_child (node_children n) child
          /\ names_node byte_content n child sym).

(** The chunks of one file as the specification lists them: functions, then
    classes, then the file-level fallback. *)
Definition chunks_of_file (file : FileRecord) : list Chunk :=
  map (function_chunk file) (ast_functions file)
  ++ map (class_chunk file) (ast_classes file)
  ++ [file_chunk file].

(** The text of a symbol chunk in the specification's words: the hint if it
    is not empty, else a sentence naming the symbol and its file. *)
Definition symbol_text (kind : string) (sym : Symbol) (file : FileRecord) : string :=
  match sym_llm_hint sym with
  | EmptyString => kind +:+ " " +:+ sym_name sym +:+ " in " +:+ filename file
  | hint => hint
  end.

(** The text of the file-level chunk in the specification's words. *)
Definition file_text (file : FileRecord) : string :=
  match llm_hint file with
  | EmptyString => full_content file
  | hint => hint
  end.

(** The totals of a scan result agree with its file list. *)
Definition totals_agree (r : ScanResult) : Prop :=
  total_files r = length (files r) /\
  total_size_bytes r = sum_list (map size_bytes (files r)).

(** The same agreement on the accumulators of the collection loop. *)
Definition acc_agrees (acc : ScanAcc) : Prop :=
  acc_total_files acc = length (acc_repo_files acc) /\
  acc_total_size acc = sum_list (map size_bytes (acc_repo_files acc)).

(** A record carries an error value: the read-error marker as content, an
    error as tokenization, or an error as syntax analysis. *)
Definition carries_error (r : FileRecord) : Prop :=
  (exists e, full_content r = read_error_marker e) \/
  (exists msg, tokenization r = TokError msg) \/
  (exists msg, ast_analysis r = Some (AstError msg)).

(** The records of the calls that returned, in completion order. *)
Definition returned (completed : list (exc FileRecord)) : list FileRecord :=
  omap (fun result => match result with Ok r => Some r | Raise _ => None end) completed.

(** The assignments [cluster_assignment[idx] = label] that the loops over a
    cluster dictionary perform, in order. *)
Definition cluster_writes (clusters : list (Z * list nat)) : list (nat * Z) :=
  flat_map (fun li => map (fun idx => (idx, li.1)) li.2) clusters.

Definition apply_writes (writes : list (nat * Z)) (acc : exc (list (option Z)))
    : exc (list (option Z)) :=
  foldl (fun acc w => a ← acc; list_set a w.1 (Some w.2)) acc writes.

(** The output in which chunk [i] carries vector [i] and label [i]. *)
Fixpoint aligned_output `{Models} (text_chunks : list Chunk) (embeddings : list Vec)
    (cluster_labels : list Z) : list Granular :=
  match text_chunks, embeddings, cluster_labels with
  | chunk :: text_chunks', e :: embeddings', l :: cluster_labels' =>
      {| g_source := source chunk; g_metadata := metadata chunk;
         g_embedding := e; g_cluster := Some l |}
      :: aligned_output text_chunks' embeddings' cluster_labels'
  | _, _, _ => []
  end.

(** Every value stored under [key], were the key to occur more than once. *)
Definition dict_all (d : list (string * list string)) (key : string) : list string :=
  concat (map snd (List.filter (fun kv => String.eqb kv.1 key) d)).

(** The file names of the records that lie in directory [dir]. *)
Definition names_in_dir (dir : string) (records : list FileRecord) : list string :=
  map filename
      (List.filter (fun r => String.eqb (PosixPath.dirname (relative_path r)) dir) records).

(** A source path [main] can process: a directory, or nothing it knows. *)
Definition scannable `{World} (path : string) : Prop :=
  isdir path = true \/ isfile path = false.

Definition PYTHON_MANIFESTS : list string :=
  ["requirements.txt"; "setup.py"; "pyproject.toml"].

(** Number of occurrences of a character. *)
Fixpoint count_char (c : ascii) (s : string) : nat :=
  match s with
  | EmptyString => 0
  | String a s' => (if Ascii.eqb a c then 1 else 0) + count_char c s'
  end.

(** The text after the white space character [s] starts with, if it starts
    with one. *)
Definition space_prefix (s : string) : option string :=
  match s with
  | EmptyString => None
  | String c1 r1 =>
      if is_space c1 then Some r1
      else
        match r1 with
        | EmptyString => None
        | String c2 r2 =>
            if is_space2 c1 c2 then Some r2
            else
              match r2 with
              | EmptyString => None
              | String c3 r3 => if is_space3 c1 c2 c3 then Some r3 else None
              end
        end
  end.

(** The text has one of the letters A to Z. *)
Fixpoint has_ascii_upper (s : string) : bool :=
  match s with
  | EmptyString => false
  | String c s' => is_upper c || has_ascii_upper s'
  end.

(** An include-extension entry no file can match: it has one of the letters
    A to Z, or it is not empty and does not start with a dot. *)
Definition unmatchable (entry : string) : Prop :=
  has_ascii_upper entry = true
  \/ exists c rest, entry = String c rest /\ c <> PosixPath.dot.

(** The graph node [add_node] stores for a function. *)
Definition node_of (func : Symbol) : GraphNode :=
  {| gn_id := sym_name func; gn_start := sym_start_point func;
     gn_end := sym_end_point func |}.

(** Number of files in a directory tree. *)
Fixpoint tree_size (t : DirTree) : nat :=
  let '(Dir subdirs fs) := t in
  length fs
  + (fix each (ds : list (string * DirTree)) : nat :=
       match ds with
       | [] => 0
       | (_, t') :: ds' => tree_size t' + each ds'
       end) subdirs.

(** The order [sorted] sorts by. *)
Definition string_le (a b : string) : Prop := String.leb a b = true.

(** ** A small world to run the model on *)

Module Demo.

Definition a_py : string :=
  "def foo(): pass" +:+ String (ascii_of_nat 10) "class Bar: pass".

(** The syntax tree of [a_py], with an anonymous definition added. *)
Definition a_py_tree : Node :=
  mkNode "module" 0 31 (0, 0) (1, 15)
    [ mkNode "function_definition" 0 15 (0, 0) (0, 15)
        [ mkNode "def" 0 3 (0, 0) (0, 3) [];
          mkNode "identifier" 4 7 (0, 4) (0, 7) [];
          mkNode "parameters" 7 9 (0, 7) (0, 9) [];
          mkNode "block" 11 15 (0, 11) (0, 15) [] ];
      mkNode "class_definition" 16 31 (1, 0) (1, 15)
        [ mkNode "class" 16 21 (1, 0) (1, 5) [];
          mkNode "identifier" 22 25 (1, 6) (1, 9) [];
          mkNode "block" 27 31 (1, 11) (1, 15) [] ];
      mkNode "function_definition" 31 31 (1, 15) (1, 15)
        [ mkNode "def" 31 31 (1, 15) (1, 15) [] ] ].

Definition app_js : string := "function f() {}".

Definition app_js_tree : Node :=
  mkNode "program" 0 15 (0, 0) (0, 15)
    [ mkNode "function_declaration" 0 15 (0, 0) (0, 15)
        [ mkNode "function" 0 8 (0, 0) (0, 8) [];
          mkNode "identifier" 9 10 (0, 9) (0, 10) [];
          mkNode "formal_parameters" 10 12 (0, 10) (0, 12) [];
          mkNode "statement_block" 13 15 (0, 13) (0, 15) [] ] ].

(** U+00A0 (no-break space) and U+2003 (em space) in UTF-8 *)
Definition nbsp : string := String (ascii_of_nat 194) (String (ascii_of_nat 160) "").

Definition em_space : string :=
  String (ascii_of_nat 226) (String (ascii_of_nat 128) (String (ascii_of_nat 131) "")).

(** U+FFFD in UTF-8 *)
Definition replacement_character : string :=
  String (ascii_of_nat 239) (String (ascii_of_nat 191) (String (ascii_of_nat 189) "")).

(** Path, content, and whether undecodable bytes were replaced. *)
Definition disk_files : list (string * (string * bool)) :=
  [ ("repo/a.py", (a_py, false));
    ("repo/empty.txt", ("", false));
    ("repo/notes.txt", ("x", false));
    ("repo/bad.bin", (replacement_character, true));
    ("repo/web/app.js", (app_js, false));
    ("repo/.env", ("KEY=1", false)) ].

Definition lookup_file (p : string) : exc (string * bool) :=
  match List.find (fun kv => String.eqb kv.1 p) disk_files with
  | Some kv => Ok kv.2
  | None => Raise (Exception ("[Errno 2] No such file or directory: '" +:+ p +:+ "'"))
  end.

Definition strip_prefix (start p : string) : string :=
  if String.prefix (start +:+ "/") p
  then PosixPath.drop (String.length start + 1) p else p.

Definition code_points (s : string) : list Z :=
  map (fun c => Z.of_nat (nat_of_ascii c)) (list_ascii_of_string s).

Definition of_code_points (l : list Z) : string :=
  string_of_list_ascii (map (fun z => ascii_of_nat (Z.to_nat z)) l).

Definition world : World := {|
  getsize p := r ← lookup_file p; mret (String.length r.1);
  open_read := lookup_file;
  relpath p start := strip_prefix start p;
  abspath p := "/work/" +:+ p;
  isdir p := String.eqb p "repo";
  isfile p := match lookup_file p with Ok _ => true | Raise _ => false end;
  listdir p := if String.eqb p "repo"
               then Ok ["a.py"; "empty.txt"; "notes.txt"; "bad.bin"; ".env"; "web"]
               else Raise (Exception "[Errno 20] Not a directory");
  fs_tree p := if String.eqb p "repo"
               then Dir [("web", Dir [] ["app.js"])]
                        ["a.py"; "empty.txt"; "notes.txt"; "bad.bin"; ".env"]
               else Dir [] [];
  get_encoding := Ok ();
  tiktoken_encode s := Ok (code_points s);
  tiktoken_decode l := Ok (of_code_points l);
  parser_py content :=
    Ok (if String.eqb content a_py then a_py_tree
        else mkNode "module" 0 (String.length content) (0, 0) (0, 0) []);
  parser_js := Some (fun content =>
    Ok (if String.eqb content app_js then app_js_tree
        else mkNode "program" 0 (String.length content) (0, 0) (0, 0) []));
  fnmatch name pattern := String.eqb name pattern;
  as_completed := @rev (exc FileRecord)
|}.

(** A world where reading, tokenizing and parsing all fail. *)
Definition broken_world : World := {|
  getsize _ := Raise (Exception "[Errno 13] Permission denied");
  open_read _ := Raise (Exception "[Errno 13] Permission denied");
  relpath p start := strip_prefix start p;
  abspath p := "/work/" +:+ p;
  isdir p := String.eqb p "repo";
  isfile _ := true;
  listdir _ := Raise (Exception "[Errno 13] Permission denied");
  fs_tree _ := Dir [] ["a.py"];
  get_encoding := Raise (Exception "cl100k_base unavailable");
  tiktoken_encode _ := Ok [];
  tiktoken_decode _ := Ok "";
  parser_py _ := Raise (Exception "parse failed");
  parser_js := Some (fun _ => Raise (Exception "parse failed"));
  fnmatch name pattern := String.eqb name pattern;
  as_completed := @rev (exc FileRecord)
|}.

(** One-dimensional vectors: the length of the text; every vector goes to
    cluster [0]. *)
Definition models : Models := {|
  Vec := nat;
  model_encode texts := Ok (map String.length texts);
  kmeans_fit_predict embeddings _ := Ok (map (fun _ => 0%Z) embeddings)
|}.

Definition no_ignore : string -> bool := fun _ => false.

Definition args : Args := {|
  arg_project_type := "generic";
  arg_ignore_files := DEFAULT_IGNORE_FILES;
  arg_ignore := [];
  arg_include_extensions := [];
  arg_no_cache := false;
  arg_llm_hint := false;
  arg_cluster := 1;
  arg_no_embeddings := false
|}.

Definition plain_file (name content : string) : FileRecord :=
  {| relative_path := name; filename := name; extension := ".txt";
     size_bytes := String.length content; full_content := content;
     tokenization := Tokens (code_points content) (String.length content) content;
     llm_hint := ""; ast_analysis := None |}.

Definition empty_disk : Disk := {| cache_file := CacheMissing; cache_writable := true |}.

(** A cache written for the same root when it held a single file. *)
Definition stale : ScanResult :=
  {| repository_path := "/work/repo"; total_files := 1; total_size_bytes := 7;
     files := [plain_file "old.txt" "removed"];
     directory_structure := [("", ["old.txt"])] |}.

Definition stale_disk : Disk := {| cache_file := CacheHolds stale; cache_writable := true |}.

Definition args_no_embeddings : Args := {|
  arg_project_type := "generic";
  arg_ignore_files := DEFAULT_IGNORE_FILES;
  arg_ignore := [];
  arg_include_extensions := [];
  arg_no_cache := false;
  arg_llm_hint := false;
  arg_cluster := 5;
  arg_no_embeddings := true
|}.


(** The same world with a [.gitignore] in the repository. *)
Definition gitignore_text : string :=
  "# build output" +:+ String (ascii_of_nat 10) ""
  +:+ "  build  " +:+ String (ascii_of_nat 10) ""
  +:+ String (ascii_of_nat 10) ""
  +:+ "*.o" +:+ String (ascii_of_nat 10) ""
  +:+ "  # indented comment".

Definition git_world : World := {|
  getsize := @getsize world;
  open_read p := if String.eqb p "repo/.gitignore" then Ok (gitignore_text, false)
                 else @open_read world p;
  relpath := @relpath world;
  abspath := @abspath world;
  isdir := @isdir world;
  isfile p := String.eqb p "repo/.gitignore" || @isfile world p;
  listdir := @listdir world;
  fs_tree := @fs_tree world;
  get_encoding := @get_encoding world;
  tiktoken_encode := @tiktoken_encode world;
  tiktoken_decode := @tiktoken_decode world;
  parser_py := @parser_py world;
  parser_js := @parser_js world;
  fnmatch := @fnmatch world;
  as_completed := @as_completed world
|}.

(** A source whose first definition has its name as third child, with a
    method in a class. *)
Definition async_py : string :=
  "async def top(x): pass" +:+ String (ascii_of_nat 10) "class K:"
  +:+ String (ascii_of_nat 10) "    def m(self): pass".

(** The syntax tree of [async_py], with an anonymous definition added. *)
Definition async_py_tree : Node :=
  mkNode "module" 0 53 (0, 0) (2, 21)
    [ mkNode "function_definition" 0 22 (0, 0) (0, 22)
        [ mkNode "async" 0 5 (0, 0) (0, 5) [];
          mkNode "def" 6 9 (0, 6) (0, 9) [];
          mkNode "identifier" 10 13 (0, 10) (0, 13) [];
          mkNode "parameters" 13 16 (0, 13) (0, 16)
            [ mkNode "(" 13 14 (0, 13) (0, 14) [];
              mkNode "identifier" 14 15 (0, 14) (0, 15) [];
              mkNode ")" 15 16 (0, 15) (0, 16) [] ];
          mkNode ":" 16 17 (0, 16) (0, 17) [];
          mkNode "block" 18 22 (0, 18) (0, 22) [] ];
      mkNode "class_definition" 23 53 (1, 0) (2, 21)
        [ mkNode "class" 23 28 (1, 0) (1, 5) [];
          mkNode "identifier" 29 30 (1, 6) (1, 7) [];
          mkNode ":" 30 31 (1, 7) (1, 8) [];
          mkNode "block" 36 53 (2, 4) (2, 21)
            [ mkNode "function_definition" 36 53 (2, 4) (2, 21)
                [ mkNode "def" 36 39 (2, 4) (2, 7) [];
                  mkNode "identifier" 40 41 (2, 8) (2, 9) [];
                  mkNode "parameters" 41 47 (2, 9) (2, 15) [];
                  mkNode ":" 47 48 (2, 15) (2, 16) [];
                  mkNode "block" 49 53 (2, 17) (2, 21) [] ] ] ];
      mkNode "function_definition" 53 53 (2, 21) (2, 21)
        [ mkNode "def" 53 53 (2, 21) (2, 21) [] ] ].

(** The same world with a parser that knows [async_py]. *)
Definition async_world : World := {|
  getsize := @getsize world;
  open_read := @open_read world;
  relpath := @relpath world;
  abspath := @abspath world;
  isdir := @isdir world;
  isfile := @isfile world;
  listdir := @listdir world;
  fs_tree := @fs_tree world;
  get_encoding := @get_encoding world;
  tiktoken_encode := @tiktoken_encode world;
  tiktoken_decode := @tiktoken_decode world;
  parser_py content :=
    if String.eqb content async_py then Ok async_py_tree else @parser_py world content;
  parser_js := @parser_js world;
  fnmatch := @fnmatch world;
  as_completed := @as_completed world
|}.

(** A repository tree with an ignored directory. *)
Definition nested_tree : DirTree :=
  Dir [ ("src", Dir [("util", Dir [] ["io.py"])] ["main.py"]);
        ("node_modules", Dir [("left-pad", Dir [] ["index.js"])] ["package.json"]) ]
      ["README.md"].

Definition ignores_node_modules (rel : string) : bool :=
  String.eqb (PosixPath.basename rel) "node_modules".

End Demo.

(** * Properties *)

(** ** Running the model *)

Example basename_ex : PosixPath.basename "src/app/main.py" = "main.py".
Proof. reflexivity. Qed.
Example dirname_ex : PosixPath.dirname "src/app/main.py" = "src/app".
Proof. reflexivity. Qed.
Example splitext_ex : PosixPath.splitext_ext "src/app/main.PY" = ".PY".
Proof. reflexivity. Qed.
Example splitext_dotfile : PosixPath.splitext_ext "src/.env" = "".
Proof. reflexivity. Qed.
Example splitext_two_dots : PosixPath.splitext_ext "src/.env.local" = ".local".
Proof. reflexivity. Qed.
Example join_ex : PosixPath.join "src" "a.py" = "src/a.py".
Proof. reflexivity. Qed.

Section Examples.
#[local] Existing Instance Demo.world.
#[local] Existing Instance Demo.models.

Example demo_walk :
  walk_files Demo.no_ignore "repo" "repo" (fs_tree "repo")
  = ["repo/a.py"; "repo/empty.txt"; "repo/notes.txt"; "repo/bad.bin"; "repo/.env";
     "repo/web/app.js"].
Proof. reflexivity. Qed.

Example demo_analysis :
  analyze_file Demo.a_py "Python" false
  = AstSymbols [mkSymbol "foo" (0, 0) (0, 15) ""] [mkSymbol "Bar" (1, 0) (1, 15) ""]
               (Some [mkGraphNode "foo" (0, 0) (0, 15)]).
Proof. reflexivity. Qed.

Example demo_scan_files :
  map relative_path
      (files (scan_repository "repo" Demo.no_ignore ["notes.txt"] [] "python_backend" false))
  = ["web/app.js"; "bad.bin"; "empty.txt"; "a.py"].
Proof. vm_compute. reflexivity. Qed.

Example demo_scan_structure :
  directory_structure
    (scan_repository "repo" Demo.no_ignore ["notes.txt"] [] "python_backend" false)
  = [("web", ["app.js"]); ("", ["bad.bin"; "empty.txt"; "a.py"])].
Proof. vm_compute. reflexivity. Qed.

Example demo_js_analysis :
  analyze_file Demo.app_js "javascript" true
  = AstSymbols
      [mkSymbol "f" (0, 0) (0, 15)
         "Inspect the JavaScript function 'f' to understand its functionality."]
      [] (Some [mkGraphNode "f" (0, 0) (0, 15)]).
Proof. reflexivity. Qed.

End Examples.

(** ** Symbol extraction *)

(** Induction on syntax trees: the children satisfy the property. *)
Lemma Node_ind (P : Node -> Prop) :
  (forall type sb eb sp ep children,
      Forall P children -> P (mkNode type sb eb sp ep children)) ->
  forall n, P n.
Proof.
  intros step. fix IH 1. intros [type sb eb sp ep children].
  apply step. induction children as [|c cs IHcs]; constructor.
  - apply IH.
  - exact IHcs.
Qed.

(** What [visit] appends to each list, for a grammar with distinct rules. *)
Lemma visit_appends (g : Grammar) content hunt n st :
  function_rule g <> class_rule g ->
  visit g content hunt n st
  = (st.1 ++ definition_symbols (function_rule g) (function_hint g) content hunt n,
     st.2 ++ definition_symbols (class_rule g) (class_hint g) content hunt n).
Proof.
  intros Hrules. unfold visit, definition_symbols, symbol_of. destruct st as [fs cs]; simpl.
  destruct (String.eqb_spec (node_type n) (function_rule g)) as [Hf|Hf].
  - destruct (String.eqb_spec (node_type n) (class_rule g)) as [Hc|Hc]; [congruence|].
    destruct (first_identifier n); simpl; by rewrite ?app_nil_r.
  - destruct (String.eqb_spec (node_type n) (class_rule g)) as [Hc|Hc];
      [destruct (first_identifier n)|]; simpl; by rewrite ?app_nil_r.
Qed.

Lemma preorder_unfold n :
  preorder n = n :: flat_map preorder (node_children n).
Proof. destruct n; reflexivity. Qed.

Lemma traverse_unfold g content hunt n st :
  traverse g content hunt n st
  = foldl (fun st c => traverse g content hunt c st)
          (visit g content hunt n st) (node_children n).
Proof.
  destruct n as [type sb eb sp ep children]. cbn [traverse node_children].
  generalize (visit g content hunt (mkNode type sb eb sp ep children) st).
  induction children as [|c cs IH]; intros st'; [reflexivity|].
  cbn [foldl]. apply IH.
Qed.

Lemma traverse_preorder (g : Grammar) content hunt :
  function_rule g <> class_rule g ->
  forall n st,
    traverse g content hunt n st
    = (st.1 ++ flat_map (definition_symbols (function_rule g) (function_hint g) content hunt)
                        (preorder n),
       st.2 ++ flat_map (definition_symbols (class_rule g) (class_hint g) content hunt)
                        (preorder n)).
Proof.
  intros Hrules n. induction n as [type sb eb sp ep children IH] using Node_ind.
  intros st. rewrite traverse_unfold, preorder_unfold, visit_appends by assumption.
  cbn [node_children flat_map].
  set (F := definition_symbols (function_rule g) (function_hint g) content hunt) in *.
  set (C := definition_symbols (class_rule g) (class_hint g) content hunt) in *.
  generalize (F (mkNode type sb eb sp ep children))
             (C (mkNode type sb eb sp ep children)).
  intros f0 c0. rewrite !app_assoc.
  generalize (st.1 ++ f0) (st.2 ++ c0). clear st f0 c0.
  induction IH as [|c cs Hc _ IHcs]; intros fs cs0.
  - simpl. by rewrite !app_nil_r.
  - cbn [foldl flat_map]. rewrite Hc. cbn [fst snd].
    rewrite IHcs, !flat_map_app, !app_assoc. reflexivity.
Qed.

Lemma first_identifier_spec n child :
  first_identifier n = Some child <->
  exists before after,
    node_children n = before ++ child :: after /\
    node_type child = "identifier" /\
    Forall (fun c => node_type c <> "identifier") before.
Proof.
  unfold first_identifier. generalize (node_children n) as cs.
  induction cs as [|c cs IH]; simpl.
  - split; [discriminate|]. intros ([|??] & ? & ? & _); discriminate.
  - destruct (String.eqb_spec (node_type c) "identifier") as [Hc|Hc].
    + split.
      * intros [= <-]. exists [], cs. by repeat split.
      * intros ([|b before] & after & Heq & Hty & Hbefore); simplify_eq/=; [done|].
        by inversion Hbefore.
    + rewrite IH. split.
      * intros (before & after & -> & Hty & Hbefore).
        exists (c :: before), after. repeat split; [done|by constructor].
      * intros ([|b before] & after & Heq & Hty & Hbefore); simplify_eq/=.
        inversion Hbefore; subst. by exists before, after.
Qed.

Lemma first_identifier_child_find (children : list Node) (child : Node) :
  first_identifier_child children child
  <-> List.find (fun c => String.eqb (node_type c) "identifier") children = Some child.
Proof.
  split.
  - induction 1 as [child rest Hty|c rest child Hc _ IH]; cbn [List.find].
    + by rewrite Hty.
    + by destruct (String.eqb_spec (node_type c) "identifier").
  - induction children as [|c cs IH]; cbn [List.find]; [done|].
    destruct (String.eqb_spec (node_type c) "identifier") as [Hc|Hc].
    + intros [= <-]. by constructor.
    + intros Hfind. constructor; [done|]. by apply IH.
Qed.

Lemma first_identifier_child_functional (children : list Node) (a b : Node) :
  first_identifier_child children a -> first_identifier_child children b -> a = b.
Proof. rewrite !first_identifier_child_find. congruence. Qed.

Lemma first_identifier_child_is_identifier (children : list Node) (child : Node) :
  first_identifier_child children child ->
  In child children /\ node_type child = "identifier".
Proof.
  induction 1 as [child rest Hty|c rest child _ _ [Hin Hty]]; split; try done.
  - by left.
  - by right.
Qed.

Lemma no_identifier_child_find (children : list Node) :
  List.find (fun c => String.eqb (node_type c) "identifier") children = None
  -> Forall (fun c => node_type c <> "identifier") children.
Proof.
  intros Hfind. apply Forall_forall. intros c Hin%list_elem_of_In Hty.
  pose proof (find_none _ _ Hfind c Hin) as Hc. cbn beta in Hc.
  by rewrite Hty in Hc.
Qed.

(** What the code appends node by node is what the specification lists. *)
Lemma definition_symbols_as_specified rule hint content hunt (nodes : list Node) :
  rule_symbols rule content nodes
    (flat_map (definition_symbols rule hint content hunt) nodes).
Proof.
  induction nodes as [|n nodes IH]; cbn [flat_map]; [constructor|].
  unfold definition_symbols at 1.
  destruct (String.eqb_spec (node_type n) rule) as [Hrule|Hrule].
  - destruct (first_identifier n) as [child|] eqn:Hfirst.
    + cbn [app]. apply rule_symbols_named with (child := child); try done.
      by apply first_identifier_child_find.
    + cbn [app]. apply rule_symbols_unnamed; try done.
      by apply no_identifier_child_find.
  - by apply rule_symbols_other.
Qed.

Lemma rule_symbols_complete rule content (nodes : list Node) (syms : list Symbol) :
  rule_symbols rule content nodes syms ->
  forall n child,
    In n nodes -> node_type n = rule ->
    first_identifier_child (node_children n) child ->
    exists sym, In sym syms /\ names_node content n child sym.
Proof.
  induction 1 as [|n0 nodes syms Hother _ IH|n0 nodes syms Hrule Hnone _ IH
                  |n0 child0 sym0 nodes syms Hrule Hfirst Hnames _ IH];
    intros n child Hin Hn Hchild.
  - destruct Hin.
  - destruct Hin as [<-|Hin]; [done|]. by apply IH.
  - destruct Hin as [<-|Hin]; [|by apply IH].
    apply first_identifier_child_is_identifier in Hchild as [Hin Hty].
    rewrite Forall_forall in Hnone. by destruct (Hnone child (proj2 (list_elem_of_In _ _) Hin)).
  - destruct Hin as [<-|Hin].
    + rewrite (first_identifier_child_functional _ _ _ Hchild Hfirst).
      exists sym0. split; [by left|done].
    + destruct (IH n child Hin Hn Hchild) as (sym & Hsym & Hnamed).
      exists sym. split; [by right|done].
Qed.

Lemma rule_symbols_sound rule content (nodes : list Node) (syms : list Symbol) :
  rule_symbols rule content nodes syms ->
  forall sym,
    In sym syms ->
    exists n child,
      In n nodes /\ node_type n = rule
      /\ first_identifier_child (node_children n) child
      /\ names_node content n child sym.
Proof.
  induction 1 as [|n0 nodes syms Hother _ IH|n0 nodes syms Hrule Hnone _ IH
                  |n0 child0 sym0 nodes syms Hrule Hfirst Hnames _ IH];
    intros sym Hin.
  - destruct Hin.
  - destruct (IH sym Hin) as (n & child & Hn & Hrest). exists n, child. split; [by right|done].
  - destruct (IH sym Hin) as (n & child & Hn & Hrest). exists n, child. split; [by right|done].
  - destruct Hin as [<-|Hin].
    + exists n0, child0. split; [by left|done].
    + destruct (IH sym Hin) as (n & child & Hn & Hrest).
      exists n, child. split; [by right|done].
Qed.

Lemma traverse_as_specified rule hint content hunt (root : Node) :
  extracted_as_specified rule content root
    (flat_map (definition_symbols rule hint content hunt) (preorder root)).
Proof.
  pose proof (definition_symbols_as_specified rule hint content hunt (preorder root))
    as Hspec.
  split; [done|]. split.
  - by apply rule_symbols_complete.
  - by apply rule_symbols_sound.
Qed.

(** C7. On every syntax tree the parser returns, the Python and the
    JavaScript extractor return a symbol table, not an error, whose
    functions and classes are what the specification asks for the function
    rule and the class rule: over the nodes in pre-order, each node of the
    rule with an identifier child yields one symbol, named by the text of
    the first child of identifier type and carrying the node's own start and
    end points, and a node of the rule without an identifier child yields
    none. *)
Theorem symbol_named_by_first_identifier `{World} (content : string) (llm_hunt : bool)
    (root : Node) :
  (parser_py content = Ok root ->
   exists functions classes,
     analyze_python_file_treesitter content llm_hunt = AstSymbols functions classes None
     /\ extracted_as_specified "function_definition" content root functions
     /\ extracted_as_specified "class_definition" content root classes) /\
  (forall parse, parser_js = Some parse -> parse content = Ok root ->
   exists functions classes,
     analyze_javascript_file_treesitter content llm_hunt
     = AstSymbols functions classes None
     /\ extracted_as_specified "function_declaration" content root functions
     /\ extracted_as_specified "class_declaration" content root classes).
Proof.
  split.
  - intros Hparse. unfold analyze_python_file_treesitter. rewrite Hparse.
    rewrite traverse_preorder by done. cbn [fst snd app].
    eexists _, _. split; [reflexivity|].
    split; apply traverse_as_specified.
  - intros parse Hjs Hparse. unfold analyze_javascript_file_treesitter.
    rewrite Hjs, Hparse. rewrite traverse_preorder by done. cbn [fst snd app].
    eexists _, _. split; [reflexivity|].
    split; apply traverse_as_specified.
Qed.

Lemma symbol_named_by_first_identifier_witness :
  @analyze_python_file_treesitter Demo.async_world Demo.async_py false
  = AstSymbols [mkSymbol "top" (0, 0) (0, 22) ""; mkSymbol "m" (2, 4) (2, 21) ""]
               [mkSymbol "K" (1, 0) (2, 21) ""] None
  /\ (exists functions classes,
        @analyze_python_file_treesitter Demo.async_world Demo.async_py false
        = AstSymbols functions classes None
        /\ extracted_as_specified "function_definition" Demo.async_py Demo.async_py_tree
             functions
        /\ extracted_as_specified "class_definition" Demo.async_py Demo.async_py_tree
             classes)
  /\ (exists functions classes,
        @analyze_javascript_file_treesitter Demo.world Demo.app_js false
        = AstSymbols functions classes None
        /\ extracted_as_specified "function_declaration" Demo.app_js Demo.app_js_tree
             functions
        /\ extracted_as_specified "class_declaration" Demo.app_js Demo.app_js_tree
             classes).
Proof.
  split; [reflexivity|]. split.
  - exact (proj1 (@symbol_named_by_first_identifier Demo.async_world Demo.async_py false
                    Demo.async_py_tree) eq_refl).
  - destruct (@symbol_named_by_first_identifier Demo.world Demo.app_js false
                Demo.app_js_tree) as [_ Hjs].
    exact (Hjs _ eq_refl eq_refl).
Defined.

(** ** Unsupported languages *)

(** C8. For every text and every declared language whose lower-case form is
    neither "python" nor "javascript", [analyze_file] returns the error
    result naming the language as not supported; it raises nothing. *)
Theorem analyze_file_unsupported_language `{World} (content language : string)
    (llm_hunt : bool) :
  lower language <> "python" ->
  lower language <> "javascript" ->
  analyze_file content language llm_hunt
  = AstError ("AST analysis for language '" +:+ language +:+ "' is not supported yet.").
Proof.
  intros Hpy Hjs. unfold analyze_file.
  destruct (String.eqb_spec (lower language) "python"); [done|].
  destruct (String.eqb_spec (lower language) "javascript"); [done|].
  reflexivity.
Qed.

Lemma analyze_file_unsupported_language_witness :
  @analyze_file Demo.world "fn main() {}" "Rust" true
  = AstError "AST analysis for language 'Rust' is not supported yet.".
Proof.
  apply (@analyze_file_unsupported_language Demo.world "fn main() {}" "Rust" true);
    vm_compute; discriminate.
Defined.

(** ** Chunk assembly *)

Lemma foldl_snoc_map {A B : Type} (f : A -> B) (l : list A) (acc : list B) :
  foldl (fun acc x => acc ++ [f x]) acc l = acc ++ map f l.
Proof.
  revert acc. induction l as [|x l IH]; intros acc; simpl.
  - by rewrite app_nil_r.
  - by rewrite IH, <- app_assoc.
Qed.

Lemma extract_file_chunks chunks file :
  extract_file chunks file = chunks ++ chunks_of_file file.
Proof.
  unfold extract_file, chunks_of_file.
  by rewrite !foldl_snoc_map, <- !app_assoc.
Qed.

Lemma extract_texts_flat_map files :
  extract_texts_for_embedding files = flat_map chunks_of_file files.
Proof.
  unfold extract_texts_for_embedding.
  change (flat_map chunks_of_file files) with ([] ++ flat_map chunks_of_file files).
  generalize (@nil Chunk) as acc.
  induction files as [|file files IH]; intros acc; simpl.
  - by rewrite app_nil_r.
  - by rewrite IH, extract_file_chunks, <- app_assoc.
Qed.

(** C5. The chunk list of a file list is the concatenation, file by file, of
    the file's function chunks in list order, its class chunks in list
    order, and one file-level chunk; for a record whose analysis holds the
    symbols [functions] and [classes] that is [N + 1] chunks with [N] the
    number of symbols. A symbol chunk's text is the symbol's hint if not
    empty, else the sentence naming the symbol and the file; the file
    chunk's text is the file's hint if not empty, else its full content. *)
Theorem chunks_per_file (before after : list FileRecord) (file : FileRecord) :
  extract_texts_for_embedding (before ++ file :: after)
  = extract_texts_for_embedding before ++ chunks_of_file file
    ++ extract_texts_for_embedding after
  /\ (forall functions classes graph,
        ast_analysis file = Some (AstSymbols functions classes graph) ->
        chunks_of_file file
        = map (function_chunk file) functions ++ map (class_chunk file) classes
          ++ [file_chunk file]
        /\ length (chunks_of_file file) = length functions + length classes + 1)
  /\ ((ast_analysis file = None \/ exists msg, ast_analysis file = Some (AstError msg)) ->
      chunks_of_file file = [file_chunk file])
  /\ (forall func, source (function_chunk file func) = symbol_text "Function" func file)
  /\ (forall cls, source (class_chunk file cls) = symbol_text "Class" cls file)
  /\ source (file_chunk file) = file_text file.
Proof.
  split_and!.
  - rewrite !extract_texts_flat_map, flat_map_app. reflexivity.
  - intros functions classes graph Hast.
    unfold chunks_of_file, ast_functions, ast_classes. rewrite Hast.
    split; [done|]. rewrite !length_app, !length_map. simpl. lia.
  - unfold chunks_of_file, ast_functions, ast_classes.
    by intros [->|[msg ->]].
  - intros func. unfold function_chunk, symbol_text; simpl.
    by destruct (sym_llm_hint func).
  - intros cls. unfold class_chunk, symbol_text; simpl.
    by destruct (sym_llm_hint cls).
  - unfold file_chunk, file_text; simpl. by destruct (llm_hint file).
Qed.

Lemma chunks_per_file_witness :
  let file :=
    {| relative_path := "a.py"; filename := "a.py"; extension := ".py"; size_bytes := 31;
       full_content := Demo.a_py; tokenization := TokError "";
       llm_hint := "";
       ast_analysis :=
         Some (AstSymbols [mkSymbol "foo" (0, 0) (0, 15) "Look at foo."]
                          [mkSymbol "Bar" (1, 0) (1, 15) ""] None) |} in
  map source (extract_texts_for_embedding [Demo.plain_file "notes.txt" "x"; file])
  = ["x"; "Look at foo."; "Class Bar in a.py"; Demo.a_py].
Proof.
  intros file.
  destruct (chunks_per_file [Demo.plain_file "notes.txt" "x"] [] file)
    as (Hall & Hsymbols & _).
  destruct (Hsymbols _ _ _ eq_refl) as [Hfile _].
  rewrite Hfile in Hall. exact (f_equal (map source) Hall).
Defined.

(** ** Totals of a scan *)

Lemma collect_one_agrees acc result : acc_agrees acc -> acc_agrees (collect_one acc result).
Proof.
  intros [Hn Hs]. destruct result as [file_info|e]; [|by split].
  split; simpl.
  - rewrite length_app, Hn. reflexivity.
  - rewrite map_app, sum_list_with_app, Hs. simpl. lia.
Qed.

Lemma collect_agrees completed : acc_agrees (collect completed).
Proof.
  unfold collect. assert (acc_agrees empty_acc) as H0 by (by split).
  revert H0. generalize empty_acc as acc.
  induction completed as [|result completed IH]; intros acc Hacc; [done|].
  simpl. apply IH. by apply collect_one_agrees.
Qed.

Lemma combine_results_from (init : ScanResult) (results_list : list ScanResult) :
  totals_agree init -> Forall totals_agree results_list ->
  totals_agree
    (foldl (fun combined res =>
              {| repository_path := repository_path combined;
                 total_files := total_files combined + total_files res;
                 total_size_bytes := total_size_bytes combined + total_size_bytes res;
                 files := files combined ++ files res;
                 directory_structure :=
                   foldl (fun ds kv => dict_extend ds kv.1 kv.2)
                         (directory_structure combined) (directory_structure res) |})
           init results_list).
Proof.
  intros Hinit Hall. revert init Hinit.
  induction Hall as [|res results [Hn Hs] _ IH]; intros init [Hn0 Hs0]; [done|].
  simpl. apply IH. split; simpl.
  - rewrite length_app. lia.
  - rewrite map_app, sum_list_with_app. lia.
Qed.

(** C3. Whatever the candidates and whatever the order (or the failures) in
    which the file-processing calls complete, the result of a scan has
    [total_files] equal to the length of [files] and [total_size_bytes] equal
    to the sum of their [size_bytes]; and merging scan results that have
    this property gives a result that has it. *)
Theorem totals_match_files `{World} (repo_path : string) (ignore_spec : string -> bool)
    (ignore_patterns include_extensions : list string) (project_type : string)
    (llm_hunt : bool) (all_files : list string) (completed : list (exc FileRecord))
    (results_list : list ScanResult) :
  Forall totals_agree results_list ->
  totals_agree (scan_candidates repo_path ignore_spec ignore_patterns include_extensions
                  project_type llm_hunt all_files)
  /\ totals_agree (scan_repository repo_path ignore_spec ignore_patterns
                     include_extensions project_type llm_hunt)
  /\ acc_agrees (collect completed)
  /\ (forall roots,
        totals_agree
          (combine_results
             (map (fun root => scan_repository root ignore_spec ignore_patterns
                                 include_extensions project_type llm_hunt) roots)))
  /\ totals_agree (combine_results results_list).
Proof.
  intros Hall.
  assert (forall root files, totals_agree
            (scan_candidates root ignore_spec ignore_patterns include_extensions
               project_type llm_hunt files)) as Hscan.
  { intros root fs. unfold scan_candidates, totals_agree. simpl. apply collect_agrees. }
  split; [apply Hscan|]. split; [apply Hscan|]. split; [apply collect_agrees|].
  split; [|apply combine_results_from; [by split|done]].
  intros roots. apply combine_results_from; [by split|].
  apply Forall_forall. intros r (root & -> & _)%list_elem_of_fmap. apply Hscan.
Qed.

Lemma totals_match_files_witness :
  let r := @scan_repository Demo.world "repo" Demo.no_ignore [] [] "generic" false in
  total_files r = 5 /\ totals_agree (combine_results [r; r]).
Proof.
  intros r. split; [reflexivity|].
  apply (@totals_match_files Demo.world "repo" Demo.no_ignore [] [] "generic" false
           [] [] [r; r]).
  repeat constructor.
Defined.

(** ** Order of the exclusion filters *)

Lemma mem_In x xs : mem x xs = true <-> In x xs.
Proof.
  unfold mem. rewrite existsb_exists. split.
  - intros (y & Hy & Heq). apply String.eqb_eq in Heq. by subst.
  - intros Hx. exists x. split; [done|apply String.eqb_refl].
Qed.

Lemma mem_not_In x xs : mem x xs = false <-> ~ In x xs.
Proof. rewrite <- mem_In. by destruct (mem x xs). Qed.

Lemma find_None_iff {A : Type} (f : A -> bool) (l : list A) :
  List.find f l = None <-> forall x, In x l -> f x = false.
Proof.
  split; [apply find_none|].
  intros Hall. destruct (List.find f l) as [x|] eqn:Hfind; [|done].
  apply find_some in Hfind as [Hin Hfx]. rewrite (Hall x Hin) in Hfx. done.
Qed.

(** Closes the clauses once the branch taken is known. *)
Ltac settle_filters := split_and!; naive_solver.

Lemma filter_candidate_cases `{World} (repo_path : string) (ignore_spec : string -> bool)
    (ignore_patterns include_extensions project_ignore_ext : list string)
    (file_path : string) :
  let rel := relpath file_path repo_path in
  let base := PosixPath.basename file_path in
  let ext := ext_of file_path in
  let verdict := filter_candidate repo_path ignore_spec ignore_patterns
                   include_extensions project_ignore_ext file_path in
  let no_pattern := forall pattern, In pattern ignore_patterns -> fnmatch base pattern = false in
  (verdict = IgnoredByGitignore <-> ignore_spec rel = true)
  /\ ((exists pattern, verdict = IgnoredByCliPattern pattern) <->
      ignore_spec rel = false
      /\ exists pattern, In pattern ignore_patterns /\ fnmatch base pattern = true)
  /\ (verdict = IgnoredSensitive <->
      ignore_spec rel = false /\ no_pattern /\ In base SENSITIVE_FILES)
  /\ ((exists e, verdict = IgnoredProjectExtension e) <->
      ignore_spec rel = false /\ no_pattern /\ ~ In base SENSITIVE_FILES
      /\ In ext project_ignore_ext)
  /\ (verdict = ExcludedByIncludeExtensions <->
      ignore_spec rel = false /\ no_pattern /\ ~ In base SENSITIVE_FILES
      /\ ~ In ext project_ignore_ext
      /\ include_extensions <> [] /\ ~ In ext include_extensions)
  /\ (verdict = Submitted <->
      ignore_spec rel = false /\ no_pattern /\ ~ In base SENSITIVE_FILES
      /\ ~ In ext project_ignore_ext
      /\ (include_extensions = [] \/ In ext include_extensions)).
Proof.
  intros rel base ext verdict no_pattern.
  subst verdict. unfold filter_candidate. fold rel base ext.
  clearbody rel base ext.
  destruct (ignore_spec rel) eqn:Hgit; [settle_filters|].
  destruct (List.find _ ignore_patterns) as [pattern|] eqn:Hfind.
  { apply find_some in Hfind as [Hin Hmatch].
    assert (~ no_pattern) as Hno.
    { intros Hno. rewrite (Hno pattern Hin) in Hmatch. done. }
    clearbody no_pattern. settle_filters. }
  pose proof (proj1 (find_None_iff _ _) Hfind) as Hall. clear Hfind.
  change no_pattern in Hall.
  assert (~ exists pattern, In pattern ignore_patterns /\ fnmatch base pattern = true)
    as Hnone.
  { intros (pattern & Hin & Hmatch). rewrite (Hall pattern Hin) in Hmatch. done. }
  clearbody no_pattern.
  destruct (mem base SENSITIVE_FILES) eqn:Hsens;
    [apply mem_In in Hsens; settle_filters | apply mem_not_In in Hsens].
  destruct (mem ext project_ignore_ext) eqn:Hext;
    [apply mem_In in Hext; settle_filters | apply mem_not_In in Hext].
  destruct (bool_decide_reflect (include_extensions = [])) as [Hincl|Hincl]; simpl;
    [settle_filters|].
  destruct (mem ext include_extensions) eqn:Hin; simpl;
    [apply mem_In in Hin | apply mem_not_In in Hin]; settle_filters.
Qed.

(** C4. The submission loop classifies a candidate by the first filter that
    matches, in the order: ignore specification on the relative path, command
    line patterns on the base name, sensitive file names, extensions denied
    for the project type, include-extension list when it is not empty. A
    filter decides only when all the earlier ones did not match, whatever the
    later ones say, and exactly the candidates that no filter matches are
    submitted to the file processor. *)
Theorem filters_apply_in_order `{World} (repo_path : string) (ignore_spec : string -> bool)
    (ignore_patterns include_extensions project_ignore_ext : list string)
    (file_path : string) :
  let rel := relpath file_path repo_path in
  let base := PosixPath.basename file_path in
  let ext := ext_of file_path in
  let verdict := filter_candidate repo_path ignore_spec ignore_patterns
                   include_extensions project_ignore_ext file_path in
  let no_pattern := forall pattern, In pattern ignore_patterns -> fnmatch base pattern = false in
  (verdict = IgnoredByGitignore <-> ignore_spec rel = true)
  /\ ((exists pattern, verdict = IgnoredByCliPattern pattern) <->
      ignore_spec rel = false
      /\ exists pattern, In pattern ignore_patterns /\ fnmatch base pattern = true)
  /\ (verdict = IgnoredSensitive <->
      ignore_spec rel = false /\ no_pattern /\ In base SENSITIVE_FILES)
  /\ ((exists e, verdict = IgnoredProjectExtension e) <->
      ignore_spec rel = false /\ no_pattern /\ ~ In base SENSITIVE_FILES
      /\ In ext project_ignore_ext)
  /\ (verdict = ExcludedByIncludeExtensions <->
      ignore_spec rel = false /\ no_pattern /\ ~ In base SENSITIVE_FILES
      /\ ~ In ext project_ignore_ext
      /\ include_extensions <> [] /\ ~ In ext include_extensions)
  /\ (verdict = Submitted <->
      ignore_spec rel = false /\ no_pattern /\ ~ In base SENSITIVE_FILES
      /\ ~ In ext project_ignore_ext
      /\ (include_extensions = [] \/ In ext include_extensions))
  /\ (forall project_type all_files,
        In file_path (submitted_files repo_path ignore_spec ignore_patterns
                        include_extensions project_type all_files) <->
        In file_path all_files
        /\ filter_candidate repo_path ignore_spec ignore_patterns include_extensions
             (get_project_specific_ignore_extensions project_type) file_path = Submitted).
Proof.
  intros rel base ext verdict no_pattern.
  pose proof (filter_candidate_cases repo_path ignore_spec ignore_patterns
                include_extensions project_ignore_ext file_path) as Hcases.
  cbv zeta in Hcases. fold rel base ext verdict no_pattern in Hcases.
  destruct Hcases as (H1 & H2 & H3 & H4 & H5 & H6).
  split_and!; try assumption.
  intros project_type all_files. unfold submitted_files. rewrite filter_In.
  generalize (filter_candidate repo_path ignore_spec ignore_patterns include_extensions
                (get_project_specific_ignore_extensions project_type) file_path).
  intros []; simpl; intuition congruence.
Qed.

Lemma filters_apply_in_order_witness :
  @filter_candidate Demo.world "repo" Demo.no_ignore ["notes.txt"] [] [] "repo/.env"
  = IgnoredSensitive
  /\ @filter_candidate Demo.world "repo" (fun _ => true) ["notes.txt"] [] [] "repo/notes.txt"
     = IgnoredByGitignore.
Proof.
  split.
  - apply (@filters_apply_in_order Demo.world "repo" Demo.no_ignore ["notes.txt"] [] []
             "repo/.env").
    split_and!; [reflexivity| |by left].
    intros pattern [<-|[]]. reflexivity.
  - by apply (@filters_apply_in_order Demo.world "repo" (fun _ => true) ["notes.txt"] [] []
                "repo/notes.txt").
Defined.

(** ** Which files are analysed *)

Lemma qualifies_python_spec project_type ext :
  qualifies_python project_type ext = true
  <-> project_type = "python_backend" /\ ext = ".py".
Proof. unfold qualifies_python. by rewrite andb_true_iff, !String.eqb_eq. Qed.

Lemma qualifies_javascript_spec project_type ext :
  qualifies_javascript project_type ext = true
  <-> In project_type ["javascript"; "typescript"] /\ In ext JS_TS_EXTENSIONS.
Proof. unfold qualifies_javascript. by rewrite andb_true_iff, !mem_In. Qed.

(** What the code does: the analysis runs exactly in these two cases. *)
Lemma analysis_invoked_iff `{World} (file_path base_path project_type language : string)
    (llm_hint : bool) :
  let ext := str_or (ext_of file_path) "none" in
  is_Some (ast_analysis (get_file_info file_path base_path project_type language llm_hint))
  <-> (project_type = "python_backend" /\ ext = ".py")
      \/ (In project_type ["javascript"; "typescript"] /\ In ext JS_TS_EXTENSIONS).
Proof.
  intros ext. unfold get_file_info. cbn [ast_analysis]. fold ext.
  rewrite <- qualifies_python_spec, <- qualifies_javascript_spec.
  destruct (qualifies_python project_type ext), (qualifies_javascript project_type ext);
    split; try (intros [? ?]; done); try (intros [?|?]; done); eauto.
Qed.

(** C2 (the code departs from the claim). A directory with a JS package
    manifest and no Python packaging manifest is classified "frontend", and
    under the project type "frontend" [get_file_info] gives no file an
    [ast_analysis], whatever its extension: the test for JavaScript and
    TypeScript files asks for the project types "javascript" and
    "typescript", which the classifier never returns. *)
Theorem frontend_files_are_not_analysed `{World} (listing : list string)
    (file_path base_path language : string) (llm_hint : bool) :
  In "package.json" listing ->
  (forall manifest, In manifest ["requirements.txt"; "setup.py"; "pyproject.toml"] ->
                    ~ In manifest listing) ->
  classify_listing listing = "frontend"
  /\ ast_analysis (get_file_info file_path base_path (classify_listing listing)
                     language llm_hint) = None.
Proof.
  intros Hjs Hpy.
  assert (classify_listing listing = "frontend") as ->.
  { unfold classify_listing.
    destruct (existsb _ _) eqn:Hex.
    - apply existsb_exists in Hex as (manifest & Hin & Hmem).
      apply mem_In in Hmem. by destruct (Hpy manifest Hin).
    - by rewrite (proj2 (mem_In _ _) Hjs). }
  split; [done|].
  destruct (ast_analysis _) eqn:Hast; [|done].
  assert (is_Some (ast_analysis (get_file_info file_path base_path "frontend"
                                   language llm_hint))) as Hsome by (by eexists).
  apply analysis_invoked_iff in Hsome as [[? _]|[Hin _]]; [done|].
  simpl in Hin. naive_solver.
Qed.

Lemma frontend_files_are_not_analysed_witness :
  classify_listing ["package.json"; "app.js"] = "frontend"
  /\ ast_analysis (@get_file_info Demo.world "repo/web/app.js" "repo"
                     (classify_listing ["package.json"; "app.js"]) "python" false) = None.
Proof.
  apply (@frontend_files_are_not_analysed Demo.world ["package.json"; "app.js"]
           "repo/web/app.js" "repo" "python" false).
  - by left.
  - intros manifest Hin [Heq|[Heq|[]]]; subst manifest; simpl in Hin;
      repeat destruct Hin as [Hin|Hin]; done.
Defined.

(** ** The scan cache *)

(** C9. With caching enabled, the directory branch of [main] uses the cached
    result exactly when the cache file holds a result whose
    [repository_path] is the absolute path of the requested root. Nothing
    else of the cached result or of the directory is looked at: a cached
    result with that path is returned as it is, and the cache file left
    untouched, whatever a fresh scan would give; with another path (or no
    readable cache) the directory is scanned and the result saved. *)
Theorem cache_hit_iff_same_path `{World} (args : Args) (ignore_spec : string -> bool)
    (combined_ignore : list string) (project_type : string) (disk : Disk)
    (path : string) :
  arg_no_cache args = false ->
  let outcome := scan_directory args ignore_spec combined_ignore project_type disk path in
  let fresh := scan_repository path ignore_spec combined_ignore
                 (arg_include_extensions args) project_type (arg_llm_hint args) in
  (outcome.2 = FromCache <->
   exists data, load_cache disk = Some data /\ repository_path data = abspath path)
  /\ (forall data, load_cache disk = Some data -> repository_path data = abspath path ->
      outcome = (data, disk, FromCache))
  /\ (forall data, load_cache disk = Some data -> repository_path data <> abspath path ->
      outcome = (fresh, save_cache fresh disk, FromScan))
  /\ (load_cache disk = None -> outcome = (fresh, save_cache fresh disk, FromScan)).
Proof.
  intros Hcache outcome fresh. subst outcome fresh. unfold scan_directory.
  rewrite Hcache. destruct (load_cache disk) as [data|].
  - destruct (String.eqb_spec (repository_path data) (abspath path)) as [Heq|Hne].
    + split_and!; [|naive_solver..]. split; [eauto|done].
    + split_and!; [|naive_solver..]. split; [done|]. naive_solver.
  - split_and!; [|naive_solver..]. split; [done|]. naive_solver.
Qed.

Lemma cache_hit_iff_same_path_witness :
  @scan_directory Demo.world Demo.args Demo.no_ignore [] "generic" Demo.stale_disk "repo"
  = (Demo.stale, Demo.stale_disk, FromCache)
  /\ total_files
       (@scan_repository Demo.world "repo" Demo.no_ignore [] [] "generic" false) = 5.
Proof.
  split; [|reflexivity].
  by apply (@cache_hit_iff_same_path Demo.world Demo.args Demo.no_ignore [] "generic"
              Demo.stale_disk "repo" eq_refl).
Defined.

(** ** The path of a combined result *)

Lemma combine_results_path_from (init : ScanResult) (results_list : list ScanResult) :
  repository_path
    (foldl (fun combined res =>
              {| repository_path := repository_path combined;
                 total_files := total_files combined + total_files res;
                 total_size_bytes := total_size_bytes combined + total_size_bytes res;
                 files := files combined ++ files res;
                 directory_structure :=
                   foldl (fun ds kv => dict_extend ds kv.1 kv.2)
                         (directory_structure combined) (directory_structure res) |})
           init results_list)
  = repository_path init.
Proof.
  revert init. induction results_list as [|res results IH]; intros init; [done|].
  simpl. by rewrite IH.
Qed.

Lemma combine_results_path results_list :
  repository_path (combine_results results_list) = "Multiple Sources".
Proof. unfold combine_results. by rewrite combine_results_path_from. Qed.

(** C10. [combine_results] gives the merged result the literal path
    "Multiple Sources" for every list of results, a list of one result
    included; so whenever [main] produces a document, its
    [repository_metadata.repository_path] is that literal and differs from
    the absolute path of any root. *)
Theorem combined_path_is_multiple_sources `{World} `{Models}
    (load_gitignore : string -> string -> bool) (args : Args)
    (source_paths : list string) (disk disk' : Disk) (out : Output) :
  main load_gitignore args source_paths disk = Ok (out, disk') ->
  (forall results_list,
      repository_path (combine_results results_list) = "Multiple Sources")
  /\ (forall res, repository_path (combine_results [res]) = "Multiple Sources")
  /\ rm_repository_path (out_repository_metadata out) = "Multiple Sources"
  /\ (forall root, PosixPath.isabs (abspath root) = true ->
                   rm_repository_path (out_repository_metadata out) <> abspath root).
Proof.
  intros Hmain.
  assert (rm_repository_path (out_repository_metadata out) = "Multiple Sources") as Hout.
  { unfold main in Hmain. destruct source_paths as [|first rest]; [done|].
    destruct (if negb _ then _ else _) as [project_type|]; [|done].
    cbn [mbind exc_bind] in Hmain.
    destruct (scan_sources _ _ _ _ _ _ _) as [scanned|]; [|done].
    cbn [mbind exc_bind] in Hmain.
    destruct (if arg_no_embeddings args then _ else _) as [ref|]; [|done].
    cbn [mbind exc_bind mret exc_ret] in Hmain. injection Hmain as <- _.
    simpl. apply combine_results_path. }
  split_and!; [apply combine_results_path|intros; apply combine_results_path|done|].
  intros root Habs. rewrite Hout. intros Heq. rewrite <- Heq in Habs. done.
Qed.

Lemma combined_path_is_multiple_sources_witness :
  exists out disk',
    @main Demo.world Demo.models (fun _ => Demo.no_ignore) Demo.args_no_embeddings
          ["repo"] Demo.empty_disk = Ok (out, disk')
    /\ rm_repository_path (out_repository_metadata out) = "Multiple Sources"
    /\ rm_total_files (out_repository_metadata out) = 5
    /\ repository_path
         (@scan_repository Demo.world "repo" Demo.no_ignore DEFAULT_IGNORE_FILES []
            "generic" false) = "/work/repo".
Proof.
  eexists _, _. split; [vm_compute; reflexivity|].
  split_and!; [|reflexivity..].
  eapply (@combined_path_is_multiple_sources Demo.world Demo.models
            (fun _ => Demo.no_ignore) Demo.args_no_embeddings ["repo"] Demo.empty_disk).
  vm_compute. reflexivity.
Defined.

(** ** Failures while processing a file *)

Lemma collect_records_returned (completed : list (exc FileRecord)) (acc : ScanAcc) :
  acc_repo_files (foldl collect_one acc completed)
  = acc_repo_files acc ++ returned completed.
Proof.
  revert acc. induction completed as [|result completed IH]; intros acc; simpl.
  - by rewrite app_nil_r.
  - rewrite IH. destruct result as [file_info|e]; simpl; [|done].
    by rewrite <- app_assoc.
Qed.

Lemma returned_all_ok (records : list FileRecord) : returned (map Ok records) = records.
Proof. induction records as [|r records IH]; simpl; [done|]. by rewrite IH. Qed.

(** C6, as stated, at a decode failure: a file whose undecodable bytes were
    replaced gets a record that carries no error value at all. *)
Lemma decode_failure_leaves_no_error :
  ~ (forall (w : World) (file_path base_path project_type language text : string)
            (llm_hint : bool),
        @open_read w file_path = Ok (text, true) ->
        carries_error (@get_file_info w file_path base_path project_type language llm_hint)).
Proof.
  intros Hclaim.
  destruct (Hclaim Demo.world "repo/bad.bin" "repo" "generic" "python"
              Demo.replacement_character false eq_refl)
    as [[e He]|[[msg Hmsg]|[msg Hmsg]]]; discriminate.
Qed.

(** C6, amended. [get_file_info] returns a record in every case. A failure
    to read the file is recorded as the marker text in [full_content]; a
    tokenizer failure as the error value of [tokenization]; a parser failure
    (or a missing JavaScript parser), when the file qualifies for analysis,
    as the error value of [ast_analysis]. A decode failure is not recorded:
    the text with the undecodable bytes replaced is the content. The scan
    goes on: the collection loop records every call that returned, also
    after calls that raised, and every submitted file is such a call. *)
Theorem recoverable_failures_are_recorded `{World}
    (file_path base_path project_type language : string) (llm_hint : bool) :
  let r := get_file_info file_path base_path project_type language llm_hint in
  let ext := str_or (ext_of file_path) "none" in
  (forall e, open_read file_path = Raise e -> full_content r = read_error_marker e)
  /\ (forall text replaced,
        open_read file_path = Ok (text, replaced) -> full_content r = text)
  /\ (forall e, tokenize_attempt (full_content r) = Raise e ->
                tokenization r = TokError (str_exn e))
  /\ (forall e, qualifies_python project_type ext = true ->
                parser_py (full_content r) = Raise e ->
                ast_analysis r
                = Some (AstError ("Tree-sitter parse error: " +:+ str_exn e)))
  /\ (forall parse e,
        qualifies_python project_type ext = false ->
        qualifies_javascript project_type ext = true ->
        parser_js = Some parse -> parse (full_content r) = Raise e ->
        ast_analysis r
        = Some (AstError ("Tree-sitter parse error: " +:+ str_exn e)))
  /\ (qualifies_python project_type ext = false ->
      qualifies_javascript project_type ext = true ->
      parser_js = None ->
      ast_analysis r = Some (AstError "JavaScript parser is not available."))
  /\ (forall completed, acc_repo_files (collect completed) = returned completed)
  /\ (forall repo_path ignore_spec ignore_patterns include_extensions llm_hunt all_files,
        let submitted := submitted_files repo_path ignore_spec ignore_patterns
                           include_extensions project_type all_files in
        let futures :=
          map (fun p => Ok (get_file_info p repo_path project_type "python" llm_hunt))
              submitted in
        files (scan_candidates repo_path ignore_spec ignore_patterns include_extensions
                 project_type llm_hunt all_files)
        = returned (as_completed futures)
        /\ (as_completed futures ≡ₚ futures ->
            files (scan_candidates repo_path ignore_spec ignore_patterns
                     include_extensions project_type llm_hunt all_files)
            ≡ₚ map (fun p => get_file_info p repo_path project_type "python" llm_hunt)
                   submitted)).
Proof.
  intros r ext. subst r. unfold get_file_info. cbn [full_content tokenization ast_analysis].
  fold ext. split_and!.
  - intros e ->. reflexivity.
  - intros text replaced ->. reflexivity.
  - intros e Htok. unfold tokenize_content. by rewrite Htok.
  - intros e -> Hparse. unfold analyze_file. cbn [lower lower_ascii].
    simpl String.eqb. cbn iota. unfold analyze_python_file_treesitter.
    by rewrite Hparse.
  - intros parse e -> -> Hjs Hparse. unfold analyze_file.
    simpl String.eqb. cbn iota. unfold analyze_javascript_file_treesitter.
    by rewrite Hjs, Hparse.
  - intros -> -> Hjs. unfold analyze_file.
    simpl String.eqb. cbn iota. unfold analyze_javascript_file_treesitter.
    by rewrite Hjs.
  - intros completed. unfold collect. by rewrite collect_records_returned.
  - intros repo_path ignore_spec ignore_patterns include_extensions llm_hunt all_files.
    cbv zeta.
    set (submitted := submitted_files repo_path ignore_spec ignore_patterns
                        include_extensions project_type all_files).
    set (futures := map _ submitted).
    assert (files (scan_candidates repo_path ignore_spec ignore_patterns include_extensions
                     project_type llm_hunt all_files) = returned (as_completed futures))
      as Hfiles.
    { unfold scan_candidates. cbn [files]. unfold collect.
      by rewrite collect_records_returned. }
    split; [done|]. intros Hperm. rewrite Hfiles. unfold returned at 1. rewrite Hperm.
    subst futures. fold (returned (map (fun p => Ok (get_file_info p repo_path project_type
                                                      "python" llm_hunt)) submitted)).
    rewrite <- (map_map _ Ok), returned_all_ok. reflexivity.
Qed.

Lemma recoverable_failures_are_recorded_witness :
  let r := @get_file_info Demo.broken_world "repo/a.py" "repo" "python_backend" "python"
             false in
  full_content r = "<<Error reading file: [Errno 13] Permission denied>>"
  /\ tokenization r = TokError "cl100k_base unavailable"
  /\ ast_analysis r = Some (AstError "Tree-sitter parse error: parse failed").
Proof.
  intros r.
  destruct (@recoverable_failures_are_recorded Demo.broken_world "repo/a.py" "repo"
              "python_backend" "python" false) as (Hread & _ & Htok & Hparse & _).
  split_and!.
  - exact (Hread _ eq_refl).
  - exact (Htok _ eq_refl).
  - exact (Hparse _ eq_refl eq_refl).
Defined.

(** ** The embedding block *)

Lemma list_get_ge {A : Type} (l : list A) (i : nat) :
  length l <= i -> list_get l i = Raise IndexError.
Proof. intros Hi. unfold list_get. by rewrite (proj2 (lookup_ge_None l i) Hi). Qed.

Lemma list_get_raises_IndexError {A : Type} (l : list A) (i : nat) (e : pyexn) :
  list_get l i = Raise e -> e = IndexError.
Proof. unfold list_get. destruct (l !! i); naive_solver. Qed.

(** The loop over all the chunks runs off the end of a shorter array. *)
Lemma build_granular_short `{Models} (text_chunks : list Chunk) (embeddings : list Vec)
    (cluster_assignment : list (option Z)) :
  forall i granular_embeddings,
    i <= length embeddings ->
    length embeddings < i + length text_chunks ->
    build_granular i text_chunks embeddings cluster_assignment granular_embeddings
    = Raise IndexError.
Proof.
  induction text_chunks as [|chunk rest IH]; intros i acc Hle Hlt; simpl in *; [lia|].
  destruct (decide (i < length embeddings)) as [Hi|Hi].
  - destruct (list_get embeddings i) as [embedding|e] eqn:Hemb.
    + destruct (list_get cluster_assignment i) as [cluster|e] eqn:Hcl.
      * cbn [mbind exc_bind]. apply IH; lia.
      * cbn [mbind exc_bind]. by rewrite (list_get_raises_IndexError _ _ _ Hcl).
    + cbn [mbind exc_bind]. by rewrite (list_get_raises_IndexError _ _ _ Hemb).
  - rewrite (list_get_ge embeddings i) by lia. reflexivity.
Qed.

Lemma filter_drops_one {A : Type} (f : A -> bool) (l : list A) (x : A) :
  In x l -> f x = false -> length (List.filter f l) < length l.
Proof.
  induction l as [|y l IH]; intros Hin Hfx; [done|]. simpl.
  destruct Hin as [->|Hin].
  - rewrite Hfx. pose proof (filter_length_le f l). lia.
  - specialize (IH Hin Hfx). destruct (f y); simpl; lia.
Qed.

Lemma foldl_map_compose {A B C : Type} (g : C -> B -> C) (f : A -> B) (l : list A) (c : C) :
  foldl g c (map f l) = foldl (fun c x => g c (f x)) c l.
Proof. revert c. induction l as [|x l IH]; intros c; simpl; [done|apply IH]. Qed.

Lemma assign_clusters_writes (clusters : list (Z * list nat))
    (cluster_assignment : list (option Z)) :
  assign_clusters clusters cluster_assignment
  = apply_writes (cluster_writes clusters) (Ok cluster_assignment).
Proof.
  unfold assign_clusters, apply_writes. generalize (Ok cluster_assignment) as acc.
  induction clusters as [|[label idxs] clusters IH]; intros acc; [done|].
  cbn [foldl cluster_writes flat_map]. rewrite foldl_app, foldl_map_compose.
  apply IH.
Qed.

Lemma setdefault_append_writes clusters label idx :
  cluster_writes (setdefault_append clusters label idx)
  ≡ₚ cluster_writes clusters ++ [(idx, label)].
Proof.
  induction clusters as [|[l idxs] clusters IH]; [done|].
  cbn [setdefault_append]. destruct (Z.eqb_spec l label) as [->|Hne].
  - cbn [cluster_writes flat_map fst snd]. rewrite map_app. cbn [map].
    generalize (map (fun idx0 : nat => (idx0, label)) idxs) as A.
    generalize (flat_map (fun li : Z * list nat => map (fun idx0 => (idx0, li.1)) li.2)
                         clusters) as B.
    intros B A. rewrite <- !(assoc_L (++)).
    apply Permutation_app_head, Permutation_app_comm.
  - cbn [cluster_writes flat_map fst snd]. fold (cluster_writes clusters).
    fold (cluster_writes (setdefault_append clusters label idx)).
    rewrite IH. by rewrite (assoc_L (++)).
Qed.

Lemma clusters_fold_writes (pairs : list (nat * Z)) (clusters : list (Z * list nat)) :
  cluster_writes (foldl (fun clusters il => setdefault_append clusters il.2 il.1)
                        clusters pairs)
  ≡ₚ cluster_writes clusters ++ pairs.
Proof.
  revert clusters. induction pairs as [|[idx label] pairs IH]; intros clusters.
  - by rewrite app_nil_r.
  - cbn [foldl]. rewrite IH. cbn [fst snd]. rewrite setdefault_append_writes.
    by rewrite <- app_assoc.
Qed.

(** Writes within bounds succeed; an index nobody writes keeps its value, an
    index written with a single label holds that label. *)
Lemma apply_writes_spec (writes : list (nat * Z)) (a : list (option Z)) :
  (forall w, w ∈ writes -> w.1 < length a) ->
  exists a',
    apply_writes writes (Ok a) = Ok a'
    /\ length a' = length a
    /\ (forall j, (forall l, (j, l) ∉ writes) -> a' !! j = a !! j)
    /\ (forall j l, (j, l) ∈ writes -> (forall l', (j, l') ∈ writes -> l' = l) ->
                    a' !! j = Some (Some l)).
Proof.
  induction writes as [|[i l] writes IH] using rev_ind; intros Hbound.
  - exists a. split_and!; [done..|]. intros j l Hin. by apply elem_of_nil in Hin.
  - destruct IH as (a' & Hrun & Hlen & Hkeep & Hset).
    { intros w Hw. apply Hbound, elem_of_app. by left. }
    exists (<[i := Some l]> a').
    assert (i < length a') as Hi.
    { rewrite Hlen. apply (Hbound (i, l)), elem_of_app. right. by apply list_elem_of_singleton. }
    split_and!.
    + unfold apply_writes in *. rewrite foldl_app, Hrun. cbn [foldl mbind exc_bind fst snd].
      unfold list_set. by rewrite decide_True.
    + by rewrite length_insert.
    + intros j Hnone. destruct (decide (i = j)) as [->|Hij].
      { destruct (Hnone l). apply elem_of_app. right. by apply list_elem_of_singleton. }
      rewrite list_lookup_insert_ne by done. apply Hkeep.
      intros l' Hin. apply (Hnone l'), elem_of_app. by left.
    + intros j l0 Hin Huniq. destruct (decide (i = j)) as [->|Hij].
      { rewrite list_lookup_insert_eq by done.
        rewrite (Huniq l); [done|]. apply elem_of_app. right.
        by apply list_elem_of_singleton. }
      rewrite list_lookup_insert_ne by done.
      apply elem_of_app in Hin as [Hin|Hin%list_elem_of_singleton]; [|naive_solver].
      apply Hset; [done|]. intros l' Hl'. apply Huniq, elem_of_app. by left.
Qed.

(** The dictionary of clusters, written back, is the list of labels. *)
Lemma assign_clusters_roundtrip (cluster_labels : list Z) :
  assign_clusters
    (foldl (fun clusters il => setdefault_append clusters il.2 il.1)
           [] (imap (fun idx label => (idx, label)) cluster_labels))
    (replicate (length cluster_labels) None)
  = Ok (map Some cluster_labels).
Proof.
  rewrite assign_clusters_writes.
  set (writes := cluster_writes _).
  assert (forall j l, (j, l) ∈ writes <-> cluster_labels !! j = Some l) as Hwrites.
  { intros j l. subst writes. rewrite clusters_fold_writes. cbn [cluster_writes flat_map app].
    rewrite elem_of_lookup_imap. split.
    - intros (i & y & [= -> ->] & Hy). done.
    - intros Hl. by exists j, l. }
  destruct (apply_writes_spec writes (replicate (length cluster_labels) None))
    as (a' & -> & Hlen & Hkeep & Hset).
  { intros [j l] Hin%Hwrites. rewrite length_replicate. by eapply lookup_lt_Some. }
  f_equal. apply list_eq. intros j. rewrite list_lookup_fmap.
  destruct (cluster_labels !! j) as [l|] eqn:Hj; simpl.
  - apply Hset; [by apply Hwrites|]. intros l' Hl'%Hwrites. congruence.
  - rewrite Hkeep.
    + apply lookup_replicate_None. apply lookup_ge_None in Hj. lia.
    + intros l Hl%Hwrites. congruence.
Qed.

(** The assignments raise nothing but [IndexError]. *)
Lemma apply_writes_raises_IndexError (writes : list (nat * Z)) (a : list (option Z))
    (e : pyexn) :
  apply_writes writes (Ok a) = Raise e -> e = IndexError.
Proof.
  unfold apply_writes. induction writes as [|w writes IH] using rev_ind; [done|].
  rewrite foldl_app. cbn [foldl].
  destruct (foldl _ (Ok a) writes) as [a'|e'].
  - cbn [mbind exc_bind]. unfold list_set. case_decide; naive_solver.
  - cbn [mbind exc_bind]. intros [= <-]. by apply IH.
Qed.

(** C1 (the code departs from the claim). The blank chunks are filtered out
    before embedding, but the loop that builds the output runs over all the
    chunks and indexes the vectors and the cluster labels of the surviving
    ones by position in the unfiltered list. So no label is re-associated
    with the chunk it belongs to once a chunk was filtered: with an
    embedding model that returns one vector per text, whenever a blank chunk
    and a non-blank chunk are both present the block raises and produces no
    output; when the model and the clustering themselves return, what it
    raises is the [IndexError] of the index reaching the number of vectors. *)
Theorem embedding_block_raises_on_blank_chunk `{Models} (num_clusters : Z)
    (text_chunks : list Chunk) (blank kept : Chunk) :
  (forall texts embeddings,
      model_encode texts = Ok embeddings -> length embeddings = length texts) ->
  In blank text_chunks -> is_blank (source blank) = true ->
  In kept text_chunks -> is_blank (source kept) = false ->
  length (texts_for_embedding text_chunks) < length text_chunks
  /\ raises (embed_chunks num_clusters text_chunks)
  /\ (forall embeddings cluster_labels,
        model_encode (texts_for_embedding text_chunks) = Ok embeddings ->
        kmeans_fit_predict embeddings num_clusters = Ok cluster_labels ->
        embed_chunks num_clusters text_chunks = Raise IndexError).
Proof.
  intros Hencode Hblank_in Hblank Hkept_in Hkept. unfold embed_chunks, raises.
  set (texts := texts_for_embedding text_chunks).
  assert (length texts < length text_chunks) as Hshort.
  { subst texts. unfold texts_for_embedding. rewrite length_map.
    apply (filter_drops_one _ _ blank); [done|]. by rewrite Hblank. }
  assert (texts <> []) as Hne.
  { subst texts. unfold texts_for_embedding. intros Hnil.
    apply map_eq_nil in Hnil.
    assert (In kept (List.filter (fun chunk => negb (is_blank (source chunk))) text_chunks))
      as Hin by (apply filter_In; by rewrite Hkept).
    by rewrite Hnil in Hin. }
  rewrite bool_decide_eq_false_2 by done.
  split; [done|]. split.
  - destruct (model_encode texts) as [embeddings|e] eqn:Henc; [|by eexists].
    apply Hencode in Henc. cbn [mbind exc_bind].
    destruct (cluster_embeddings embeddings num_clusters) as [clusters|e]; [|by eexists].
    cbn [mbind exc_bind].
    destruct (assign_clusters clusters _) as [cluster_assignment|e]; [|by eexists].
    cbn [mbind exc_bind].
    rewrite build_granular_short by lia. by eexists.
  - intros embeddings cluster_labels Henc Hfit. rewrite Henc. cbn [mbind exc_bind].
    apply Hencode in Henc. unfold cluster_embeddings. rewrite Hfit.
    cbn [mbind exc_bind mret exc_ret].
    destruct (assign_clusters _ _) as [cluster_assignment|e] eqn:Hassign.
    + cbn [mbind exc_bind]. by rewrite build_granular_short by lia.
    + cbn [mbind exc_bind]. rewrite assign_clusters_writes in Hassign.
      by rewrite (apply_writes_raises_IndexError _ _ _ Hassign).
Qed.

Lemma embedding_block_raises_on_blank_chunk_witness :
  @embedding_block Demo.models 1
     [Demo.plain_file "empty.txt" ""; Demo.plain_file "notes.txt" "x"]
  = Raise IndexError.
Proof.
  eapply (@embedding_block_raises_on_blank_chunk Demo.models 1 _
            (file_chunk (Demo.plain_file "empty.txt" ""))
            (file_chunk (Demo.plain_file "notes.txt" "x"))).
  - intros texts embeddings [= <-]. apply length_map.
  - by left.
  - reflexivity.
  - right. by left.
  - reflexivity.
  - reflexivity.
  - reflexivity.
Defined.

Section EmbeddingExamples.
#[local] Existing Instance Demo.models.

(** The run on an empty file followed by a file holding "x": one text is
    embedded, the first output entry pairs the empty chunk with the vector of
    "x", and the second index is out of range. *)
Example blank_then_text_raises :
  embedding_block 1 [Demo.plain_file "empty.txt" ""; Demo.plain_file "notes.txt" "x"]
  = Raise IndexError.
Proof. reflexivity. Qed.

Example text_then_blank_raises :
  embedding_block 1 [Demo.plain_file "notes.txt" "x"; Demo.plain_file "empty.txt" ""]
  = Raise IndexError.
Proof. reflexivity. Qed.

Example no_blank_chunk_succeeds :
  embedding_block 1 [Demo.plain_file "notes.txt" "x"; Demo.plain_file "b.txt" "yz"]
  = Ok (Some [ {| g_source := "x"; g_metadata := mkMetadata "notes.txt" "notes.txt" TFile None;
                  g_embedding := 1; g_cluster := Some 0%Z |};
               {| g_source := "yz"; g_metadata := mkMetadata "b.txt" "b.txt" TFile None;
                  g_embedding := 2; g_cluster := Some 0%Z |} ]).
Proof. reflexivity. Qed.

Example only_blank_chunks_skip :
  embedding_block 1 [Demo.plain_file "empty.txt" ""] = Ok None.
Proof. reflexivity. Qed.

End EmbeddingExamples.

(** ** The embedding block when nothing is filtered *)

Lemma filter_keeps_all {A : Type} (f : A -> bool) (l : list A) :
  Forall (fun x => f x = true) l -> List.filter f l = l.
Proof.
  induction 1 as [|x l Hx _ IH]; [done|]. simpl. by rewrite Hx, IH.
Qed.

Lemma build_granular_aligned `{Models} (text_chunks : list Chunk) :
  forall (embeddings : list Vec) (cluster_labels : list Z)
         (seen_embeddings : list Vec) (seen_labels : list Z)
         (granular_embeddings : list Granular),
    length seen_embeddings = length seen_labels ->
    length embeddings = length text_chunks ->
    length cluster_labels = length text_chunks ->
    build_granular (length seen_embeddings) text_chunks
      (seen_embeddings ++ embeddings) (map Some (seen_labels ++ cluster_labels))
      granular_embeddings
    = Ok (granular_embeddings ++ aligned_output text_chunks embeddings cluster_labels).
Proof.
  induction text_chunks as [|chunk rest IH];
    intros embeddings labels seen_e seen_l acc Hseen Hemb Hlab.
  - destruct embeddings, labels; try done. simpl. by rewrite app_nil_r.
  - destruct embeddings as [|e embeddings], labels as [|l labels]; try done.
    cbn [build_granular]. unfold list_get.
    rewrite list_lookup_middle by done.
    rewrite list_lookup_fmap, Hseen, list_lookup_middle by done.
    cbn [mbind exc_bind fmap option_fmap option_map].
    specialize (IH embeddings labels (seen_e ++ [e]) (seen_l ++ [l])
                  (acc ++ [{| g_source := source chunk; g_metadata := metadata chunk;
                              g_embedding := e; g_cluster := Some l |}])).
    rewrite !length_app in IH. simpl in IH.
    rewrite <- !app_assoc in IH. simpl in IH.
    replace (S (length seen_l)) with (length seen_l + 1) by lia.
    rewrite <- Hseen at 1. rewrite IH by (simpl in *; lia).
    reflexivity.
Qed.

(** X16. When no chunk is blank, and the model and the clustering return one
    vector and one label per text, every chunk gets its own vector and its
    own label. *)
Lemma embed_chunks_without_blank `{Models} (num_clusters : Z) (text_chunks : list Chunk)
    (embeddings : list Vec) (cluster_labels : list Z) :
  text_chunks <> [] ->
  Forall (fun chunk => is_blank (source chunk) = false) text_chunks ->
  model_encode (map source text_chunks) = Ok embeddings ->
  length embeddings = length text_chunks ->
  kmeans_fit_predict embeddings num_clusters = Ok cluster_labels ->
  length cluster_labels = length text_chunks ->
  embed_chunks num_clusters text_chunks
  = Ok (Some (aligned_output text_chunks embeddings cluster_labels)).
Proof.
  intros Hne Hall Henc Hemb Hfit Hlab. unfold embed_chunks, texts_for_embedding.
  rewrite filter_keeps_all by (eapply Forall_impl; [done|]; by intros chunk ->).
  rewrite bool_decide_eq_false_2 by (by destruct text_chunks).
  rewrite Henc. cbn [mbind exc_bind]. unfold cluster_embeddings. rewrite Hfit.
  cbn [mbind exc_bind mret exc_ret]. rewrite length_map, <- Hlab.
  rewrite assign_clusters_roundtrip. cbn [mbind exc_bind].
  pose proof (build_granular_aligned text_chunks embeddings cluster_labels [] [] []
                eq_refl Hemb Hlab) as Hbuild.
  simpl in Hbuild. by rewrite Hbuild.
Qed.

(** * Further properties of the code *)

(** ** Merging scan results *)

Lemma combine_results_fold (init : ScanResult) (results_list : list ScanResult) :
  let combined :=
    foldl (fun combined res =>
             {| repository_path := repository_path combined;
                total_files := total_files combined + total_files res;
                total_size_bytes := total_size_bytes combined + total_size_bytes res;
                files := files combined ++ files res;
                directory_structure :=
                  foldl (fun ds kv => dict_extend ds kv.1 kv.2)
                        (directory_structure combined) (directory_structure res) |})
          init results_list in
  total_files combined = total_files init + sum_list (map total_files results_list)
  /\ total_size_bytes combined
     = total_size_bytes init + sum_list (map total_size_bytes results_list)
  /\ files combined = files init ++ concat (map files results_list)
  /\ directory_structure combined
     = foldl (fun ds kv => dict_extend ds kv.1 kv.2) (directory_structure init)
             (concat (map directory_structure results_list)).
Proof.
  revert init. induction results_list as [|res results IH]; intros init; simpl.
  - by rewrite !Nat.add_0_r, app_nil_r.
  - destruct (IH {| repository_path := repository_path init;
                    total_files := total_files init + total_files res;
                    total_size_bytes := total_size_bytes init + total_size_bytes res;
                    files := files init ++ files res;
                    directory_structure :=
                      foldl (fun ds kv => dict_extend ds kv.1 kv.2)
                            (directory_structure init) (directory_structure res) |})
      as (Hn & Hs & Hf & Hd).
    cbv zeta in Hn, Hs, Hf, Hd. simpl in Hn, Hs, Hf, Hd.
    rewrite Hn, Hs, Hf, Hd. split_and!; [lia|lia|by rewrite <- app_assoc|].
    by rewrite foldl_app.
Qed.

(** X1. The merged result is the plain sum and concatenation of its inputs:
    [total_files] and [total_size_bytes] are the sums of the inputs' fields
    (the file lists are not recounted), and [files] is the inputs' file lists
    appended in the order of the inputs. Merging no result gives zero totals
    and no file. *)
Theorem combine_results_sums_and_concatenates (results_list : list ScanResult) :
  total_files (combine_results results_list) = sum_list (map total_files results_list)
  /\ total_size_bytes (combine_results results_list)
     = sum_list (map total_size_bytes results_list)
  /\ files (combine_results results_list) = concat (map files results_list)
  /\ (forall more,
        files (combine_results (results_list ++ more))
        = files (combine_results results_list) ++ files (combine_results more)).
Proof.
  assert (forall l, total_files (combine_results l) = sum_list (map total_files l)
                    /\ total_size_bytes (combine_results l)
                       = sum_list (map total_size_bytes l)
                    /\ files (combine_results l) = concat (map files l)) as Hclosed.
  { intros l. unfold combine_results.
    destruct (combine_results_fold
                {| repository_path := "Multiple Sources"; total_files := 0;
                   total_size_bytes := 0; files := []; directory_structure := [] |} l)
      as (Hn & Hs & Hf & _).
    cbv zeta in Hn, Hs, Hf. by rewrite Hn, Hs, Hf. }
  destruct (Hclosed results_list) as (Hn & Hs & Hf). split_and!; [done..|].
  intros more. destruct (Hclosed more) as (_ & _ & Hf').
  destruct (Hclosed (results_list ++ more)) as (_ & _ & Hf'').
  by rewrite Hf, Hf', Hf'', map_app, concat_app.
Qed.

Lemma dict_extend_keys d key vs :
  map fst (dict_extend d key vs)
  = if mem key (map fst d) then map fst d else map fst d ++ [key].
Proof.
  induction d as [|[k ws] d IH]; [done|]. cbn [dict_extend map fst mem existsb].
  rewrite (String.eqb_sym key k). destruct (String.eqb_spec k key) as [->|Hne]; [done|].
  cbn [map fst orb]. rewrite IH. fold (mem key (map fst d)). by destruct (mem key _).
Qed.

Lemma dict_extend_NoDup d key vs :
  NoDup (map fst d) -> NoDup (map fst (dict_extend d key vs)).
Proof.
  intros Hd. rewrite dict_extend_keys. destruct (mem key (map fst d)) eqn:Hm; [done|].
  apply NoDup_app. split_and!; [done| |apply NoDup_singleton].
  intros k Hk ->%list_elem_of_singleton. apply mem_not_In in Hm.
  by apply Hm, list_elem_of_In.
Qed.

Lemma dict_get_extend d key vs key' :
  dict_get (dict_extend d key vs) key'
  = if String.eqb key key' then dict_get d key' ++ vs else dict_get d key'.
Proof.
  unfold dict_get. induction d as [|[k ws] d IH].
  - cbn [dict_extend List.find fst snd]. by destruct (String.eqb key key').
  - cbn [dict_extend]. destruct (String.eqb_spec k key) as [->|Hne].
    + cbn [List.find fst snd]. by destruct (String.eqb key key').
    + cbn [List.find fst snd]. destruct (String.eqb_spec k key') as [->|Hne'].
      * by rewrite (proj2 (String.eqb_neq key key')).
      * apply IH.
Qed.

Lemma dict_extend_all (entries : list (string * list string)) :
  forall d key,
    NoDup (map fst d) ->
    let merged := foldl (fun ds kv => dict_extend ds kv.1 kv.2) d entries in
    NoDup (map fst merged)
    /\ dict_get merged key = dict_get d key ++ dict_all entries key
    /\ (forall k, In k (map fst merged) <-> In k (map fst d) \/ In k (map fst entries)).
Proof.
  induction entries as [|[k vs] entries IH]; intros d key Hd; cbn [foldl].
  - cbv zeta. unfold dict_all. simpl. rewrite app_nil_r. naive_solver.
  - destruct (IH (dict_extend d k vs) key (dict_extend_NoDup d k vs Hd))
      as (Hnd & Hget & Hkeys).
    cbv zeta in *. cbn [fst snd] in *. split_and!; [done| |].
    + rewrite Hget, dict_get_extend. unfold dict_all. cbn [List.filter fst].
      destruct (String.eqb k key); cbn [map concat snd]; by rewrite <- ?app_assoc.
    + intros k'. rewrite Hkeys, dict_extend_keys. cbn [map fst In].
      destruct (mem k (map fst d)) eqn:Hm.
      * apply mem_In in Hm. naive_solver.
      * rewrite in_app_iff. simpl. naive_solver.
Qed.

Lemma filter_none {A : Type} (f : A -> bool) (l : list A) :
  (forall x, In x l -> f x = false) -> List.filter f l = [].
Proof.
  induction l as [|x l IH]; intros Hall; [done|]. simpl.
  rewrite (Hall x) by (by left). apply IH. intros y Hy. apply Hall. by right.
Qed.

Lemma dict_all_unique d key :
  NoDup (map fst d) -> dict_all d key = dict_get d key.
Proof.
  unfold dict_all, dict_get. induction d as [|[k vs] d IH]; intros Hd; [done|].
  apply NoDup_cons in Hd as [Hk Hd]. cbn [List.filter List.find fst snd].
  destruct (String.eqb_spec k key) as [->|Hne]; [|by apply IH].
  cbn [map concat snd]. rewrite filter_none; [by rewrite app_nil_r|].
  intros [k' vs'] Hin. cbn [fst]. apply String.eqb_neq. intros ->.
  apply Hk, list_elem_of_In, in_map_iff. by exists (key, vs').
Qed.

Lemma dict_all_concat (ds : list (list (string * list string))) key :
  dict_all (concat ds) key = concat (map (fun d => dict_all d key) ds).
Proof.
  unfold dict_all. induction ds as [|d ds IH]; [done|].
  cbn [concat map]. by rewrite List.filter_app, map_app, concat_app, IH.
Qed.

(** X2. In the merged [directory_structure] every directory occurs once, the
    directories are those of the inputs, and the file names under a directory
    are the inputs' file names for that directory, appended in the order of
    the inputs: the same directory of two scanned roots is one entry holding
    the files of both. *)
Theorem combine_results_merges_directories (results_list : list ScanResult)
    (dir : string) :
  NoDup (map fst (directory_structure (combine_results results_list)))
  /\ (In dir (map fst (directory_structure (combine_results results_list)))
      <-> exists res, In res results_list /\ In dir (map fst (directory_structure res)))
  /\ dict_get (directory_structure (combine_results results_list)) dir
     = concat (map (fun res => dict_all (directory_structure res) dir) results_list)
  /\ (forall res, NoDup (map fst (directory_structure res)) ->
                  dict_all (directory_structure res) dir
                  = dict_get (directory_structure res) dir).
Proof.
  unfold combine_results.
  destruct (combine_results_fold
              {| repository_path := "Multiple Sources"; total_files := 0;
                 total_size_bytes := 0; files := []; directory_structure := [] |}
              results_list) as (_ & _ & _ & ->).
  cbn [directory_structure].
  destruct (dict_extend_all (concat (map directory_structure results_list)) [] dir
              (NoDup_nil_2 : NoDup (map fst []))) as (Hnd & Hget & Hkeys).
  cbv zeta in *. split_and!; [done| | |intros res; apply dict_all_unique].
  - rewrite Hkeys. cbn [map In]. split.
    + intros [[]|Hin]. apply in_map_iff in Hin as ([k vs] & <- & Hin).
      apply in_concat in Hin as (d & Hd & Hin).
      apply in_map_iff in Hd as (res & <- & Hres).
      exists res. split; [done|]. apply in_map_iff. by exists (k, vs).
    + intros (res & Hres & Hin). right.
      apply in_map_iff in Hin as ([k vs] & <- & Hin). apply in_map_iff.
      exists (k, vs). split; [done|]. apply in_concat.
      exists (directory_structure res). split; [|done]. by apply in_map.
  - rewrite Hget, dict_all_concat, map_map. reflexivity.
Qed.

(** ** Grouping the results by directory *)

Lemma dict_append_extend d key v : dict_append d key v = dict_extend d key [v].
Proof.
  induction d as [|[k vs] d IH]; [done|]. cbn [dict_append dict_extend].
  by rewrite IH.
Qed.

Lemma collect_structure_fold (completed : list (exc FileRecord)) (acc : ScanAcc) :
  acc_directory_structure (foldl collect_one acc completed)
  = foldl (fun ds kv => dict_extend ds kv.1 kv.2) (acc_directory_structure acc)
          (map (fun r => (PosixPath.dirname (relative_path r), [filename r]))
               (returned completed)).
Proof.
  revert acc. induction completed as [|result completed IH]; intros acc; [done|].
  cbn [foldl]. rewrite IH. destruct result as [file_info|e]; [|done].
  cbn [returned omap map foldl collect_one acc_directory_structure fst snd].
  by rewrite dict_append_extend.
Qed.

Lemma dict_all_singletons (records : list FileRecord) (dir : string) :
  dict_all (map (fun r => (PosixPath.dirname (relative_path r), [filename r])) records) dir
  = names_in_dir dir records.
Proof.
  unfold dict_all, names_in_dir. induction records as [|r records IH]; [done|].
  cbn [map List.filter fst].
  destruct (String.eqb (PosixPath.dirname (relative_path r)) dir); [|done].
  cbn [map concat snd app]. by rewrite IH.
Qed.

Lemma returned_Permutation (completed completed' : list (exc FileRecord)) :
  completed ≡ₚ completed' -> returned completed ≡ₚ returned completed'.
Proof. intros Hperm. unfold returned. by rewrite Hperm. Qed.

Lemma names_in_dir_Permutation dir (records records' : list FileRecord) :
  records ≡ₚ records' -> names_in_dir dir records ≡ₚ names_in_dir dir records'.
Proof.
  intros Hperm. unfold names_in_dir. apply Permutation_map.
  induction Hperm as [|r l l' _ IH|r r' l|l l' l'' _ IH1 _ IH2]; simpl.
  - done.
  - destruct (String.eqb _ dir); [by constructor|done].
  - destruct (String.eqb (PosixPath.dirname (relative_path r)) dir),
             (String.eqb (PosixPath.dirname (relative_path r')) dir);
      try done. apply perm_swap.
  - by etrans.
Qed.

Lemma collect_structure (completed : list (exc FileRecord)) (dir : string) :
  NoDup (map fst (acc_directory_structure (collect completed)))
  /\ (In dir (map fst (acc_directory_structure (collect completed)))
      <-> exists r, In r (returned completed)
                    /\ PosixPath.dirname (relative_path r) = dir)
  /\ dict_get (acc_directory_structure (collect completed)) dir
     = names_in_dir dir (returned completed).
Proof.
  unfold collect. rewrite collect_structure_fold. cbn [empty_acc acc_directory_structure].
  destruct (dict_extend_all
              (map (fun r => (PosixPath.dirname (relative_path r), [filename r]))
                   (returned completed)) [] dir (NoDup_nil_2 : NoDup (map fst [])))
    as (Hnd & Hget & Hkeys).
  cbv zeta in *. split_and!; [done| |].
  - rewrite Hkeys, map_map. cbn [map In fst]. rewrite in_map_iff. naive_solver.
  - rewrite Hget. apply dict_all_singletons.
Qed.

(** X3. The [directory_structure] of a scan has one entry per directory that
    holds a returned record, and lists under a directory exactly the file
    names of the returned records whose relative path lies in it, in
    completion order. Another completion order gives, for every directory,
    the same names up to order. *)
Theorem scan_groups_files_by_directory `{World} (repo_path : string)
    (ignore_spec : string -> bool) (ignore_patterns include_extensions : list string)
    (project_type : string) (llm_hunt : bool) (all_files : list string) (dir : string) :
  let result := scan_candidates repo_path ignore_spec ignore_patterns include_extensions
                  project_type llm_hunt all_files in
  NoDup (map fst (directory_structure result))
  /\ (In dir (map fst (directory_structure result))
      <-> exists r, In r (files result) /\ PosixPath.dirname (relative_path r) = dir)
  /\ dict_get (directory_structure result) dir = names_in_dir dir (files result)
  /\ (forall completed completed',
        completed ≡ₚ completed' ->
        dict_get (acc_directory_structure (collect completed)) dir
        ≡ₚ dict_get (acc_directory_structure (collect completed')) dir).
Proof.
  intros result. subst result. unfold scan_candidates.
  cbn [directory_structure files].
  set (completed := as_completed _).
  assert (acc_repo_files (collect completed) = returned completed) as ->.
  { unfold collect. by rewrite collect_records_returned. }
  destruct (collect_structure completed dir) as (Hnd & Hkeys & Hget).
  split_and!; [done..|].
  intros c c' Hperm.
  destruct (collect_structure c dir) as (_ & _ & ->).
  destruct (collect_structure c' dir) as (_ & _ & ->).
  by apply names_in_dir_Permutation, returned_Permutation.
Qed.

(** ** Source paths that are files *)

Lemma scan_single_file_raises `{World} (path : string) : raises (scan_single_file path).
Proof.
  unfold scan_single_file, raises. destruct (getsize path); cbn [mbind exc_bind]; by eexists.
Qed.

Lemma scan_sources_ok_iff `{World} (args : Args) (ignore_spec : string -> bool)
    (combined_ignore : list string) (project_type : string) (source_paths : list string) :
  forall scan_results disk,
    (exists r, scan_sources args ignore_spec combined_ignore project_type source_paths
                 scan_results disk = Ok r)
    <-> Forall scannable source_paths.
Proof.
  induction source_paths as [|path rest IH]; intros scan_results disk.
  - split; [by constructor|]. intros _. by eexists.
  - cbn [scan_sources]. rewrite Forall_cons. destruct (isdir path) eqn:Hdir.
    + destruct (scan_directory _ _ _ _ _ _) as [[res disk'] origin].
      rewrite IH. assert (scannable path) by (by left). naive_solver.
    + destruct (isfile path) eqn:Hfile.
      * destruct (scan_single_file_raises path) as [e ->]. cbn [mbind exc_bind].
        split; [by intros [r Hr]|]. intros [[?|?] _]; congruence.
      * rewrite IH. assert (scannable path) by (by right). naive_solver.
Qed.

Lemma scan_sources_count `{World} (args : Args) (ignore_spec : string -> bool)
    (combined_ignore : list string) (project_type : string) (source_paths : list string) :
  forall scan_results disk r,
    scan_sources args ignore_spec combined_ignore project_type source_paths
      scan_results disk = Ok r ->
    length r.1 = length scan_results + length (List.filter isdir source_paths).
Proof.
  induction source_paths as [|path rest IH]; intros scan_results disk r.
  - intros [= <-]. simpl. lia.
  - cbn [scan_sources List.filter]. destruct (isdir path) eqn:Hdir.
    + destruct (scan_directory _ _ _ _ _ _) as [[res disk'] origin].
      intros Hr%IH. rewrite Hr, length_app. simpl. lia.
    + destruct (isfile path).
      * destruct (scan_single_file_raises path) as [e ->]. done.
      * apply IH.
Qed.

(** X4. The loop over the source paths completes exactly when no source path
    is a regular file: a directory is scanned, a path that is neither is
    skipped, but the branch for a file calls [get_file_info] with a keyword
    it does not accept and raises. When the loop completes it has one result
    per directory path; and [main] raises whenever some source path is a
    regular file. *)
Theorem file_source_path_aborts `{World} `{Models}
    (load_gitignore : string -> string -> bool) (args : Args)
    (ignore_spec : string -> bool) (combined_ignore : list string)
    (project_type : string) (source_paths : list string) (disk : Disk) :
  ((exists r, scan_sources args ignore_spec combined_ignore project_type source_paths
                [] disk = Ok r)
   <-> Forall scannable source_paths)
  /\ (forall r, scan_sources args ignore_spec combined_ignore project_type source_paths
                  [] disk = Ok r ->
                length r.1 = length (List.filter isdir source_paths))
  /\ ((exists path, In path source_paths /\ isdir path = false /\ isfile path = true) ->
      raises (main load_gitignore args source_paths disk)).
Proof.
  split_and!.
  - apply scan_sources_ok_iff.
  - intros r Hr. by rewrite (scan_sources_count _ _ _ _ _ _ _ _ Hr).
  - intros (path & Hin & Hdir & Hfile). unfold main, raises.
    destruct source_paths as [|first rest]; [by eexists|].
    destruct (if negb _ then _ else _) as [pt|e]; [|by eexists].
    cbn [mbind exc_bind].
    destruct (scan_sources _ _ _ pt _ _ _) as [scanned|e] eqn:Hscan; [|by eexists].
    assert (Forall scannable (first :: rest)) as Hall.
    { eapply scan_sources_ok_iff. by eexists. }
    rewrite Forall_forall in Hall. specialize (Hall path).
    destruct Hall as [Hd|Hf]; [by apply list_elem_of_In|congruence..].
Qed.

Lemma file_source_path_aborts_witness :
  raises (@main Demo.world Demo.models (fun _ => Demo.no_ignore) Demo.args_no_embeddings
            ["repo"; "repo/a.py"] Demo.empty_disk).
Proof.
  apply (@file_source_path_aborts Demo.world Demo.models (fun _ => Demo.no_ignore)
           Demo.args_no_embeddings Demo.no_ignore [] "generic" ["repo"; "repo/a.py"]
           Demo.empty_disk).
  exists "repo/a.py". split_and!; [right; by left|reflexivity..].
Defined.

(** ** A second run *)

(** X5. The cache is keyed by the absolute path alone. After any run on a
    directory with a writable cache file, a run with caching enabled on a
    path with the same absolute path returns the first run's result from the
    cache and leaves the cache file as it is, whatever the file system, the
    ignore rules, the project type or the hint flag of the second run; this
    also holds when the first run had caching disabled, since it still
    writes the cache. *)
Theorem second_run_hits_cache (first_world second_world : World) (args args' : Args)
    (ignore_spec ignore_spec' : string -> bool) (combined_ignore combined_ignore' : list string)
    (project_type project_type' : string) (disk : Disk) (path path' : string) :
  arg_no_cache args' = false ->
  cache_writable disk = true ->
  @abspath second_world path' = @abspath first_world path ->
  let first := @scan_directory first_world args ignore_spec combined_ignore project_type
                 disk path in
  @scan_directory second_world args' ignore_spec' combined_ignore' project_type'
    first.1.2 path'
  = (first.1.1, first.1.2, FromCache).
Proof.
  intros Hcache Hwritable Hpath first. subst first.
  assert (forall res : ScanResult,
            @repository_path res = @abspath first_world path ->
            @scan_directory second_world args' ignore_spec' combined_ignore'
              project_type' (save_cache res disk) path'
            = (res, save_cache res disk, FromCache)) as Hsaved.
  { intros res Hres. unfold scan_directory, save_cache, load_cache.
    rewrite Hcache, Hwritable. cbn [cache_file].
    by rewrite Hpath, <- Hres, String.eqb_refl. }
  unfold scan_directory at 2 3 4.
  destruct (if arg_no_cache args then None else load_cache disk) as [data|] eqn:Hload.
  - destruct (String.eqb_spec (repository_path data) (@abspath first_world path))
      as [Heq|Hne]; cbn [fst snd].
    + destruct (arg_no_cache args); [done|].
      unfold scan_directory. rewrite Hcache, Hload, Hpath.
      by rewrite (proj2 (String.eqb_eq _ _) Heq).
    + by apply Hsaved.
  - cbn [fst snd]. by apply Hsaved.
Qed.

Lemma second_run_hits_cache_witness :
  let first := @scan_directory Demo.world Demo.args_no_embeddings Demo.no_ignore []
                 "generic" Demo.empty_disk "repo" in
  @scan_directory Demo.broken_world Demo.args (fun _ => true) ["*"] "python_backend"
    first.1.2 "repo"
  = (first.1.1, first.1.2, FromCache)
  /\ total_files first.1.1 = 5.
Proof.
  intros first. split; [|reflexivity].
  by apply (second_run_hits_cache Demo.world Demo.broken_world Demo.args_no_embeddings
              Demo.args Demo.no_ignore (fun _ => true) [] ["*"] "generic" "python_backend"
              Demo.empty_disk "repo" "repo").
Defined.

(** ** Project classification *)

(** X6. The classifier decides by first match: a listing with any Python
    packaging manifest is "python_backend" even when a JS package manifest is
    present too; without one, a listing with [package.json] is "frontend";
    every other listing is "generic". A directory that cannot be listed makes
    the detection raise. *)
Theorem classify_listing_first_match `{World} (listing : list string)
    (repo_path : string) :
  (classify_listing listing = "python_backend"
   <-> exists manifest, In manifest PYTHON_MANIFESTS /\ In manifest listing)
  /\ (classify_listing listing = "frontend"
      <-> (forall manifest, In manifest PYTHON_MANIFESTS -> ~ In manifest listing)
          /\ In "package.json" listing)
  /\ (classify_listing listing = "generic"
      <-> (forall manifest, In manifest PYTHON_MANIFESTS -> ~ In manifest listing)
          /\ ~ In "package.json" listing)
  /\ (forall files, listdir repo_path = Ok files ->
                    detect_project_type repo_path = Ok (classify_listing files))
  /\ (forall e, listdir repo_path = Raise e -> detect_project_type repo_path = Raise e).
Proof.
  unfold classify_listing. fold PYTHON_MANIFESTS.
  destruct (existsb _ PYTHON_MANIFESTS) eqn:Hpy.
  - apply existsb_exists in Hpy as (manifest & Hin & Hmem%mem_In).
    split_and!; [naive_solver| | | |].
    + split; [done|]. intros [Hnone _]. by destruct (Hnone manifest Hin).
    + split; [done|]. intros [Hnone _]. by destruct (Hnone manifest Hin).
    + intros files Hls. unfold detect_project_type. by rewrite Hls.
    + intros e Hls. unfold detect_project_type. by rewrite Hls.
  - assert (forall manifest, In manifest PYTHON_MANIFESTS -> ~ In manifest listing) as Hnone.
    { intros manifest Hin Hl. apply mem_In in Hl.
      assert (existsb (fun f => mem f listing) PYTHON_MANIFESTS = true) as Hex
        by (apply existsb_exists; eauto).
      congruence. }
    assert (forall files, listdir repo_path = Ok files ->
                          detect_project_type repo_path = Ok (classify_listing files))
      as Hok.
    { intros files Hls. unfold detect_project_type. by rewrite Hls. }
    assert (forall e, listdir repo_path = Raise e -> detect_project_type repo_path = Raise e)
      as Hraise.
    { intros e Hls. unfold detect_project_type. by rewrite Hls. }
    destruct (mem "package.json" listing) eqn:Hjs;
      [apply mem_In in Hjs | apply mem_not_In in Hjs].
    + split_and!; [|by split|split; [done|by intros [_ ?]]|done..].
      split; [done|]. intros (manifest & Hin & Hl). by destruct (Hnone manifest Hin).
    + split_and!; [|split; [done|by intros [_ ?]]|by split|done..].
      split; [done|]. intros (manifest & Hin & Hl). by destruct (Hnone manifest Hin).
Qed.

(** ** Extensions *)

Lemma rfind1_zero c p : PosixPath.rfind1 c p = 0 -> count_char c p = 0.
Proof.
  induction p as [|a p IH]; [done|]. cbn [PosixPath.rfind1 count_char].
  destruct (PosixPath.rfind1 c p); [|done].
  destruct (Ascii.eqb a c); [done|]. intros _. by rewrite IH.
Qed.

(** From the last occurrence of [c] on, the text is [c] followed by a text
    without [c]. *)
Lemma drop_rfind1 c p k :
  PosixPath.rfind1 c p = S k ->
  exists rest, PosixPath.drop k p = String c rest /\ count_char c rest = 0.
Proof.
  revert k. induction p as [|a p IH]; intros k; [done|]. cbn [PosixPath.rfind1].
  destruct (PosixPath.rfind1 c p) as [|k'] eqn:Hr.
  - destruct (Ascii.eqb_spec a c) as [->|]; [|done]. intros [= <-].
    exists p. split; [done|]. by apply rfind1_zero.
  - intros [= <-]. cbn [PosixPath.drop]. by apply IH.
Qed.

Lemma splitext_ext_shape p :
  PosixPath.splitext_ext p = ""
  \/ exists rest, PosixPath.splitext_ext p = String PosixPath.dot rest
                  /\ count_char PosixPath.dot rest = 0.
Proof.
  unfold PosixPath.splitext_ext. case_decide as Hlt; [|by left].
  destruct (PosixPath.all_char _ _); [by left|]. right.
  destruct (PosixPath.rfind1 PosixPath.dot p) as [|k] eqn:Hk; [lia|].
  replace (S k - 1) with k by lia. by apply drop_rfind1.
Qed.

Lemma lower_ascii_idempotent a : lower_ascii (lower_ascii a) = lower_ascii a.
Proof. by destruct a as [[] [] [] [] [] [] [] []]. Qed.

Lemma lower_ascii_dot a : Ascii.eqb (lower_ascii a) PosixPath.dot = Ascii.eqb a PosixPath.dot.
Proof. by destruct a as [[] [] [] [] [] [] [] []]. Qed.

Lemma lower_idempotent s : lower (lower s) = lower s.
Proof.
  induction s as [|a s IH]; [done|]. cbn [lower]. by rewrite lower_ascii_idempotent, IH.
Qed.

Lemma count_dot_lower s : count_char PosixPath.dot (lower s) = count_char PosixPath.dot s.
Proof.
  induction s as [|a s IH]; [done|]. cbn [lower count_char].
  by rewrite lower_ascii_dot, IH.
Qed.

Lemma ext_of_shape p :
  lower (ext_of p) = ext_of p
  /\ (ext_of p = ""
      \/ exists rest, ext_of p = String PosixPath.dot rest
                      /\ count_char PosixPath.dot rest = 0).
Proof.
  unfold ext_of. split; [apply lower_idempotent|].
  destruct (splitext_ext_shape p) as [->|(rest & -> & Hrest)]; [by left|].
  right. exists (lower rest). split; [done|]. by rewrite count_dot_lower.
Qed.

(** X7. The extension the filters compare is lower-case and is either empty
    or a dot followed by a text without a dot. So it is never ".d.ts": the
    extension denied for the project type "typescript" matches no file, and
    no candidate is ever rejected by the project-extension filter of a
    "typescript" scan. *)
Theorem typescript_denied_extension_never_matches `{World} (repo_path : string)
    (ignore_spec : string -> bool) (ignore_patterns include_extensions : list string)
    (file_path : string) :
  lower (ext_of file_path) = ext_of file_path
  /\ count_char PosixPath.dot (ext_of file_path) <= 1
  /\ ext_of file_path <> ".d.ts"
  /\ forall ext,
       filter_candidate repo_path ignore_spec ignore_patterns include_extensions
         (get_project_specific_ignore_extensions "typescript") file_path
       <> IgnoredProjectExtension ext.
Proof.
  destruct (ext_of_shape file_path) as [Hlower Hshape].
  assert (count_char PosixPath.dot (ext_of file_path) <= 1) as Hcount.
  { destruct Hshape as [->|(rest & -> & Hrest)]; [simpl; lia|].
    cbn [count_char]. rewrite Hrest. destruct (Ascii.eqb _ _); lia. }
  assert (ext_of file_path <> ".d.ts") as Hne.
  { intros Heq. rewrite Heq in Hcount. vm_compute in Hcount. lia. }
  split_and!; [done..|].
  intros ext Hverdict.
  destruct (filter_candidate_cases repo_path ignore_spec ignore_patterns
              include_extensions (get_project_specific_ignore_extensions "typescript")
              file_path) as (_ & _ & _ & Hproj & _).
  cbv zeta in Hproj. destruct (proj1 Hproj) as (_ & _ & _ & Hin); [by exists ext|].
  simpl in Hin. naive_solver.
Qed.

Lemma lower_ascii_not_upper a : is_upper (lower_ascii a) = false.
Proof. by destruct a as [[] [] [] [] [] [] [] []]. Qed.

Lemma lower_no_upper s : has_ascii_upper (lower s) = false.
Proof.
  induction s as [|c s IH]; [done|]. cbn [lower has_ascii_upper].
  by rewrite lower_ascii_not_upper, IH.
Qed.

Lemma unmatchable_never_ext entry p : unmatchable entry -> ext_of p <> entry.
Proof.
  intros [Hupper|(c & rest & -> & Hc)] Heq.
  - rewrite <- Heq in Hupper. unfold ext_of in Hupper.
    by rewrite lower_no_upper in Hupper.
  - destruct (ext_of_shape p) as [_ [Hempty|(rest' & Hdot & _)]]; congruence.
Qed.

(** X8. The include-extension list is compared as given with the lower-cased
    extension of the file. An entry with one of the letters A to Z, or a
    non-empty one that does not start with a dot, matches no file, whatever
    the letters of the file name: lower-casing leaves none of A to Z and
    keeps the leading dot. When every entry of a non-empty include list is
    such, no candidate at all is submitted. *)
Theorem unmatchable_include_list_excludes_everything `{World} (repo_path : string)
    (ignore_spec : string -> bool) (ignore_patterns include_extensions : list string)
    (project_type : string) (all_files : list string) :
  include_extensions <> [] ->
  Forall unmatchable include_extensions ->
  submitted_files repo_path ignore_spec ignore_patterns include_extensions project_type
    all_files = [].
Proof.
  intros Hne Hall. unfold submitted_files. apply filter_none. intros p _.
  destruct (filter_candidate _ _ _ _ _ p) eqn:Hverdict; try done.
  destruct (filter_candidate_cases repo_path ignore_spec ignore_patterns
              include_extensions (get_project_specific_ignore_extensions project_type) p)
    as (_ & _ & _ & _ & _ & Hsub).
  cbv zeta in Hsub. destruct (proj1 Hsub Hverdict) as (_ & _ & _ & _ & [Hnil|Hin]); [done|].
  rewrite Forall_forall in Hall.
  destruct (unmatchable_never_ext (ext_of p) p); [|done].
  by apply Hall, list_elem_of_In.
Qed.

Lemma unmatchable_include_list_excludes_everything_witness :
  @submitted_files Demo.world "repo" Demo.no_ignore [] [".PY"; "txt"] "generic"
     ["repo/a.py"; "repo/A.PY"; "repo/notes.txt"] = [].
Proof.
  apply (@unmatchable_include_list_excludes_everything Demo.world); [done|].
  constructor; [|constructor; [|constructor]].
  - left. reflexivity.
  - right. exists "t"%char, "xt". split; [reflexivity|]. vm_compute. discriminate.
Defined.

(** ** What a scan result can contain *)

Lemma filters_order_helper `{World} (repo_path : string) (ignore_spec : string -> bool)
    (ignore_patterns include_extensions : list string) (project_type : string)
    (all_files : list string) (file_path : string) :
  In file_path (submitted_files repo_path ignore_spec ignore_patterns include_extensions
                  project_type all_files) ->
  In file_path all_files
  /\ filter_candidate repo_path ignore_spec ignore_patterns include_extensions
       (get_project_specific_ignore_extensions project_type) file_path = Submitted
  /\ ignore_spec (relpath file_path repo_path) = false
  /\ (forall pattern, In pattern ignore_patterns ->
                      fnmatch (PosixPath.basename file_path) pattern = false)
  /\ ~ In (PosixPath.basename file_path) SENSITIVE_FILES.
Proof.
  unfold submitted_files. rewrite filter_In. intros [Hin Hsub].
  destruct (filter_candidate _ _ _ _ _ file_path) eqn:Hverdict; try done.
  destruct (filter_candidate_cases repo_path ignore_spec ignore_patterns
              include_extensions (get_project_specific_ignore_extensions project_type)
              file_path) as (_ & _ & _ & _ & _ & Hcase).
  cbv zeta in Hcase. destruct (proj1 Hcase Hverdict) as (Hgit & Hpat & Hsens & _).
  by split_and!.
Qed.

(** X9. When the thread pool hands back only results of submitted calls,
    every record of a scan result is the record of a candidate that passed
    all the filters: its relative path is not matched by the ignore
    specification, its name matches no command-line pattern and is not a
    sensitive file name ([.env], [.env.local], [.env.production]). *)
Theorem scan_result_holds_only_submitted_files `{World} (repo_path : string)
    (ignore_spec : string -> bool) (ignore_patterns include_extensions : list string)
    (project_type : string) (llm_hunt : bool) (all_files : list string) (r : FileRecord) :
  let futures :=
    map (fun p => Ok (get_file_info p repo_path project_type "python" llm_hunt))
        (submitted_files repo_path ignore_spec ignore_patterns include_extensions
           project_type all_files) in
  (forall result, In result (as_completed futures) -> In result futures) ->
  In r (files (scan_candidates repo_path ignore_spec ignore_patterns include_extensions
                 project_type llm_hunt all_files)) ->
  (exists file_path,
      In file_path all_files
      /\ r = get_file_info file_path repo_path project_type "python" llm_hunt
      /\ filter_candidate repo_path ignore_spec ignore_patterns include_extensions
           (get_project_specific_ignore_extensions project_type) file_path = Submitted)
  /\ ignore_spec (relative_path r) = false
  /\ (forall pattern, In pattern ignore_patterns -> fnmatch (filename r) pattern = false)
  /\ ~ In (filename r) SENSITIVE_FILES.
Proof.
  intros futures Hpool Hin.
  assert (files (scan_candidates repo_path ignore_spec ignore_patterns include_extensions
                   project_type llm_hunt all_files) = returned (as_completed futures))
    as Hfiles.
  { unfold scan_candidates. cbn [files]. unfold collect.
    by rewrite collect_records_returned. }
  rewrite Hfiles in Hin. unfold returned in Hin.
  apply list_elem_of_In, list_elem_of_omap in Hin as (result & Hres & Hr).
  destruct result as [r'|e]; [|done]. injection Hr as ->.
  apply list_elem_of_In, Hpool in Hres. subst futures.
  apply in_map_iff in Hres as (file_path & [= <-] & Hsub).
  destruct (filters_order_helper repo_path ignore_spec ignore_patterns include_extensions
              project_type all_files file_path Hsub) as (Hall & Hverdict & Hgit & Hpat & Hsens).
  split_and!; [by exists file_path|done..].
Qed.

Lemma scan_result_holds_only_submitted_files_witness :
  let r := @get_file_info Demo.world "repo/a.py" "repo" "generic" "python" false in
  In r (files (@scan_candidates Demo.world "repo" Demo.no_ignore ["notes.txt"] [] "generic"
                 false ["repo/a.py"; "repo/.env"; "repo/notes.txt"]))
  /\ ~ In (filename r) SENSITIVE_FILES.
Proof.
  intros r.
  assert (In r (files (@scan_candidates Demo.world "repo" Demo.no_ignore ["notes.txt"] []
                         "generic" false ["repo/a.py"; "repo/.env"; "repo/notes.txt"])))
    as Hin by (by left).
  split; [done|].
  apply (@scan_result_holds_only_submitted_files Demo.world "repo" Demo.no_ignore
           ["notes.txt"] [] "generic" false
           ["repo/a.py"; "repo/.env"; "repo/notes.txt"] r); [|done].
  intros result Hres. by apply in_rev in Hres.
Defined.

(** ** The dependency graph *)

Lemma add_node_ids graph n :
  map gn_id (add_node graph n)
  = if mem (gn_id n) (map gn_id graph) then map gn_id graph
    else map gn_id graph ++ [gn_id n].
Proof.
  induction graph as [|m graph IH]; [done|]. cbn [add_node map mem existsb].
  rewrite (String.eqb_sym (gn_id n)).
  destruct (String.eqb_spec (gn_id m) (gn_id n)) as [Heq|Hne]; cbn [map orb].
  - by rewrite Heq.
  - rewrite IH. fold (mem (gn_id n) (map gn_id graph)). by destruct (mem _ _).
Qed.

Lemma add_node_fresh graph n :
  ~ In (gn_id n) (map gn_id graph) -> add_node graph n = graph ++ [n].
Proof.
  induction graph as [|m graph IH]; intros Hfresh; [done|]. cbn [add_node].
  destruct (String.eqb_spec (gn_id m) (gn_id n)) as [Heq|Hne].
  - destruct Hfresh. by left.
  - rewrite IH; [done|]. intros Hin. apply Hfresh. by right.
Qed.

Lemma add_node_from graph n (known : GraphNode -> Prop) :
  Forall known graph -> known n -> Forall known (add_node graph n).
Proof.
  intros Hgraph Hn. induction Hgraph as [|m graph Hm Hg IH]; [by repeat constructor|].
  cbn [add_node]. destruct (String.eqb _ _); constructor; done.
Qed.

Lemma dependency_graph_fold (functions : list Symbol) :
  forall graph,
    NoDup (map gn_id graph) ->
    let result := foldl (fun graph func => add_node graph (node_of func)) graph functions in
    NoDup (map gn_id result)
    /\ (forall id, In id (map gn_id result)
                   <-> In id (map gn_id graph) \/ In id (map sym_name functions))
    /\ (forall known : GraphNode -> Prop,
          Forall known graph -> Forall (fun func => known (node_of func)) functions ->
          Forall known result)
    /\ (NoDup (map gn_id graph ++ map sym_name functions) ->
        result = graph ++ map node_of functions).
Proof.
  induction functions as [|func functions IH]; intros graph Hnd; cbn [foldl].
  - cbv zeta. split_and!; [done|simpl; naive_solver|by intros known ? _|intros _; simpl; by rewrite app_nil_r].
  - assert (NoDup (map gn_id (add_node graph (node_of func)))) as Hnd'.
    { rewrite add_node_ids. destruct (mem _ _) eqn:Hm; [done|].
      apply mem_not_In in Hm. apply NoDup_app. split_and!; [done| |apply NoDup_singleton].
      intros id Hid ->%list_elem_of_singleton. by apply Hm, list_elem_of_In. }
    destruct (IH _ Hnd') as (Hres & Hids & Hknown & Hfresh). cbv zeta in *.
    split_and!; [done| | |].
    + intros id. rewrite Hids, add_node_ids. cbn [map In node_of gn_id].
      destruct (mem _ _) eqn:Hm.
      * apply mem_In in Hm. cbn [node_of gn_id] in Hm. naive_solver.
      * rewrite in_app_iff. simpl. naive_solver.
    + intros known Hgraph Hfuncs. apply Forall_cons in Hfuncs as [Hf Hfuncs].
      apply Hknown; [|done]. by apply add_node_from.
    + intros Hall. cbn [map] in Hall.
      assert (~ In (sym_name func) (map gn_id graph)) as Hnew.
      { intros Hin%list_elem_of_In. apply NoDup_app in Hall as (_ & Hdisj & _).
        apply (Hdisj _ Hin). by left. }
      rewrite add_node_fresh in * by done. rewrite Hfresh.
      * by rewrite <- app_assoc.
      * rewrite map_app. cbn [map node_of gn_id]. rewrite <- app_assoc. apply Hall.
Qed.

(** X10. The dependency graph has one node per function name: node ids are
    pairwise distinct, they are exactly the names of the functions, every
    node carries the name and the span of one of the functions, and there is
    no edge information beyond that. When the function names are pairwise
    distinct, the nodes are the functions in order; when a name repeats (two
    methods of the same name in different classes), the graph has fewer nodes
    than there are functions. *)
Theorem dependency_graph_nodes (functions : list Symbol) :
  NoDup (map gn_id (generate_dependency_graph functions))
  /\ (forall id, In id (map gn_id (generate_dependency_graph functions))
                 <-> In id (map sym_name functions))
  /\ (forall node, In node (generate_dependency_graph functions) ->
                   exists func, In func functions /\ node = node_of func)
  /\ (NoDup (map sym_name functions) ->
      generate_dependency_graph functions = map node_of functions)
  /\ (~ NoDup (map sym_name functions) ->
      length (generate_dependency_graph functions) < length functions).
Proof.
  unfold generate_dependency_graph.
  change (fun graph func => add_node graph _)
    with (fun graph func => add_node graph (node_of func)).
  destruct (dependency_graph_fold functions [] (NoDup_nil_2 : NoDup (map gn_id [])))
    as (Hnd & Hids & Hknown & Hfresh).
  cbv zeta in *.
  assert (forall id,
            In id (map gn_id (foldl (fun graph func => add_node graph (node_of func))
                                    [] functions))
            <-> In id (map sym_name functions)) as Hnames.
  { intros id. rewrite Hids. simpl. naive_solver. }
  clear Hids. split_and!; [done|done| |done|].
  - intros node Hin.
    assert (Forall (fun node => exists func, In func functions /\ node = node_of func)
              (foldl (fun graph func => add_node graph (node_of func)) [] functions))
      as Hall.
    { apply Hknown; [constructor|]. apply Forall_forall. intros func Hf%list_elem_of_In.
      by exists func. }
    rewrite Forall_forall in Hall. by apply Hall, list_elem_of_In.
  - intros Hdup.
    set (graph := foldl _ [] functions) in *.
    assert (length graph <= length functions) as Hle.
    { rewrite <- (length_map gn_id graph), <- (length_map sym_name functions).
      apply NoDup_incl_length; [by apply NoDup_ListNoDup|].
      intros id Hid. by apply Hnames. }
    destruct (decide (length graph = length functions)) as [Heq|]; [|lia].
    destruct Hdup. apply NoDup_ListNoDup.
    eapply NoDup_incl_NoDup; [by apply NoDup_ListNoDup, Hnd| |].
    + rewrite !length_map. lia.
    + intros id Hid. by apply Hnames.
Qed.

Lemma dependency_graph_nodes_witness :
  let foo := mkSymbol "foo" (0, 0) (0, 15) "" in
  let foo' := mkSymbol "foo" (3, 4) (4, 10) "" in
  generate_dependency_graph [foo; mkSymbol "bar" (1, 0) (2, 0) ""; foo']
  = [mkGraphNode "foo" (3, 4) (4, 10); mkGraphNode "bar" (1, 0) (2, 0)]
  /\ length (generate_dependency_graph [foo; mkSymbol "bar" (1, 0) (2, 0) ""; foo']) < 3.
Proof.
  intros foo foo'. split; [reflexivity|].
  apply (dependency_graph_nodes [foo; mkSymbol "bar" (1, 0) (2, 0) ""; foo']).
  intros Hnd. apply NoDup_cons in Hnd as [Hfoo _]. apply Hfoo. simpl.
  apply list_elem_of_In. right. by left.
Defined.

(** ** Results of the analysis *)

Lemma definition_symbols_hints rule hint content hunt (nodes : list Node) sym :
  In sym (flat_map (definition_symbols rule hint content hunt) nodes) ->
  sym_llm_hint sym = if hunt then hint (sym_name sym) else "".
Proof.
  intros (n & _ & Hin)%in_flat_map. unfold definition_symbols in Hin.
  destruct (String.eqb _ _); [|done]. destruct (first_identifier n); [|done].
  destruct Hin as [<-|[]]. reflexivity.
Qed.

Lemma traverse_hints (g : Grammar) content hunt root :
  function_rule g <> class_rule g ->
  let st := traverse g content hunt root ([], []) in
  Forall (fun sym => sym_llm_hint sym = if hunt then function_hint g (sym_name sym) else "")
         st.1
  /\ Forall (fun sym => sym_llm_hint sym = if hunt then class_hint g (sym_name sym) else "")
            st.2.
Proof.
  intros Hrules st. subst st. rewrite traverse_preorder by done. cbn [fst snd app].
  split; apply Forall_forall; intros sym Hin%list_elem_of_In;
    by apply definition_symbols_hints in Hin.
Qed.

Lemma analyze_file_hints `{World} content language hunt functions classes graph :
  analyze_file content language hunt = AstSymbols functions classes graph ->
  graph = Some (generate_dependency_graph functions)
  /\ Forall (fun sym => sym_llm_hint sym = "" <-> hunt = false) (functions ++ classes).
Proof.
  assert (forall g : Grammar, function_rule g <> class_rule g ->
            (forall name, function_hint g name <> "") ->
            (forall name, class_hint g name <> "") ->
            forall root,
              Forall (fun sym => sym_llm_hint sym = "" <-> hunt = false)
                     ((traverse g content hunt root ([], [])).1
                      ++ (traverse g content hunt root ([], [])).2)) as Htraverse.
  { intros g Hrules Hf Hc root.
    destruct (traverse_hints g content hunt root Hrules) as [Hfs Hcs]. cbv zeta in *.
    apply Forall_app. split.
    - eapply Forall_impl; [exact Hfs|]. intros sym Hs. cbv beta in Hs. rewrite Hs.
      destruct hunt; split; try done. intros Hempty. by destruct (Hf (sym_name sym)).
    - eapply Forall_impl; [exact Hcs|]. intros sym Hs. cbv beta in Hs. rewrite Hs.
      destruct hunt; split; try done. intros Hempty. by destruct (Hc (sym_name sym)). }
  unfold analyze_file.
  destruct (String.eqb (lower language) "python").
  - unfold analyze_python_file_treesitter. destruct (parser_py content) as [root|e]; [|done].
    cbn [with_dependency_graph]. intros [= <- <- <-]. split; [done|].
    by apply (Htraverse python_grammar).
  - destruct (String.eqb (lower language) "javascript"); [|done].
    unfold analyze_javascript_file_treesitter. destruct parser_js as [parse|]; [|done].
    destruct (parse content) as [root|e]; [|done].
    cbn [with_dependency_graph]. intros [= <- <- <-]. split; [done|].
    by apply (Htraverse javascript_grammar).
Qed.

(** X11. The language name is matched without regard to case, and a
    successful analysis always carries the dependency graph computed from its
    own list of functions; an error result never does. *)
Theorem analyze_file_case_and_graph `{World} (content language : string) (llm_hunt : bool) :
  (lower language = "python" ->
   analyze_file content language llm_hunt = analyze_file content "python" llm_hunt)
  /\ (lower language = "javascript" ->
      analyze_file content language llm_hunt = analyze_file content "javascript" llm_hunt)
  /\ (forall functions classes graph,
        analyze_file content language llm_hunt = AstSymbols functions classes graph ->
        graph = Some (generate_dependency_graph functions)
        /\ (lower language = "python" \/ lower language = "javascript")).
Proof.
  split_and!.
  - intros Hpy. unfold analyze_file. by rewrite Hpy.
  - intros Hjs. unfold analyze_file. by rewrite Hjs.
  - intros functions classes graph Hres.
    split; [by destruct (analyze_file_hints _ _ _ _ _ _ Hres)|].
    unfold analyze_file in Hres.
    destruct (String.eqb_spec (lower language) "python"); [by left|].
    destruct (String.eqb_spec (lower language) "javascript"); [by right|done].
Qed.

Lemma analyze_file_case_and_graph_witness :
  @analyze_file Demo.world Demo.a_py "PyThOn" false
  = @analyze_file Demo.world Demo.a_py "python" false.
Proof.
  by apply (@analyze_file_case_and_graph Demo.world Demo.a_py "PyThOn" false).
Defined.

Lemma append_nonempty (a b : string) : b <> "" -> a +:+ b <> "".
Proof. intros Hb. destruct a; [done|]. simpl. discriminate. Qed.

Lemma get_file_info_symbols `{World} file_path base_path project_type language llm_hint sym :
  let r := get_file_info file_path base_path project_type language llm_hint in
  In sym (ast_functions r ++ ast_classes r) ->
  (sym_llm_hint sym = "" <-> llm_hint = false).
Proof.
  intros r. subst r. unfold ast_functions, ast_classes, get_file_info.
  cbn [ast_analysis].
  assert (forall language',
            In sym (match analyze_file
                            (try_except (r ← open_read file_path; mret r.1) read_error_marker)
                            language' llm_hint with
                    | AstSymbols functions _ _ => functions | _ => [] end
                    ++ match analyze_file
                               (try_except (r ← open_read file_path; mret r.1)
                                  read_error_marker)
                               language' llm_hint with
                       | AstSymbols _ classes _ => classes | _ => [] end) ->
            sym_llm_hint sym = "" <-> llm_hint = false) as Hcase.
  { intros language' Hin.
    destruct (analyze_file _ language' llm_hint) as [msg|functions classes graph] eqn:Hres;
      [done|].
    destruct (analyze_file_hints _ _ _ _ _ _ Hres) as [_ Hall].
    rewrite Forall_forall in Hall. by apply Hall, list_elem_of_In. }
  destruct (qualifies_python _ _); [apply Hcase|].
  destruct (qualifies_javascript _ _); [apply Hcase|done].
Qed.

(** X12. What is embedded depends on the hint flag alone. Without hints,
    every symbol of a file record has an empty hint, so its chunk text is the
    synthesized sentence, and the file-level chunk text is the full content.
    With hints, every symbol chunk text is the symbol's (non-empty) hint
    sentence and the file-level chunk text is the file's hint sentence: the
    content of the file is then not part of any text that is embedded. *)
Theorem hint_flag_decides_chunk_texts `{World}
    (file_path base_path project_type language : string) (llm_hint_flag : bool) :
  let r := get_file_info file_path base_path project_type language llm_hint_flag in
  (llm_hint_flag = false ->
   source (file_chunk r) = full_content r
   /\ (forall func, In func (ast_functions r) ->
         source (function_chunk r func)
         = "Function " +:+ sym_name func +:+ " in " +:+ filename r)
   /\ (forall cls, In cls (ast_classes r) ->
         source (class_chunk r cls)
         = "Class " +:+ sym_name cls +:+ " in " +:+ filename r))
  /\ (llm_hint_flag = true ->
      llm_hint r <> "" /\ source (file_chunk r) = llm_hint r
      /\ (forall func, In func (ast_functions r) ->
            sym_llm_hint func <> "" /\ source (function_chunk r func) = sym_llm_hint func)
      /\ (forall cls, In cls (ast_classes r) ->
            sym_llm_hint cls <> "" /\ source (class_chunk r cls) = sym_llm_hint cls)).
Proof.
  intros r.
  assert (forall sym, In sym (ast_functions r ++ ast_classes r) ->
                      sym_llm_hint sym = "" <-> llm_hint_flag = false) as Hsym.
  { intros sym. apply get_file_info_symbols. }
  split.
  - intros ->. split_and!.
    + reflexivity.
    + intros func Hin. unfold function_chunk. cbn [source].
      rewrite (proj2 (Hsym func (in_or_app _ _ _ (or_introl Hin))) eq_refl). done.
    + intros cls Hin. unfold class_chunk. cbn [source].
      rewrite (proj2 (Hsym cls (in_or_app _ _ _ (or_intror Hin))) eq_refl). done.
  - intros ->.
    assert (llm_hint r <> "") as Hhint.
    { subst r. unfold get_file_info. cbn [llm_hint]. by apply append_nonempty. }
    assert (forall a, a <> "" -> forall b, str_or a b = a) as Hor.
    { intros [|c a] Ha b; done. }
    split_and!; [done| | |].
    + unfold file_chunk. cbn [source]. by apply Hor.
    + intros func Hin.
      assert (sym_llm_hint func <> "") as Hne.
      { intros Hempty. by apply (Hsym func (in_or_app _ _ _ (or_introl Hin))) in Hempty. }
      split; [done|]. unfold function_chunk. cbn [source]. by apply Hor.
    + intros cls Hin.
      assert (sym_llm_hint cls <> "") as Hne.
      { intros Hempty. by apply (Hsym cls (in_or_app _ _ _ (or_intror Hin))) in Hempty. }
      split; [done|]. unfold class_chunk. cbn [source]. by apply Hor.
Qed.

Lemma hint_flag_decides_chunk_texts_witness :
  let r := @get_file_info Demo.world "repo/a.py" "repo" "python_backend" "python" true in
  source (file_chunk r)
  = "This file 'a.py' of type '.py' contains source code. Focus on its function and class definitions to extract business logic. Full content is provided for detailed analysis."
  /\ map (fun func => source (function_chunk r func)) (ast_functions r)
     = ["Examine the function 'foo' to determine its role and business logic."].
Proof.
  intros r. split; [|reflexivity].
  destruct (@hint_flag_decides_chunk_texts Demo.world "repo/a.py" "repo" "python_backend"
              "python" true) as [_ Hon].
  destruct (Hon eq_refl) as (_ & Hfile & _). subst r.
  etrans; [exact Hfile|reflexivity].
Defined.

(** ** Tokenization *)

(** X13. A tokenization that succeeded holds the ids the encoder returned
    for the content, their number as [token_count], and the text the decoder
    returned for those ids. An error at any of the three steps (loading the
    encoding, encoding, decoding) gives the error value with that
    exception's message, and nothing of what earlier steps computed. *)
Theorem tokenize_content_outcomes `{World} (content : string) :
  (forall tokens token_count tokenized_text,
      tokenize_content content = Tokens tokens token_count tokenized_text ->
      get_encoding = Ok () /\ tiktoken_encode content = Ok tokens
      /\ token_count = length tokens /\ tiktoken_decode tokens = Ok tokenized_text)
  /\ (forall msg,
        tokenize_content content = TokError msg ->
        exists e, msg = str_exn e
                  /\ (get_encoding = Raise e
                      \/ tiktoken_encode content = Raise e
                      \/ exists tokens, tiktoken_encode content = Ok tokens
                                        /\ tiktoken_decode tokens = Raise e))
  /\ (forall e, get_encoding = Raise e -> tokenize_content content = TokError (str_exn e)).
Proof.
  unfold tokenize_content, tokenize_attempt.
  destruct get_encoding as [[]|e0] eqn:Henc; cbn [mbind exc_bind try_except].
  - destruct (tiktoken_encode content) as [tokens|e1] eqn:Hids;
      cbn [mbind exc_bind try_except].
    + destruct (tiktoken_decode tokens) as [text|e2] eqn:Hdec;
        cbn [mbind exc_bind mret exc_ret try_except].
      * split_and!; [|done..]. by intros ??? [= <- <- <-].
      * split_and!; [done| |done]. intros msg [= <-]. exists e2. split; [done|].
        right. right. by exists tokens.
    + split_and!; [done| |done]. intros msg [= <-]. exists e1. eauto.
  - split_and!; [done| |by intros e [= <-]]. intros msg [= <-]. exists e0. eauto.
Qed.

Lemma tokenize_content_outcomes_witness :
  @tokenize_content Demo.world "ab" = Tokens [97%Z; 98%Z] 2 "ab"
  /\ @tokenize_content Demo.broken_world "ab" = TokError "cl100k_base unavailable".
Proof.
  split; [reflexivity|].
  destruct (@tokenize_content_outcomes Demo.broken_world "ab") as (_ & _ & Hraise).
  exact (Hraise _ eq_refl).
Defined.

(** ** The ignore patterns *)

Lemma lstrip_unfold s :
  lstrip s = match space_prefix s with Some rest => lstrip rest | None => s end.
Proof.
  destruct s as [|c1 [|c2 [|c3 r3]]]; cbn [lstrip space_prefix]; try done.
  - by destruct (is_space c1).
  - destruct (is_space c1); [done|]. by destruct (is_space2 c1 c2).
  - destruct (is_space c1); [done|]. destruct (is_space2 c1 c2); [done|].
    by destruct (is_space3 c1 c2 c3).
Qed.

Lemma space_prefix_shorter s rest :
  space_prefix s = Some rest -> String.length rest < String.length s.
Proof.
  destruct s as [|c1 [|c2 [|c3 r3]]]; cbn [space_prefix]; try done.
  - destruct (is_space c1); [|done]. intros [= <-]. simpl. lia.
  - destruct (is_space c1); [intros [= <-]; simpl; lia|].
    destruct (is_space2 c1 c2); [|done]. intros [= <-]. simpl. lia.
  - destruct (is_space c1); [intros [= <-]; simpl; lia|].
    destruct (is_space2 c1 c2); [intros [= <-]; simpl; lia|].
    destruct (is_space3 c1 c2 c3); [|done]. intros [= <-]. simpl. lia.
Qed.

Lemma space_prefix_app s rest tail :
  space_prefix s = Some rest -> space_prefix (s ++ tail)%string = Some (rest ++ tail)%string.
Proof.
  destruct s as [|c1 [|c2 [|c3 r3]]]; simpl; try done.
  - destruct (is_space c1); [|done]. by intros [= <-].
  - destruct (is_space c1); [by intros [= <-]|].
    destruct (is_space2 c1 c2); [|done]. by intros [= <-].
  - destruct (is_space c1); [by intros [= <-]|].
    destruct (is_space2 c1 c2); [by intros [= <-]|].
    destruct (is_space3 c1 c2 c3); [|done]. by intros [= <-].
Qed.

Lemma string_length_ind (P : string -> Prop) :
  (forall s, (forall t, String.length t < String.length s -> P t) -> P s) ->
  forall s, P s.
Proof.
  intros Hstep s. remember (String.length s) as n eqn:Hn.
  revert s Hn. induction n as [n IH] using lt_wf_ind. intros s ->.
  apply Hstep. intros t Ht. by apply (IH (String.length t)).
Qed.

(** What [lstrip] leaves does not start with white space. *)
Lemma lstrip_no_space s : space_prefix (lstrip s) = None.
Proof.
  induction s as [s IH] using string_length_ind. rewrite lstrip_unfold.
  destruct (space_prefix s) as [rest|] eqn:Hs; [|done].
  apply IH. by apply space_prefix_shorter.
Qed.

Lemma lstrip_fixed s : space_prefix s = None -> lstrip s = s.
Proof. intros Hs. by rewrite lstrip_unfold, Hs. Qed.

Lemma lstrip_idempotent s : lstrip (lstrip s) = lstrip s.
Proof. apply lstrip_fixed, lstrip_no_space. Qed.

Lemma is_blank_lstrip s : is_blank s = true <-> lstrip s = "".
Proof. unfold is_blank. by destruct (lstrip s). Qed.

(** White space in front of a text is dropped with it. *)
Lemma lstrip_blank_app s tail : is_blank s = true -> lstrip (s ++ tail)%string = lstrip tail.
Proof.
  induction s as [s IH] using string_length_ind. intros Hblank%is_blank_lstrip.
  rewrite lstrip_unfold in Hblank.
  destruct (space_prefix s) as [rest|] eqn:Hs.
  - rewrite (lstrip_unfold (s ++ tail)%string), (space_prefix_app _ _ _ Hs).
    apply IH; [by apply space_prefix_shorter|]. by apply is_blank_lstrip.
  - by subst s.
Qed.

(** [rstrip] cuts a suffix of white space. *)
Lemma rstrip_split s : exists tail, s = (rstrip s ++ tail)%string /\ is_blank tail = true.
Proof.
  induction s as [|c s (tail & Hs & Htail)]; [by exists ""|]. cbn [rstrip].
  destruct (is_blank (String c s)) eqn:Hblank.
  - by exists (String c s).
  - exists tail. split; [|done].
    change (String c s = String c (rstrip s ++ tail)%string). by rewrite <- Hs.
Qed.

Lemma rstrip_idempotent s : rstrip (rstrip s) = rstrip s.
Proof.
  induction s as [|c s IH]; [done|]. cbn [rstrip].
  destruct (is_blank (String c s)) eqn:Hblank; [done|]. cbn [rstrip]. rewrite IH.
  destruct (is_blank (String c (rstrip s))) eqn:Hcut; [|done].
  destruct (rstrip_split s) as (tail & Hs & Htail).
  assert (is_blank (String c s) = true); [|congruence].
  apply is_blank_lstrip. rewrite Hs.
  change (String c (rstrip s ++ tail)) with (String c (rstrip s) ++ tail)%string.
  rewrite (lstrip_blank_app _ _ Hcut). by apply is_blank_lstrip.
Qed.

Lemma rstrip_empty s : rstrip s = "" <-> is_blank s = true.
Proof.
  destruct s as [|c s]; [done|]. cbn [rstrip].
  by destruct (is_blank (String c s)).
Qed.

Lemma rstrip_no_space s : space_prefix s = None -> space_prefix (rstrip s) = None.
Proof.
  intros Hs. destruct (space_prefix (rstrip s)) as [rest|] eqn:Hcut; [|done].
  destruct (rstrip_split s) as (tail & Hsplit & _).
  apply (space_prefix_app _ _ tail) in Hcut. rewrite <- Hsplit in Hcut. congruence.
Qed.

Lemma strip_idempotent s : strip (strip s) = strip s.
Proof.
  unfold strip. rewrite (lstrip_fixed (rstrip (lstrip s))).
  - apply rstrip_idempotent.
  - apply rstrip_no_space, lstrip_no_space.
Qed.

(** The test [s.strip()] of the code is [negb (is_blank s)]. *)
Lemma strip_empty s : strip s = "" <-> is_blank s = true.
Proof.
  unfold strip. rewrite rstrip_empty, !is_blank_lstrip. by rewrite lstrip_idempotent.
Qed.

Lemma pattern_lines_spec (lines : list string) (pattern : string) :
  In pattern (pattern_lines lines)
  <-> exists line, In line lines /\ pattern = strip line
                   /\ pattern <> "" /\ String.prefix "#" pattern = false.
Proof.
  unfold pattern_lines. rewrite in_map_iff. split.
  - intros (line & <- & [Hin Hkeep]%filter_In). exists line.
    apply andb_prop in Hkeep as [Hne Hcomment]. split_and!; [done..| |].
    + by destruct (strip line).
    + by destruct (String.prefix "#" (strip line)).
  - intros (line & Hin & -> & Hne & Hcomment). exists line. split; [done|].
    apply filter_In. split; [done|]. rewrite Hcomment.
    by destruct (strip line).
Qed.

(** White space outside ASCII is white space: a line that is a comment
    after a no-break space is dropped, a pattern between such spaces is
    kept without them, and a byte of a longer character is not taken for
    one. *)
Example strip_unicode_white_space :
  is_blank (Demo.nbsp +:+ Demo.em_space +:+ " ") = true
  /\ strip (Demo.nbsp +:+ "build" +:+ Demo.em_space +:+ String (ascii_of_nat 10) "") = "build"
  /\ pattern_lines [Demo.nbsp +:+ "# note" +:+ String (ascii_of_nat 10) ""] = []
  /\ pattern_lines [Demo.em_space +:+ "*.o " +:+ Demo.nbsp] = ["*.o"]
  /\ is_blank (String (ascii_of_nat 160) "") = false
  /\ strip Demo.replacement_character = Demo.replacement_character.
Proof. by vm_compute. Qed.

Lemma pattern_lines_Permutation (lines lines' : list string) :
  lines ≡ₚ lines' ->
  (list_to_set (pattern_lines lines) : gset string) = list_to_set (pattern_lines lines').
Proof.
  intros Hperm. apply set_eq. intros pattern.
  rewrite !elem_of_list_to_set, !list_elem_of_In, !pattern_lines_spec.
  split; intros (line & Hin & Hrest); exists line; split; try done.
  - apply list_elem_of_In. rewrite <- Hperm. by apply list_elem_of_In.
  - apply list_elem_of_In. rewrite Hperm. by apply list_elem_of_In.
Qed.

(** X14. The patterns handed to the ignore matcher are the built-in default
    patterns, the default ignored file names, and, when [.gitignore] exists
    and can be read, its lines stripped of surrounding white space, without
    the blank lines and the lines whose first non-blank character is [#]. A
    missing or unreadable [.gitignore] leaves the defaults. The patterns form
    a set: the order of the lines of [.gitignore] and their repetitions are
    lost before the matcher sees them. *)
Theorem gitignore_patterns_are_cleaned_lines `{World} (repo_path pattern : string) :
  let gitignore_path := PosixPath.join repo_path ".gitignore" in
  (pattern ∈ combined_patterns repo_path
   <-> In pattern (gitignore_file_patterns repo_path)
       \/ In pattern DEFAULT_IGNORE_PATTERNS \/ In pattern DEFAULT_IGNORE_FILES)
  /\ (forall text replaced,
        isfile gitignore_path = true -> open_read gitignore_path = Ok (text, replaced) ->
        In pattern (gitignore_file_patterns repo_path)
        <-> exists line, In line (readlines text) /\ pattern = strip line
                         /\ pattern <> "" /\ String.prefix "#" pattern = false)
  /\ (In pattern (gitignore_file_patterns repo_path) -> strip pattern = pattern)
  /\ ((isfile gitignore_path = false \/ exists e, open_read gitignore_path = Raise e) ->
      gitignore_file_patterns repo_path = [])
  /\ (forall lines lines',
        lines ≡ₚ lines' ->
        (list_to_set (pattern_lines lines) : gset string)
        = list_to_set (pattern_lines lines')).
Proof.
  intros gitignore_path. split_and!.
  - unfold combined_patterns.
    rewrite !elem_of_union, !elem_of_list_to_set, !list_elem_of_In. tauto.
  - intros text replaced Hfile Hread. unfold gitignore_file_patterns.
    fold gitignore_path. rewrite Hfile, Hread. cbn [mbind exc_bind mret exc_ret try_except fst].
    apply pattern_lines_spec.
  - unfold gitignore_file_patterns. fold gitignore_path.
    destruct (isfile gitignore_path); [|done].
    destruct (open_read gitignore_path) as [[text replaced]|e];
      cbn [mbind exc_bind mret exc_ret try_except fst]; [|done].
    intros (line & _ & -> & _)%pattern_lines_spec. apply strip_idempotent.
  - unfold gitignore_file_patterns. fold gitignore_path.
    intros [->|[e ->]]; [done|]. by destruct (isfile gitignore_path).
  - apply pattern_lines_Permutation.
Qed.

Lemma gitignore_patterns_are_cleaned_lines_witness :
  @gitignore_file_patterns Demo.git_world "repo" = ["build"; "*.o"]
  /\ ("build" : string) ∈ @combined_patterns Demo.git_world "repo"
  /\ @gitignore_file_patterns Demo.world "repo" = [].
Proof.
  assert (@gitignore_file_patterns Demo.git_world "repo" = ["build"; "*.o"]) as Hfile
    by reflexivity.
  split; [exact Hfile|]. split.
  - destruct (@gitignore_patterns_are_cleaned_lines Demo.git_world "repo" "build")
      as (Hiff & _).
    apply Hiff. left. rewrite Hfile. by left.
  - destruct (@gitignore_patterns_are_cleaned_lines Demo.world "repo" "build")
      as (_ & _ & _ & Hmissing & _).
    apply Hmissing. by left.
Defined.

(** ** The clusters *)

Lemma setdefault_append_keys clusters label idx :
  map fst (setdefault_append clusters label idx)
  = if bool_decide (label ∈ map fst clusters) then map fst clusters
    else map fst clusters ++ [label].
Proof.
  induction clusters as [|[l idxs] clusters IH]; [done|]. cbn [setdefault_append map fst].
  destruct (Z.eqb_spec l label) as [->|Hne].
  - rewrite bool_decide_eq_true_2; [done|]. by left.
  - cbn [map fst]. rewrite IH. case_bool_decide as Hin.
    + rewrite bool_decide_eq_true_2; [done|]. by right.
    + rewrite bool_decide_eq_false_2; [done|]. intros [?|?]%elem_of_cons; congruence.
Qed.

Lemma setdefault_append_nonempty clusters label idx :
  Forall (fun li => li.2 <> []) clusters ->
  Forall (fun li => li.2 <> []) (setdefault_append clusters label idx).
Proof.
  induction 1 as [|[l idxs] clusters Hl Hrest IH]; cbn [setdefault_append].
  - by repeat constructor.
  - destruct (Z.eqb l label); constructor; try done.
    cbn [snd]. by destruct idxs.
Qed.

Lemma clusters_fold_shape (pairs : list (nat * Z)) :
  forall clusters,
    NoDup (map fst clusters) -> Forall (fun li => li.2 <> []) clusters ->
    let result := foldl (fun clusters il => setdefault_append clusters il.2 il.1)
                        clusters pairs in
    NoDup (map fst result) /\ Forall (fun li => li.2 <> []) result.
Proof.
  induction pairs as [|[idx label] pairs IH]; intros clusters Hnd Hne; [done|].
  cbn [foldl fst snd]. apply IH.
  - rewrite setdefault_append_keys. case_bool_decide as Hin; [done|].
    apply NoDup_app. split_and!; [done| |apply NoDup_singleton].
    by intros l Hl ->%list_elem_of_singleton.
  - by apply setdefault_append_nonempty.
Qed.

Lemma cluster_writes_elem (clusters : list (Z * list nat)) idx label :
  (idx, label) ∈ cluster_writes clusters
  <-> exists idxs, (label, idxs) ∈ clusters /\ idx ∈ idxs.
Proof.
  unfold cluster_writes. rewrite list_elem_of_In, in_flat_map. split.
  - intros ([l idxs] & Hin & Hw). apply in_map_iff in Hw as (i & [= <- <-] & Hi).
    exists idxs. split; by apply list_elem_of_In.
  - intros (idxs & Hin & Hi). exists (label, idxs). split; [by apply list_elem_of_In|].
    apply in_map_iff. exists idx. split; [done|]. by apply list_elem_of_In.
Qed.

(** X15. When the clustering returns its labels, [cluster_embeddings] returns
    a dictionary with one entry per label that occurs, no entry empty, in
    which index [i] is listed under label [l] exactly when [l] is the label
    of vector [i]; every index of a vector is listed exactly once over the
    whole dictionary. When the clustering raises, so does
    [cluster_embeddings]. *)
Theorem clusters_partition_the_indices `{Models} (embeddings : list Vec)
    (num_clusters : Z) :
  (forall cluster_labels,
      kmeans_fit_predict embeddings num_clusters = Ok cluster_labels ->
      exists clusters,
        cluster_embeddings embeddings num_clusters = Ok clusters
        /\ NoDup (map fst clusters)
        /\ Forall (fun li => li.2 <> []) clusters
        /\ (forall idx label,
              (exists idxs, (label, idxs) ∈ clusters /\ idx ∈ idxs)
              <-> cluster_labels !! idx = Some label)
        /\ map fst (cluster_writes clusters) ≡ₚ seq 0 (length cluster_labels))
  /\ (forall e, kmeans_fit_predict embeddings num_clusters = Raise e ->
                cluster_embeddings embeddings num_clusters = Raise e).
Proof.
  split.
  - intros cluster_labels Hfit. unfold cluster_embeddings. rewrite Hfit.
    cbn [mbind exc_bind mret exc_ret]. eexists. split; [done|].
    set (pairs := imap (fun idx label => (idx, label)) cluster_labels).
    destruct (clusters_fold_shape pairs [] (NoDup_nil_2 : NoDup (map fst []))
                (Forall_nil_2 _)) as [Hnd Hne].
    cbv zeta in *. split_and!; [done..| |].
    + intros idx label. rewrite <- cluster_writes_elem, clusters_fold_writes.
      cbn [cluster_writes flat_map app]. subst pairs. rewrite elem_of_lookup_imap.
      split; [by intros (i & y & [= -> ->] & Hy)|]. intros Hl. by exists idx, label.
    + rewrite clusters_fold_writes. cbn [cluster_writes flat_map app]. subst pairs.
      apply reflexive_eq, list_eq. intros i.
      rewrite list_lookup_fmap, list_lookup_imap.
      destruct (cluster_labels !! i) as [l|] eqn:Hi; simpl.
      * symmetry. apply lookup_seq. split; [done|]. by eapply lookup_lt_Some.
      * symmetry. apply lookup_seq_ge. by apply lookup_ge_None.
  - intros e Hfit. unfold cluster_embeddings. by rewrite Hfit.
Qed.

(** ** Instances of the properties above *)

Lemma combine_results_sums_and_concatenates_witness :
  map filename (files (combine_results [Demo.stale; Demo.stale])) = ["old.txt"; "old.txt"]
  /\ total_files (combine_results [Demo.stale; Demo.stale]) = 2.
Proof.
  destruct (combine_results_sums_and_concatenates [Demo.stale; Demo.stale])
    as (Hn & _ & Hf & _).
  split; [by rewrite Hf|by rewrite Hn].
Defined.

Lemma combine_results_merges_directories_witness :
  dict_get (directory_structure (combine_results [Demo.stale; Demo.stale])) ""
  = ["old.txt"; "old.txt"].
Proof.
  destruct (combine_results_merges_directories [Demo.stale; Demo.stale] "")
    as (_ & _ & Hget & Hunique).
  rewrite Hget. cbn [map concat].
  rewrite (Hunique Demo.stale) by (repeat constructor; by intros ?%elem_of_nil).
  reflexivity.
Defined.

Lemma scan_groups_files_by_directory_witness :
  let a := Ok (Demo.plain_file "src/a.txt" "a") in
  let b := Ok (Demo.plain_file "src/b.txt" "b") in
  dict_get (acc_directory_structure (collect [a; Raise IndexError; b])) "src"
  ≡ₚ dict_get (acc_directory_structure (collect [b; a; Raise IndexError])) "src".
Proof.
  intros a b.
  apply (@scan_groups_files_by_directory Demo.world "repo" Demo.no_ignore [] [] "generic"
           false [] "src").
  etrans; [apply perm_skip, perm_swap|apply perm_swap].
Defined.

Lemma classify_listing_first_match_witness :
  classify_listing ["package.json"; "setup.py"; "index.js"] = "python_backend"
  /\ @detect_project_type Demo.world "repo" = Ok "generic"
  /\ @detect_project_type Demo.broken_world "repo"
     = Raise (Exception "[Errno 13] Permission denied").
Proof.
  split_and!.
  - apply (@classify_listing_first_match Demo.world ["package.json"; "setup.py"; "index.js"]
             "repo").
    exists "setup.py". split; [right; by left|right; by left].
  - destruct (@classify_listing_first_match Demo.world [] "repo") as (_ & _ & _ & Hok & _).
    exact (Hok _ eq_refl).
  - destruct (@classify_listing_first_match Demo.broken_world [] "repo")
      as (_ & _ & _ & _ & Hraise).
    exact (Hraise _ eq_refl).
Defined.

Lemma clusters_partition_the_indices_witness :
  exists clusters,
    @cluster_embeddings Demo.models [3; 1; 4] 2 = Ok clusters
    /\ NoDup (map fst clusters)
    /\ map fst (cluster_writes clusters) ≡ₚ [0; 1; 2].
Proof.
  destruct (@clusters_partition_the_indices Demo.models [3; 1; 4] 2) as [Hok _].
  destruct (Hok [0%Z; 0%Z; 0%Z] eq_refl) as (clusters & Hrun & Hnd & _ & _ & Hperm).
  exists clusters. by split_and!.
Defined.

(** ** The embedding block, all cases *)

Lemma embed_chunks_without_blank_witness :
  @embed_chunks Demo.models 1
     [file_chunk (Demo.plain_file "notes.txt" "x"); file_chunk (Demo.plain_file "b.txt" "yz")]
  = Ok (Some (@aligned_output Demo.models
                [file_chunk (Demo.plain_file "notes.txt" "x");
                 file_chunk (Demo.plain_file "b.txt" "yz")] [1; 2] [0%Z; 0%Z])).
Proof.
  apply (@embed_chunks_without_blank Demo.models 1 _ [1; 2] [0%Z; 0%Z]);
    [done|by repeat constructor|done..].
Defined.

Lemma texts_for_embedding_nil (text_chunks : list Chunk) :
  texts_for_embedding text_chunks = []
  <-> Forall (fun chunk => is_blank (source chunk) = true) text_chunks.
Proof.
  unfold texts_for_embedding. induction text_chunks as [|chunk rest IH].
  - split; [by constructor|done].
  - cbn [List.filter]. rewrite Forall_cons.
    destruct (is_blank (source chunk)); cbn [negb map].
    + rewrite IH. naive_solver.
    + split; [done|]. by intros [? _].
Qed.

Lemma build_granular_fields `{Models} (text_chunks : list Chunk) :
  forall i embeddings cluster_assignment acc out,
    build_granular i text_chunks embeddings cluster_assignment acc = Ok out ->
    map g_source out = map g_source acc ++ map source text_chunks
    /\ map g_metadata out = map g_metadata acc ++ map metadata text_chunks.
Proof.
  induction text_chunks as [|chunk rest IH]; intros i embeddings ca acc out;
    cbn [build_granular].
  - intros [= <-]. by rewrite !app_nil_r.
  - destruct (list_get embeddings i) as [embedding|e]; [|done].
    destruct (list_get ca i) as [cluster|e]; [|done]. cbn [mbind exc_bind].
    intros [Hs Hm]%IH. rewrite Hs, Hm, !map_app. cbn [map g_source g_metadata].
    by rewrite <- !app_assoc.
Qed.


(** X17. The embedding block returns "nothing to embed" exactly when every
    chunk is blank, and then asks nothing of the model or the clustering.
    With a model that returns one vector per text, whenever it returns
    output no chunk was blank, and the output lists the chunks' texts and
    metadata in chunk order. *)
Theorem embedding_output_covers_all_chunks `{Models} (num_clusters : Z)
    (text_chunks : list Chunk) :
  (embed_chunks num_clusters text_chunks = Ok None
   <-> Forall (fun chunk => is_blank (source chunk) = true) text_chunks)
  /\ ((forall texts embeddings,
         model_encode texts = Ok embeddings -> length embeddings = length texts) ->
      forall granular_embeddings,
        embed_chunks num_clusters text_chunks = Ok (Some granular_embeddings) ->
        Forall (fun chunk => is_blank (source chunk) = false) text_chunks
        /\ map g_source granular_embeddings = map source text_chunks
        /\ map g_metadata granular_embeddings = map metadata text_chunks).
Proof.
  split.
  - rewrite <- texts_for_embedding_nil. unfold embed_chunks.
    case_bool_decide as Hnil; [done|]. split; [|done].
    destruct (model_encode _); [|done]. cbn [mbind exc_bind].
    destruct (cluster_embeddings _ _); [|done]. cbn [mbind exc_bind].
    destruct (assign_clusters _ _); [|done]. cbn [mbind exc_bind].
    by destruct (build_granular _ _ _ _ _).
  - intros Hencode out Hrun. unfold embed_chunks in Hrun.
    case_bool_decide as Hnil; [done|].
    destruct (model_encode _) as [embeddings|] eqn:Henc; [|done].
    apply Hencode in Henc. cbn [mbind exc_bind] in Hrun.
    destruct (cluster_embeddings _ _); [|done]. cbn [mbind exc_bind] in Hrun.
    destruct (assign_clusters _ _) as [ca|]; [|done]. cbn [mbind exc_bind] in Hrun.
    destruct (build_granular 0 text_chunks embeddings ca []) as [g|] eqn:Hbuild; [|done].
    injection Hrun as <-.
    destruct (build_granular_fields _ _ _ _ _ _ Hbuild) as [Hs Hm].
    split_and!; [|done..].
    apply Forall_forall. intros chunk Hin%list_elem_of_In.
    destruct (is_blank (source chunk)) eqn:Hblank; [|done].
    assert (length (texts_for_embedding text_chunks) < length text_chunks) as Hshort.
    { unfold texts_for_embedding. rewrite length_map.
      apply (filter_drops_one _ _ chunk); [done|]. by rewrite Hblank. }
    rewrite build_granular_short in Hbuild by lia. done.
Qed.

Lemma embedding_output_covers_all_chunks_witness :
  @embed_chunks Demo.models 5
     [file_chunk (Demo.plain_file "empty.txt" ""); file_chunk (Demo.plain_file "ws.txt" "  ");
      file_chunk (Demo.plain_file "nbsp.txt" (Demo.nbsp +:+ Demo.em_space))]
  = Ok None.
Proof.
  apply (@embedding_output_covers_all_chunks Demo.models 5). by repeat constructor.
Defined.

(** ** Walking the tree *)

Lemma walk_files_unfold `{World} (ignore_spec : string -> bool) (repo_path root : string)
    (subdirs : list (string * DirTree)) (fs : list string) :
  walk_files ignore_spec repo_path root (Dir subdirs fs)
  = map (PosixPath.join root) fs
    ++ flat_map (fun dt : string * DirTree =>
                   if ignore_spec (PosixPath.join (relpath root repo_path) dt.1) then []
                   else walk_files ignore_spec repo_path (PosixPath.join root dt.1) dt.2)
                subdirs.
Proof.
  cbn [walk_files]. f_equal. induction subdirs as [|[d t] subdirs IH]; [done|].
  cbn [flat_map fst snd]. by rewrite IH.
Qed.

Lemma DirTree_ind (P : DirTree -> Prop) :
  (forall subdirs fs, Forall (fun dt => P dt.2) subdirs -> P (Dir subdirs fs)) ->
  forall t, P t.
Proof.
  intros step. fix IH 1. intros [subdirs fs]. apply step.
  induction subdirs as [|[d t] subdirs IHs]; constructor; [apply IH|exact IHs].
Qed.

Lemma tree_size_unfold subdirs fs :
  tree_size (Dir subdirs fs) = length fs + sum_list (map (fun dt => tree_size dt.2) subdirs).
Proof.
  cbn [tree_size]. f_equal. induction subdirs as [|[d t] subdirs IH]; [done|].
  cbn [map sum_list_with snd]. by rewrite IH.
Qed.

Lemma walk_files_all `{World} (repo_path : string) (t : DirTree) :
  forall root, length (walk_files (fun _ => false) repo_path root t) = tree_size t.
Proof.
  induction t as [subdirs fs IH] using DirTree_ind. intros root.
  rewrite walk_files_unfold, tree_size_unfold, length_app, length_map. f_equal.
  induction IH as [|[d t] subdirs Ht _ IHs]; [done|].
  cbn [flat_map map sum_list_with fst snd]. by rewrite length_app, Ht, IHs.
Qed.

(** X18. A sub-directory whose relative path the ignore specification
    matches is not entered: the candidate list is the same whatever lies
    below it, and the same as if the directory were not there. The files of a
    directory come before those of its sub-directories, and when nothing is
    ignored the walk lists as many paths as the tree has files. *)
Theorem ignored_directory_is_not_walked `{World} (ignore_spec : string -> bool)
    (repo_path root dir : string) (before after : list (string * DirTree))
    (below below' : DirTree) (fs : list string) :
  ignore_spec (PosixPath.join (relpath root repo_path) dir) = true ->
  walk_files ignore_spec repo_path root (Dir (before ++ (dir, below) :: after) fs)
  = walk_files ignore_spec repo_path root (Dir (before ++ (dir, below') :: after) fs)
  /\ walk_files ignore_spec repo_path root (Dir (before ++ (dir, below) :: after) fs)
     = walk_files ignore_spec repo_path root (Dir (before ++ after) fs)
  /\ (exists deeper,
        walk_files ignore_spec repo_path root (Dir (before ++ (dir, below) :: after) fs)
        = map (PosixPath.join root) fs ++ deeper)
  /\ (forall t, length (walk_files (fun _ => false) repo_path root t) = tree_size t).
Proof.
  intros Hignored. rewrite !walk_files_unfold, !flat_map_app. cbn [flat_map fst snd].
  rewrite Hignored. cbn [app]. split_and!; [done|done|by eexists|].
  intros t. apply walk_files_all.
Qed.

Section WalkExamples.
#[local] Existing Instance Demo.world.

Example walk_skips_ignored :
  walk_files Demo.ignores_node_modules "repo" "repo" Demo.nested_tree
  = ["repo/README.md"; "repo/src/main.py"; "repo/src/util/io.py"].
Proof. reflexivity. Qed.

Example walk_lists_all :
  walk_files Demo.no_ignore "repo" "repo" Demo.nested_tree
  = ["repo/README.md"; "repo/src/main.py"; "repo/src/util/io.py";
     "repo/node_modules/package.json"; "repo/node_modules/left-pad/index.js"].
Proof. reflexivity. Qed.

End WalkExamples.

Lemma ignored_directory_is_not_walked_witness :
  @walk_files Demo.world Demo.ignores_node_modules "repo" "repo" Demo.nested_tree
  = @walk_files Demo.world Demo.ignores_node_modules "repo" "repo"
      (Dir [("src", Dir [("util", Dir [] ["io.py"])] ["main.py"])] ["README.md"]).
Proof.
  apply (@ignored_directory_is_not_walked Demo.world Demo.ignores_node_modules "repo" "repo"
           "node_modules" [("src", Dir [("util", Dir [] ["io.py"])] ["main.py"])] []
           (Dir [("left-pad", Dir [] ["index.js"])] ["package.json"]) (Dir [] [])
           ["README.md"]).
  reflexivity.
Defined.

(** ** The reference to the embeddings file *)



(** ** The project tree *)

Lemma string_compare_trans (a : string) :
  forall b c, String.compare a b <> Gt -> String.compare b c <> Gt ->
              String.compare a c <> Gt.
Proof.
  induction a as [|x a IH]; intros [|y b] [|z c]; simpl; try done.
  unfold Ascii.compare.
  destruct (N.compare_spec (N_of_ascii x) (N_of_ascii y)) as [Hxy|Hxy|Hxy];
    destruct (N.compare_spec (N_of_ascii y) (N_of_ascii z)) as [Hyz|Hyz|Hyz];
    destruct (N.compare_spec (N_of_ascii x) (N_of_ascii z)) as [Hxz|Hxz|Hxz];
    try done; try lia.
  apply IH.
Qed.

#[local] Instance string_le_trans : Transitive string_le.
Proof.
  intros a b c. unfold string_le, String.leb.
  pose proof (string_compare_trans a b c) as Htrans.
  destruct (String.compare a b), (String.compare b c), (String.compare a c);
    try done; intros _ _; by destruct Htrans.
Qed.

#[local] Instance string_le_antisym : AntiSymm (=) string_le.
Proof. intros a b. apply String.leb_antisym. Qed.

#[local] Instance string_le_total : Total string_le.
Proof. intros a b. apply String.leb_total. Qed.

Lemma insert_sorted_Permutation x l : insert_sorted x l ≡ₚ x :: l.
Proof.
  induction l as [|y l IH]; [done|]. cbn [insert_sorted].
  destruct (String.leb x y); [done|]. rewrite IH. apply perm_swap.
Qed.

Lemma insert_sorted_Sorted x l : Sorted string_le l -> Sorted string_le (insert_sorted x l).
Proof.
  induction 1 as [|y l Hl IH Hhd]; cbn [insert_sorted]; [by repeat constructor|].
  destruct (String.leb x y) eqn:Hxy.
  - by repeat constructor.
  - assert (string_le y x) as Hyx by (by destruct (total string_le x y); [congruence|]).
    constructor; [done|]. destruct Hhd as [|z l Hyz]; cbn [insert_sorted].
    + by constructor.
    + destruct (String.leb x z); by constructor.
Qed.

Lemma sorted_Permutation l : sorted l ≡ₚ l.
Proof.
  unfold sorted. induction l as [|x l IH]; [done|]. cbn [foldr].
  by rewrite insert_sorted_Permutation, IH.
Qed.

Lemma sorted_Sorted l : Sorted string_le (sorted l).
Proof.
  unfold sorted. induction l as [|x l IH]; [constructor|]. cbn [foldr].
  by apply insert_sorted_Sorted.
Qed.

Lemma sorted_order_free l l' : l ≡ₚ l' -> sorted l = sorted l'.
Proof.
  intros Hperm. apply (Sorted_unique string_le); [apply sorted_Sorted..|].
  by rewrite !sorted_Permutation.
Qed.

Lemma foldl_pointwise {A B : Type} (f g : A -> B -> A) (l : list B) (a : A) :
  (forall a x, f a x = g a x) -> foldl f a l = foldl g a l.
Proof.
  intros Hfg. revert a. induction l as [|x l IH]; intros a; [done|].
  cbn [foldl]. by rewrite Hfg, IH.
Qed.

Lemma tree_order_free (ds ds' : list (string * list string)) (base_path : string) :
  map fst ds ≡ₚ map fst ds' ->
  (forall dir, dict_get ds dir ≡ₚ dict_get ds' dir) ->
  create_tree_structure ds base_path = create_tree_structure ds' base_path.
Proof.
  intros Hkeys Hfiles. unfold create_tree_structure.
  rewrite (sorted_order_free _ _ Hkeys). f_equal.
  apply foldl_pointwise. intros tree_lines dir_path.
  by rewrite (sorted_order_free _ _ (Hfiles dir_path)).
Qed.

Lemma collect_keys_Permutation (completed completed' : list (exc FileRecord)) :
  completed ≡ₚ completed' ->
  map fst (acc_directory_structure (collect completed))
  ≡ₚ map fst (acc_directory_structure (collect completed')).
Proof.
  intros Hperm. apply NoDup_Permutation.
  - apply (collect_structure completed "").
  - apply (collect_structure completed' "").
  - intros dir. rewrite !list_elem_of_In.
    destruct (collect_structure completed dir) as (_ & -> & _).
    destruct (collect_structure completed' dir) as (_ & -> & _).
    apply returned_Permutation in Hperm.
    split; intros (r & Hin & Hdir); exists r; split; try done;
      apply list_elem_of_In; [rewrite <- Hperm|rewrite Hperm]; by apply list_elem_of_In.
Qed.

(** X20. The rendered project tree does not depend on the order in which the
    file-processing calls complete: two orders of the same results give the
    same text. More generally the tree is the same for two directory
    structures with the same directories and, under each, the same file names
    up to order. *)
Theorem project_tree_is_order_independent (completed completed' : list (exc FileRecord))
    (base_path : string) :
  completed ≡ₚ completed' ->
  create_tree_structure (acc_directory_structure (collect completed)) base_path
  = create_tree_structure (acc_directory_structure (collect completed')) base_path
  /\ (forall ds ds' : list (string * list string),
        map fst ds ≡ₚ map fst ds' ->
        (forall dir, dict_get ds dir ≡ₚ dict_get ds' dir) ->
        create_tree_structure ds base_path = create_tree_structure ds' base_path).
Proof.
  intros Hperm. split; [|intros ds ds'; apply tree_order_free].
  apply tree_order_free; [by apply collect_keys_Permutation|].
  intros dir.
  destruct (collect_structure completed dir) as (_ & _ & ->).
  destruct (collect_structure completed' dir) as (_ & _ & ->).
  by apply names_in_dir_Permutation, returned_Permutation.
Qed.

Lemma project_tree_is_order_independent_witness :
  let a := Ok (Demo.plain_file "src/a.txt" "a") in
  let b := Ok (Demo.plain_file "src/b.txt" "b") in
  let c := Ok (Demo.plain_file "lib/c.txt" "c") in
  create_tree_structure (acc_directory_structure (collect [a; c; b])) "/work/repo"
  = create_tree_structure (acc_directory_structure (collect [b; a; c])) "/work/repo".
Proof.
  intros a b c.
  assert ([a; c; b] ≡ₚ [b; a; c]) as Hperm
    by (etrans; [apply perm_skip, perm_swap|apply perm_swap]).
  exact (proj1 (project_tree_is_order_independent [a; c; b] [b; a; c] "/work/repo" Hperm)).
Defined.

Example tree_of_scan :
  create_tree_structure [("src", ["b.py"; "a.py"]); (".", ["README.md"])] "/work/repo"
  = String.concat (String (ascii_of_nat 10) "")
      ["/work/repo"; "├── README.md"; ""; "src"; "├── a.py"; "├── b.py"; ""].
Proof. reflexivity. Qed.

(** ** A run on one directory *)

Lemma dict_extend_fresh d key vs :
  ~ In key (map fst d) -> dict_extend d key vs = d ++ [(key, vs)].
Proof.
  induction d as [|[k ws] d IH]; intros Hfresh; [done|]. cbn [dict_extend].
  destruct (String.eqb_spec k key) as [->|Hne].
  - destruct Hfresh. by left.
  - rewrite IH; [done|]. intros Hin. apply Hfresh. by right.
Qed.

Lemma dict_extend_all_fresh (entries d : list (string * list string)) :
  NoDup (map fst d ++ map fst entries) ->
  foldl (fun ds kv => dict_extend ds kv.1 kv.2) d entries = d ++ entries.
Proof.
  revert d. induction entries as [|[k vs] entries IH]; intros d Hnd.
  - by rewrite app_nil_r.
  - cbn [foldl fst snd]. cbn [map fst] in Hnd.
    rewrite dict_extend_fresh.
    + rewrite IH; [by rewrite <- app_assoc|].
      rewrite map_app. cbn [map fst]. by rewrite <- app_assoc.
    + intros Hin%list_elem_of_In. apply NoDup_app in Hnd as (_ & Hdisj & _).
      apply (Hdisj _ Hin). by left.
Qed.

Lemma combine_single_scan `{World} (repo_path : string) (ignore_spec : string -> bool)
    (ignore_patterns include_extensions : list string) (project_type : string)
    (llm_hunt : bool) :
  let res := scan_repository repo_path ignore_spec ignore_patterns include_extensions
               project_type llm_hunt in
  combine_results [res]
  = {| repository_path := "Multiple Sources";
       total_files := total_files res;
       total_size_bytes := total_size_bytes res;
       files := files res;
       directory_structure := directory_structure res |}.
Proof.
  intros res. unfold combine_results. cbn [foldl]. f_equal.
  rewrite dict_extend_all_fresh; [done|]. cbn [directory_structure map app].
  subst res. unfold scan_repository, scan_candidates. cbn [directory_structure].
  apply (collect_structure _ "").
Qed.

(** X21. A run of [main] on one directory with the cache switched off scans
    that directory with the ignore specification loaded from it, with the
    ignored file names and the ignore patterns of the command line taken
    together as name patterns, and with the project type given on the
    command line, except that the value "generic" means detection from the
    directory's listing. The document holds the files, totals and directory
    structure of that scan under the path "Multiple Sources", and the scan
    is written to the cache. *)
Theorem main_on_one_directory `{World} `{Models}
    (load_gitignore : string -> string -> bool) (args : Args) (path : string)
    (disk disk' : Disk) (out : Output) :
  isdir path = true ->
  arg_no_cache args = true ->
  main load_gitignore args [path] disk = Ok (out, disk') ->
  exists project_type,
    (if String.eqb (arg_project_type args) "generic"
     then detect_project_type path = Ok project_type
     else project_type = arg_project_type args)
    /\ let res := scan_repository path (load_gitignore path)
                    (arg_ignore_files args ++ arg_ignore args)
                    (arg_include_extensions args) project_type (arg_llm_hint args) in
       out_files out = files res
       /\ out_directory_structure out = directory_structure res
       /\ out_repository_metadata out
          = {| rm_repository_path := "Multiple Sources";
               rm_total_files := total_files res;
               rm_total_size_bytes := total_size_bytes res |}
       /\ out_project_tree out
          = create_tree_structure (directory_structure res) "Multiple Sources"
       /\ disk' = save_cache res disk.
Proof.
  intros Hdir Hno Hmain. unfold main in Hmain. cbn [List.find] in Hmain.
  rewrite Hdir in Hmain. cbn [default] in Hmain. unfold DEFAULT_PROJECT_TYPE in Hmain.
  destruct (if negb _ then _ else _) as [project_type|] eqn:Hpt; [|done].
  cbn [mbind exc_bind] in Hmain. exists project_type. split.
  { destruct (String.eqb (arg_project_type args) "generic"); [done|].
    cbn [negb] in Hpt. by injection Hpt as <-. }
  cbn [scan_sources] in Hmain. rewrite Hdir in Hmain. unfold scan_directory in Hmain.
  rewrite Hno in Hmain. cbn [app fst snd mbind exc_bind] in Hmain. unfold id in Hmain.
  rewrite combine_single_scan in Hmain. cbv zeta in Hmain.
  cbn [files directory_structure repository_path] in Hmain.
  destruct (if arg_no_embeddings args then _ else _) as [ref|]; [|done].
  cbn [mbind exc_bind mret exc_ret] in Hmain. injection Hmain as <- <-.
  cbv zeta. by split_and!.
Qed.

Lemma main_on_one_directory_witness :
  exists out disk',
    @main Demo.world Demo.models (fun _ => Demo.no_ignore)
          (mkArgs "generic" DEFAULT_IGNORE_FILES ["notes.txt"] [] true false 5 true)
          ["repo"] Demo.empty_disk = Ok (out, disk')
    /\ map filename (out_files out) = ["app.js"; "bad.bin"; "empty.txt"; "a.py"]
    /\ load_cache disk' <> None.
Proof.
  eexists _, _. split; [vm_compute; reflexivity|].
  destruct (@main_on_one_directory Demo.world Demo.models (fun _ => Demo.no_ignore)
              (mkArgs "generic" DEFAULT_IGNORE_FILES ["notes.txt"] [] true false 5 true)
              "repo" Demo.empty_disk _ _ eq_refl eq_refl eq_refl)
    as (project_type & Hpt & Hfiles & _).
  injection Hpt as <-. split; [exact (f_equal (map filename) Hfiles)|].
  vm_compute. discriminate.
Defined.

Lemma typescript_denied_extension_never_matches_witness :
  ext_of "types/index.d.ts" = ".ts"
  /\ ext_of "types/index.d.ts" <> ".d.ts"
  /\ @filter_candidate Demo.world "repo" Demo.no_ignore [] []
       (get_project_specific_ignore_extensions "typescript") "repo/types/index.d.ts"
     <> IgnoredProjectExtension ".d.ts".
Proof.
  destruct (@typescript_denied_extension_never_matches Demo.world "repo" Demo.no_ignore
              [] [] "repo/types/index.d.ts") as (_ & _ & Hne & Hnever).
  split; [reflexivity|]. split; [exact Hne|exact (Hnever ".d.ts")].
Defined.
